(** * MediConnect backend: a shallow embedding of [server.js]

    The Express handlers of [server.js] are embedded as functions over an
    explicit database state.  Every [pool.query] call is recorded, with its
    statement text and its bound parameters, in a query log, and its effect on
    the tables is the one PostgreSQL gives to the statement.  The libraries
    the handlers call ([jsonwebtoken], [bcrypt]) and the parts of the
    PostgreSQL engine that depend on caller-interpolated text are interfaces
    (type classes); the locale-dependent text order used by [ORDER BY] is a
    class with its order laws. *)

From Stdlib Require Import List String Ascii ZArith Bool Arith Lia.
From Stdlib Require Import Permutation Sorted DecimalString.
Import ListNotations.

Local Open Scope list_scope.
Local Open Scope string_scope.

(* ================================================================== *)
(** * JavaScript values and string primitives used by the handlers     *)
(* ================================================================== *)

Module Js.

(** [`${n}`] for a non-negative integer [n]. *)
Definition show (n : nat) : string := NilEmpty.string_of_uint (Nat.to_uint n).

(** [s.split(sep)] for a one-character separator: the pieces between the
    separators, so that [''.split(' ')] is [['']]. *)
Fixpoint split (sep : ascii) (s : string) : list string :=
  match s with
  | EmptyString => [EmptyString]
  | String c s' =>
      if Ascii.eqb c sep then EmptyString :: split sep s'
      else match split sep s' with
           | [] => [String c EmptyString]
           | piece :: rest => String c piece :: rest
           end
  end.

(** [arr.join(sep)]. *)
Fixpoint join (sep : string) (arr : list string) : string :=
  match arr with
  | [] => EmptyString
  | [x] => x
  | x :: rest => x ++ sep ++ join sep rest
  end.

(** [arr.map((x, index) => f(x, index))], the index starting at [from]. *)
Fixpoint mapi_from {A B} (from : nat) (f : A -> nat -> B) (arr : list A) : list B :=
  match arr with
  | [] => []
  | x :: rest => f x from :: mapi_from (S from) f rest
  end.

Definition mapi {A B} (f : A -> nat -> B) (arr : list A) : list B :=
  mapi_from 0 f arr.

(** Truthiness of a value that is [undefined] or a string: [undefined] and
    the empty string are falsy. *)
Definition truthy (v : option string) : bool :=
  match v with
  | None => false
  | Some s => negb (String.eqb s EmptyString)
  end.

(** The string behind a truthy value, [None] for a falsy one. *)
Definition present (v : option string) : option string :=
  if truthy v then v else None.

(** No occurrence of the character [c] in [s]. *)
Fixpoint lacks (c : ascii) (s : string) : bool :=
  match s with
  | EmptyString => true
  | String c' s' => negb (Ascii.eqb c' c) && lacks c s'
  end.

End Js.

(* ================================================================== *)
(** * SQL values, three-valued logic, LIKE / ILIKE and ORDER BY        *)
(* ================================================================== *)

(** A scalar as it travels in a JSON body and as a bound parameter. *)
Inductive value : Type :=
| VNull
| VBool (b : bool)
| VInt (z : Z)
| VText (s : string).

Module Sql.

(** SQL truth values: [None] is NULL (unknown). *)
Definition tv := option bool.

Definition and3 (a b : tv) : tv :=
  match a, b with
  | Some false, _ | _, Some false => Some false
  | Some true, Some true => Some true
  | _, _ => None
  end.

Definition or3 (a b : tv) : tv :=
  match a, b with
  | Some true, _ | _, Some true => Some true
  | Some false, Some false => Some false
  | _, _ => None
  end.

(** A WHERE clause keeps the rows whose condition is TRUE. *)
Definition is_true (a : tv) : bool :=
  match a with Some true => true | _ => false end.

(** [col = true] on a nullable boolean column. *)
Definition eq_true (col : option bool) : tv := col.

(** [col > 0] on a nullable integer column. *)
Definition gt_zero (col : option Z) : tv := option_map (fun q => (0 <? q)%Z) col.

(** [col = $k] on a text column, the parameter being a string. *)
Definition text_eq (col param : string) : bool := String.eqb col param.

(** LIKE with the default escape character: [%] matches any run of
    characters, [_] any one character, a backslash makes the next pattern
    character literal.  (A pattern that ends in a lone backslash raises in
    PostgreSQL; see [dangling_escape].) *)
Fixpoint like (pattern text : string) : bool :=
  match pattern with
  | EmptyString => match text with EmptyString => true | _ => false end
  | String p pattern' =>
      if Ascii.eqb p "%" then
        (fix from (t : string) : bool :=
           like pattern' t ||
           match t with
           | EmptyString => false
           | String _ t' => from t'
           end) text
      else if Ascii.eqb p "_" then
        match text with
        | EmptyString => false
        | String _ text' => like pattern' text'
        end
      else if Ascii.eqb p "\" then
        match pattern' with
        | EmptyString => false
        | String q pattern'' =>
            match text with
            | EmptyString => false
            | String c text' => Ascii.eqb q c && like pattern'' text'
            end
        end
      else
        match text with
        | EmptyString => false
        | String c text' => Ascii.eqb p c && like pattern' text'
        end
  end.

(** The pattern ends in an escape character that escapes nothing. *)
Fixpoint dangling_escape (pattern : string) : bool :=
  match pattern with
  | EmptyString => false
  | String p pattern' =>
      if Ascii.eqb p "\" then
        match pattern' with
        | EmptyString => true
        | String _ pattern'' => dangling_escape pattern''
        end
      else dangling_escape pattern'
  end.

(** Case folding of ILIKE, on the ASCII letters. *)
Definition lower_char (c : ascii) : ascii :=
  let n := nat_of_ascii c in
  if ((65 <=? n) && (n <=? 90))%nat then ascii_of_nat (n + 32) else c.

Fixpoint lower (s : string) : string :=
  match s with
  | EmptyString => EmptyString
  | String c s' => String (lower_char c) (lower s')
  end.

(** [col ILIKE $k] on a nullable text column. *)
Definition ilike (col : option string) (pattern : string) : tv :=
  option_map (fun text => like (lower pattern) (lower text)) col.

(** The parameter the search handlers bind: [`%${v}%`]. *)
Definition wrap (v : string) : string := "%" ++ v ++ "%".

(** The locale of the database: the total order ORDER BY uses on text. *)
Class Collation : Type := {
  text_leb : string -> string -> bool;
  text_leb_total : forall a b, text_leb a b = true \/ text_leb b a = true;
  text_leb_trans : forall a b c,
      text_leb a b = true -> text_leb b c = true -> text_leb a c = true
}.

(** Ascending order on a nullable text key: NULLs come last. *)
Definition key_leb `{Collation} (a b : option string) : bool :=
  match a, b with
  | Some x, Some y => text_leb x y
  | Some _, None => true
  | None, Some _ => false
  | None, None => true
  end.

Fixpoint insert_by `{Collation} {A} (key : A -> option string) (x : A) (l : list A) : list A :=
  match l with
  | [] => [x]
  | y :: l' =>
      if key_leb (key x) (key y) then x :: y :: l'
      else y :: insert_by key x l'
  end.

(** [ORDER BY key] (ascending). *)
Fixpoint order_by `{Collation} {A} (key : A -> option string) (l : list A) : list A :=
  match l with
  | [] => []
  | x :: l' => insert_by key x (order_by key l')
  end.

End Sql.

(** What the claims call a case-insensitive substring match. *)
Definition is_substring (v s : string) : Prop :=
  exists pre post, s = pre ++ v ++ post.

Definition ci_substring (v s : string) : Prop :=
  is_substring (Sql.lower v) (Sql.lower s).

(** A value free of the three characters LIKE gives a meaning to. *)
Definition plain (v : string) : bool :=
  Js.lacks "%" v && Js.lacks "_" v && Js.lacks "\" v.

(* ================================================================== *)
(** * The relational store                                             *)
(* ================================================================== *)

(** The rows of the five tables.  The schema file is not part of the
    sources: the columns are those the statements of [server.js] name, the
    keys are integers, and every other column is nullable. *)

Record User : Type := {
  u_user_id : Z;
  u_full_name : option string;
  u_email : option string;
  u_password_hash : option string;
  u_phone : option string;
  u_address : option string;
  u_city : option string;
  u_state : option string;
  u_pincode : option string;
  u_date_of_birth : option string;
  u_gender : option string
}.

Record Hospital : Type := {
  h_hospital_id : Z;
  h_hospital_name : option string;
  h_email : option string;
  h_password_hash : option string;
  h_phone : option string;
  h_address : option string;
  h_city : option string;
  h_state : option string;
  h_pincode : option string;
  h_registration_number : option string;
  h_hospital_type : option string;
  h_is_active : option bool
}.

Record Pharmacy : Type := {
  p_pharmacy_id : Z;
  p_pharmacy_name : option string;
  p_email : option string;
  p_password_hash : option string;
  p_phone : option string;
  p_address : option string;
  p_city : option string;
  p_state : option string;
  p_pincode : option string;
  p_license_number : option string;
  p_operating_hours : option string;
  p_is_active : option bool
}.

Record Doctor : Type := {
  d_doctor_id : Z;
  d_hospital_id : Z;
  d_full_name : option string;
  d_specialization : option string;
  d_qualification : option string;
  d_experience_years : option Z;
  d_phone : option string;
  d_email : option string;
  d_consultation_fee : value;
  d_available_days : option string;
  d_available_time_from : option string;
  d_available_time_to : option string;
  d_room_number : option string;
  d_is_available : option bool
}.

Record Medicine : Type := {
  m_medicine_id : Z;
  m_pharmacy_id : Z;
  m_medicine_name : option string;
  m_generic_name : option string;
  m_manufacturer : option string;
  m_category : option string;
  m_dosage_form : option string;
  m_strength : option string;
  m_price : value;
  m_stock_quantity : option Z;
  m_expiry_date : option string;
  m_requires_prescription : option bool;
  m_description : option string;
  m_is_available : option bool
}.

(** The tables, and the sequences behind the serial keys of the three
    account tables. *)
Record Db : Type := {
  users : list User;
  hospitals : list Hospital;
  pharmacies : list Pharmacy;
  doctors : list Doctor;
  medicines : list Medicine;
  users_seq : Z;
  hospitals_seq : Z;
  pharmacies_seq : Z
}.

(** One [pool.query(text, params)] call. *)
Definition Query : Type := (string * list value)%type.

(** What a handler runs against: the database and the log of the
    statements sent to it so far (oldest first). *)
Record World : Type := {
  db : Db;
  queries : list Query
}.

(* ================================================================== *)
(** * Exceptions and state: the monad of a handler body                *)
(* ================================================================== *)

Inductive result (A : Type) : Type :=
| Ok (a : A)
| Throw (error : string).
Arguments Ok {A} a.
Arguments Throw {A} error.

(** A computation that reads and writes the world and may throw; what it
    did to the world before throwing stays done. *)
Definition M (A : Type) : Type := World -> result A * World.

Definition ret {A} (a : A) : M A := fun w => (Ok a, w).

Definition throw {A} (error : string) : M A := fun w => (Throw error, w).

Definition bind {A B} (m : M A) (k : A -> M B) : M B :=
  fun w =>
    match m w with
    | (Ok a, w') => k a w'
    | (Throw e, w') => (Throw e, w')
    end.

Declare Scope handler_scope.
Delimit Scope handler_scope with handler.
Notation "x <- m ;; k" := (bind m (fun x => k))
  (at level 100, m at next level, right associativity) : handler_scope.

(** [await pool.query(text, params)]: the statement is logged, and [run],
    the meaning of [text] under [params], is applied to the database; when
    it raises the database is as before. *)
Definition pool_query {A} (text : string) (params : list value)
    (run : Db -> result (A * Db)) : M A :=
  fun w =>
    let log := (queries w ++ [(text, params)])%list in
    match run (db w) with
    | Ok (a, db') => (Ok a, {| db := db'; queries := log |})
    | Throw e => (Throw e, {| db := db w; queries := log |})
    end.

(** A statement that only reads. *)
Definition reading {A} (rows : Db -> A) : Db -> result (A * Db) :=
  fun d => Ok (rows d, d).

(* ================================================================== *)
(** * HTTP responses                                                   *)
(* ================================================================== *)

(** [res.status(status).json({success, message, count, data})]; a key the
    handler does not set is [None]. *)
Record Response (A : Type) : Type := {
  status : nat;
  success : bool;
  message : option string;
  count : option nat;
  data : option A
}.
Arguments status {A} _.
Arguments success {A} _.
Arguments message {A} _.
Arguments count {A} _.
Arguments data {A} _.

(** [res.status(code).json({ success: false, message })]. *)
Definition failure {A} (code : nat) (msg : string) : Response A :=
  {| status := code; success := false; message := Some msg; count := None; data := None |}.

(** The [try { ... } catch (error) { res.status(500)... }] around every
    controller body. *)
Definition try_catch {A} (body : M (Response A)) : World -> Response A * World :=
  fun w =>
    match body w with
    | (Ok r, w') => (r, w')
    | (Throw _, w') => (failure 500 "Server error", w')
    end.

(* ================================================================== *)
(** * The libraries and the environment                                *)
(* ================================================================== *)

(** The payload of an identity token: what [generateToken] signs, with the
    issue and expiry times [jwt.sign] adds. *)
Record Claims : Type := {
  id : Z;
  userType : string;
  iat : Z;
  exp : option Z
}.

(** The [jsonwebtoken] library: signing, and the two observations
    verification makes of a token string.  A well-formed token is in the
    compact serialization (three base64url segments separated by dots), so
    it is not empty and holds no space. *)
Class JwtLib : Type := {
  (** [jwt.sign({ id, userType }, secret, { expiresIn })] at time [now] *)
  jwt_sign : Z -> string -> string -> string -> Z -> string;
  (** the payload of a well-formed token, [None] for a malformed one *)
  jwt_decode : string -> option Claims;
  (** whether the signature of the token is the one [secret] gives *)
  jwt_signature_ok : string -> string -> bool;
  jwt_compact : forall token,
      jwt_decode token <> None -> token <> "" /\ Js.lacks " " token = true
}.

(** Modelled from the spec: [jwt.verify(token, secret)] of the
    [jsonwebtoken] library, which is not part of the sources, at time [now].
    As section 4.1 describes it, it throws on a malformed token, on a
    signature that does not match, and on an expiry time that [now] has
    reached (the library rejects from the expiry second on); there is no
    other validation. *)
Definition jwt_verify `{JwtLib} (token secret : string) (now : Z) : result Claims :=
  match jwt_decode token with
  | None => Throw "jwt malformed"
  | Some decoded =>
      if negb (jwt_signature_ok secret token) then Throw "invalid signature"
      else match exp decoded with
           | Some e => if (e <=? now)%Z then Throw "jwt expired" else Ok decoded
           | None => Ok decoded
           end
  end.

(** The [bcrypt] library on strings. *)
Class Bcrypt : Type := {
  (** [bcrypt.hash(password, salt)] *)
  bcrypt_hash : string -> string -> string;
  (** [bcrypt.compare(password, hash)] *)
  bcrypt_compare : string -> string -> bool
}.

(** What of PostgreSQL depends on text the handlers do not fix: the effect
    of an UPDATE whose SET clause is interpolated from the request (the new
    table and the RETURNING rows, or an error), the schema's default for
    [is_active], and the input function of the type of the key columns
    [doctor_id] and [medicine_id], which reads the text bound where a
    statement compares the column with a parameter: [None] when the type
    rejects the text (not a number, or outside its range), and the
    statement raises. *)
Class Postgres : Type := {
  pg_update_doctors : string -> list value -> list Doctor -> result (list Doctor * list Doctor);
  pg_update_medicines : string -> list value -> list Medicine -> result (list Medicine * list Medicine);
  pg_default_is_active : option bool;
  pg_key_in : string -> option Z
}.

(** [process.env]. *)
Record Env : Type := {
  JWT_SECRET : string;
  JWT_EXPIRE : string
}.

(* ================================================================== *)
(** * Requests                                                         *)
(* ================================================================== *)

(** [req.body]: the own enumerable properties of the parsed JSON object, in
    enumeration order ([Object.keys] and [Object.values] follow it). *)
Definition Body : Type := list (string * value).

(** [body.key], [VNull] when the key is missing. *)
Fixpoint get (key : string) (body : Body) : value :=
  match body with
  | [] => VNull
  | (k, v) :: rest => if String.eqb k key then v else get key rest
  end.

(** [req.query]: the string parameters of the URL. *)
Definition Params : Type := list (string * string).

(** [query.key], [None] ([undefined]) when the key is missing. *)
Fixpoint prop (key : string) (query : Params) : option string :=
  match query with
  | [] => None
  | (k, v) :: rest => if String.eqb k key then Some v else prop key rest
  end.

(** The text the driver sends for a bound parameter, [None] for NULL. *)
Definition as_text (v : value) : option string :=
  match v with
  | VNull => None
  | VBool true => Some "true"
  | VBool false => Some "false"
  | VInt z => Some (NilEmpty.string_of_int (Z.to_int z))
  | VText s => Some s
  end.

(** [col = $k] on a nullable text column. *)
Definition text_equals (col : option string) (param : value) : Sql.tv :=
  match col, as_text param with
  | Some a, Some b => Some (Sql.text_eq a b)
  | _, _ => None
  end.

(** The three columns the account statements return or the login handlers
    copy: the key, the display name and the email. *)
Record Account : Type := {
  account_id : Z;
  account_name : option string;
  account_email : option string
}.

(** A row of the doctor search: [d.*, h.hospital_name, h.address, h.city,
    h.phone as hospital_phone]. *)
Record DoctorRow : Type := {
  dr_doctor : Doctor;
  dr_hospital_name : option string;
  dr_address : option string;
  dr_city : option string;
  dr_hospital_phone : option string
}.

(** A row of the medicine search: [m.*, p.pharmacy_name, p.address, p.city,
    p.phone as pharmacy_phone]. *)
Record MedicineRow : Type := {
  mr_medicine : Medicine;
  mr_pharmacy_name : option string;
  mr_address : option string;
  mr_city : option string;
  mr_pharmacy_phone : option string
}.

(** A SELECT under construction: the text, the bound parameters, the
    counter [paramCount], and the meaning of the WHERE clause so far on a
    row [R] of the join. *)
Record Select (R : Type) : Type := {
  text : string;
  params : list value;
  paramCount : nat;
  condition : R -> Sql.tv
}.
Arguments text {R} _.
Arguments params {R} _.
Arguments paramCount {R} _.
Arguments condition {R} _.

(** The body of one [if (filter) { query += ...; params.push(`%${filter}%`);
    paramCount++ }]: [clause] is the text added, given [paramCount], and
    [test] the meaning of the added conjunct, given the pushed pattern. *)
Definition and_where {R} (filter : option string) (clause : nat -> string)
    (test : string -> R -> Sql.tv) (q : Select R) : Select R :=
  match Js.present filter with
  | None => q
  | Some v =>
      {| text := text q ++ clause (paramCount q);
         params := (params q ++ [VText (Sql.wrap v)])%list;
         paramCount := S (paramCount q);
         condition := fun r => Sql.and3 (condition q r) (test (Sql.wrap v) r) |}
  end.

(** [FROM doctors d JOIN hospitals h ON d.hospital_id = h.hospital_id]. *)
Definition doctors_join_hospitals (d : Db) : list (Doctor * Hospital) :=
  flat_map (fun doc =>
    map (fun h => (doc, h))
        (filter (fun h => (d_hospital_id doc =? h_hospital_id h)%Z) (hospitals d)))
    (doctors d).

(** [FROM medicines m JOIN pharmacies p ON m.pharmacy_id = p.pharmacy_id]. *)
Definition medicines_join_pharmacies (d : Db) : list (Medicine * Pharmacy) :=
  flat_map (fun med =>
    map (fun p => (med, p))
        (filter (fun p => (m_pharmacy_id med =? p_pharmacy_id p)%Z) (pharmacies d)))
    (medicines d).

Definition doctor_row (r : Doctor * Hospital) : DoctorRow :=
  {| dr_doctor := fst r;
     dr_hospital_name := h_hospital_name (snd r);
     dr_address := h_address (snd r);
     dr_city := h_city (snd r);
     dr_hospital_phone := h_phone (snd r) |}.

Definition medicine_row (r : Medicine * Pharmacy) : MedicineRow :=
  {| mr_medicine := fst r;
     mr_pharmacy_name := p_pharmacy_name (snd r);
     mr_address := p_address (snd r);
     mr_city := p_city (snd r);
     mr_pharmacy_phone := p_phone (snd r) |}.

(** Replacing one table of the database. *)
Definition with_users (t : list User) (seq : Z) (d : Db) : Db :=
  {| users := t; hospitals := hospitals d; pharmacies := pharmacies d;
     doctors := doctors d; medicines := medicines d;
     users_seq := seq; hospitals_seq := hospitals_seq d;
     pharmacies_seq := pharmacies_seq d |}.

Definition with_hospitals (t : list Hospital) (seq : Z) (d : Db) : Db :=
  {| users := users d; hospitals := t; pharmacies := pharmacies d;
     doctors := doctors d; medicines := medicines d;
     users_seq := users_seq d; hospitals_seq := seq;
     pharmacies_seq := pharmacies_seq d |}.

Definition with_pharmacies (t : list Pharmacy) (seq : Z) (d : Db) : Db :=
  {| users := users d; hospitals := hospitals d; pharmacies := t;
     doctors := doctors d; medicines := medicines d;
     users_seq := users_seq d; hospitals_seq := hospitals_seq d;
     pharmacies_seq := seq |}.

Definition with_doctors (t : list Doctor) (d : Db) : Db :=
  {| users := users d; hospitals := hospitals d; pharmacies := pharmacies d;
     doctors := t; medicines := medicines d;
     users_seq := users_seq d; hospitals_seq := hospitals_seq d;
     pharmacies_seq := pharmacies_seq d |}.

Definition with_medicines (t : list Medicine) (d : Db) : Db :=
  {| users := users d; hospitals := hospitals d; pharmacies := pharmacies d;
     doctors := doctors d; medicines := t;
     users_seq := users_seq d; hospitals_seq := hospitals_seq d;
     pharmacies_seq := pharmacies_seq d |}.

(** [req.headers.authorization?.split(' ')[1]]: the second of the pieces
    the spaces cut the header into, [undefined] without a header or without
    a second piece. *)
Definition bearer_token (authorization : option string) : option string :=
  match authorization with
  | None => None
  | Some header => nth_error (Js.split " " header) 1
  end.

(** The outcome of the access guard: a response, or [next()] with
    [req.user] set. *)
Inductive Guard : Type :=
| Denied (code : nat) (msg : string)
| Next (user : Claims).

(** The statement texts that are template literals spanning lines. *)
Definition doctors_select : string := "
      SELECT d.*, h.hospital_name, h.address, h.city, h.phone as hospital_phone
      FROM doctors d
      JOIN hospitals h ON d.hospital_id = h.hospital_id
      WHERE d.is_available = true AND h.is_active = true
    ".
Definition medicines_select : string := "
      SELECT m.*, p.pharmacy_name, p.address, p.city, p.phone as pharmacy_phone
      FROM medicines m
      JOIN pharmacies p ON m.pharmacy_id = p.pharmacy_id
      WHERE m.is_available = true AND m.stock_quantity > 0 AND p.is_active = true
    ".
Definition users_insert : string := "INSERT INTO users (full_name, email, password_hash, phone, address, city, state, pincode, date_of_birth, gender) 
       VALUES ($1, $2, $3, $4, $5, $6, $7, $8, $9, $10) RETURNING user_id, full_name, email".
Definition hospitals_insert : string := "INSERT INTO hospitals (hospital_name, email, password_hash, phone, address, city, state, pincode, registration_number, hospital_type) 
       VALUES ($1, $2, $3, $4, $5, $6, $7, $8, $9, $10) RETURNING hospital_id, hospital_name, email".
Definition pharmacies_insert : string := "INSERT INTO pharmacies (pharmacy_name, email, password_hash, phone, address, city, state, pincode, license_number, operating_hours) 
       VALUES ($1, $2, $3, $4, $5, $6, $7, $8, $9, $10) RETURNING pharmacy_id, pharmacy_name, email".

(* ================================================================== *)
(** * The middleware and the controllers                               *)
(* ================================================================== *)

Section Handlers.

Context {jwt : JwtLib} {bcrypt : Bcrypt} {pg : Postgres} {collation : Sql.Collation}.
Variable env : Env.

Local Open Scope handler_scope.

(** ** middleware/auth.js *)

(** [authMiddleware(userType)] on a request whose Authorization header is
    [authorization], at time [now]. *)
Definition authMiddleware (required : option string)
    (authorization : option string) (now : Z) : Guard :=
  let token := bearer_token authorization in
  match Js.present token with
  | None => Denied 401 "Access denied. No token provided."
  | Some token =>
      match jwt_verify token (JWT_SECRET env) now with
      | Throw _ => Denied 401 "Invalid token."
      | Ok decoded =>
          match Js.present required with
          | Some role =>
              if negb (String.eqb (userType decoded) role)
              then Denied 403 "Access denied. Insufficient permissions."
              else Next decoded
          | None => Next decoded
          end
      end
  end.

(** [router.verb(path, authMiddleware(userType), handler)]: the handler runs
    with [req.user] when the guard calls [next()]. *)
Definition guarded {A} (required : option string)
    (handler : Claims -> World -> Response A * World)
    (authorization : option string) (now : Z) : World -> Response A * World :=
  match authMiddleware required authorization now with
  | Denied code msg => fun w => (failure code msg, w)
  | Next user => handler user
  end.

(** ** controllers/userController.js *)

Definition generateToken (id : Z) (userType : string) (now : Z) : string :=
  jwt_sign id userType (JWT_SECRET env) (JWT_EXPIRE env) now.

(** [await bcrypt.hash(password, salt)]: it rejects data that is not a
    string. *)
Definition hash_password (password : value) (salt : string) : M string :=
  match password with
  | VText pw => ret (bcrypt_hash pw salt)
  | _ => throw "data must be a string"
  end.

(** [await bcrypt.compare(password, hash)]: it rejects arguments that are
    not strings. *)
Definition compare_password (password : value) (hash : option string) : M bool :=
  match password, hash with
  | VText pw, Some h => ret (bcrypt_compare pw h)
  | _, _ => throw "data and hash must be strings"
  end.

Definition user_account (u : User) : Account :=
  {| account_id := u_user_id u; account_name := u_full_name u; account_email := u_email u |}.

Definition hospital_account (h : Hospital) : Account :=
  {| account_id := h_hospital_id h; account_name := h_hospital_name h; account_email := h_email h |}.

Definition pharmacy_account (p : Pharmacy) : Account :=
  {| account_id := p_pharmacy_id p; account_name := p_pharmacy_name p; account_email := p_email p |}.

(** [SELECT * FROM users WHERE email = $1]. *)
Definition users_by_email (email : value) (d : Db) : list User :=
  filter (fun u => Sql.is_true (text_equals (u_email u) email)) (users d).

(** [INSERT INTO users (...) VALUES ($1, ..., $10) RETURNING user_id,
    full_name, email]: the key comes from the sequence. *)
Definition insert_user (full_name email password_hash phone address city state
    pincode date_of_birth gender : value) (d : Db) : result (list Account * Db) :=
  let user_id := (users_seq d + 1)%Z in
  let row :=
    {| u_user_id := user_id;
       u_full_name := as_text full_name;
       u_email := as_text email;
       u_password_hash := as_text password_hash;
       u_phone := as_text phone;
       u_address := as_text address;
       u_city := as_text city;
       u_state := as_text state;
       u_pincode := as_text pincode;
       u_date_of_birth := as_text date_of_birth;
       u_gender := as_text gender |} in
  Ok ([user_account row], with_users (users d ++ [row])%list user_id d).

(** [registerUser], [salt] being what [bcrypt.genSalt(10)] draws.  The
    handler is given as it runs when it is served alone, with no statement
    of another request between its SELECT and its INSERT;
    [registerUser_awaited] cuts it at the awaits in between. *)
Definition registerUser (body : Body) (salt : string) (now : Z)
  : World -> Response (Account * string) * World :=
  try_catch (
    let full_name := get "full_name" body in
    let email := get "email" body in
    let password := get "password" body in
    let phone := get "phone" body in
    let address := get "address" body in
    let city := get "city" body in
    let state := get "state" body in
    let pincode := get "pincode" body in
    let date_of_birth := get "date_of_birth" body in
    let gender := get "gender" body in
    userExists <- pool_query "SELECT * FROM users WHERE email = $1" [email]
                    (reading (users_by_email email)) ;;
    if (0 <? List.length userExists)%nat then ret (failure 400 "User already exists")
    else
      password_hash <- hash_password password salt ;;
      result <- pool_query users_insert
                  [full_name; email; VText password_hash; phone; address; city;
                   state; pincode; date_of_birth; gender]
                  (insert_user full_name email (VText password_hash) phone address
                     city state pincode date_of_birth gender) ;;
      match result with
      | [] => throw "Cannot read properties of undefined"
      | user :: _ =>
          let token := generateToken (account_id user) "user" now in
          ret {| status := 201; success := true;
                 message := Some "User registered successfully";
                 count := None; data := Some (user, token) |}
      end).

Definition loginUser (body : Body) (now : Z)
  : World -> Response (Account * string) * World :=
  try_catch (
    let email := get "email" body in
    let password := get "password" body in
    result <- pool_query "SELECT * FROM users WHERE email = $1" [email]
                (reading (users_by_email email)) ;;
    match result with
    | [] => ret (failure 401 "Invalid credentials")
    | user :: _ =>
        isMatch <- compare_password password (u_password_hash user) ;;
        if negb isMatch then ret (failure 401 "Invalid credentials")
        else
          let token := generateToken (u_user_id user) "user" now in
          ret {| status := 200; success := true;
                 message := Some "Login successful";
                 count := None; data := Some (user_account user, token) |}
    end).

(** The WHERE clause of the doctor search and what it binds. *)
Definition searchDoctors_select (query : Params) : Select (Doctor * Hospital) :=
  let specialization := prop "specialization" query in
  let city := prop "city" query in
  let hospital_name := prop "hospital_name" query in
  let q0 :=
    {| text := doctors_select; params := []; paramCount := 1;
       condition := fun r =>
         Sql.and3 (Sql.eq_true (d_is_available (fst r)))
                  (Sql.eq_true (h_is_active (snd r))) |} in
  let q1 := and_where specialization
              (fun k => " AND d.specialization ILIKE $" ++ Js.show k)
              (fun pattern r => Sql.ilike (d_specialization (fst r)) pattern) q0 in
  let q2 := and_where city
              (fun k => " AND h.city ILIKE $" ++ Js.show k)
              (fun pattern r => Sql.ilike (h_city (snd r)) pattern) q1 in
  let q3 := and_where hospital_name
              (fun k => " AND h.hospital_name ILIKE $" ++ Js.show k)
              (fun pattern r => Sql.ilike (h_hospital_name (snd r)) pattern) q2 in
  q3.

Definition searchDoctors (query : Params) : World -> Response (list DoctorRow) * World :=
  try_catch (
    let q := searchDoctors_select query in
    result <- pool_query (text q ++ " ORDER BY d.full_name") (params q)
                (reading (fun d =>
                   map doctor_row
                     (Sql.order_by (fun r => d_full_name (fst r))
                        (filter (fun r => Sql.is_true (condition q r))
                           (doctors_join_hospitals d))))) ;;
    ret {| status := 200; success := true; message := None;
           count := Some (List.length result); data := Some result |}).

(** The WHERE clause of the medicine search and what it binds. *)
Definition searchMedicines_select (query : Params) : Select (Medicine * Pharmacy) :=
  let medicine_name := prop "medicine_name" query in
  let city := prop "city" query in
  let category := prop "category" query in
  let q0 :=
    {| text := medicines_select; params := []; paramCount := 1;
       condition := fun r =>
         Sql.and3 (Sql.and3 (Sql.eq_true (m_is_available (fst r)))
                            (Sql.gt_zero (m_stock_quantity (fst r))))
                  (Sql.eq_true (p_is_active (snd r))) |} in
  let q1 := and_where medicine_name
              (fun k => " AND (m.medicine_name ILIKE $" ++ Js.show k
                        ++ " OR m.generic_name ILIKE $" ++ Js.show k ++ ")")
              (fun pattern r =>
                 Sql.or3 (Sql.ilike (m_medicine_name (fst r)) pattern)
                         (Sql.ilike (m_generic_name (fst r)) pattern)) q0 in
  let q2 := and_where city
              (fun k => " AND p.city ILIKE $" ++ Js.show k)
              (fun pattern r => Sql.ilike (p_city (snd r)) pattern) q1 in
  let q3 := and_where category
              (fun k => " AND m.category ILIKE $" ++ Js.show k)
              (fun pattern r => Sql.ilike (m_category (fst r)) pattern) q2 in
  q3.

Definition searchMedicines (query : Params) : World -> Response (list MedicineRow) * World :=
  try_catch (
    let q := searchMedicines_select query in
    result <- pool_query (text q ++ " ORDER BY m.medicine_name") (params q)
                (reading (fun d =>
                   map medicine_row
                     (Sql.order_by (fun r => m_medicine_name (fst r))
                        (filter (fun r => Sql.is_true (condition q r))
                           (medicines_join_pharmacies d))))) ;;
    ret {| status := 200; success := true; message := None;
           count := Some (List.length result); data := Some result |}).

(** ** controllers/hospitalController.js *)

(** [SELECT * FROM hospitals WHERE email = $1]. *)
Definition hospitals_by_email (email : value) (d : Db) : list Hospital :=
  filter (fun h => Sql.is_true (text_equals (h_email h) email)) (hospitals d).

(** [INSERT INTO hospitals (...) VALUES ($1, ..., $10) RETURNING
    hospital_id, hospital_name, email]; [is_active], which the statement
    does not name, takes the schema's default. *)
Definition insert_hospital (hospital_name email password_hash phone address city
    state pincode registration_number hospital_type : value) (d : Db)
  : result (list Account * Db) :=
  let hospital_id := (hospitals_seq d + 1)%Z in
  let row :=
    {| h_hospital_id := hospital_id;
       h_hospital_name := as_text hospital_name;
       h_email := as_text email;
       h_password_hash := as_text password_hash;
       h_phone := as_text phone;
       h_address := as_text address;
       h_city := as_text city;
       h_state := as_text state;
       h_pincode := as_text pincode;
       h_registration_number := as_text registration_number;
       h_hospital_type := as_text hospital_type;
       h_is_active := pg_default_is_active |} in
  Ok ([hospital_account row], with_hospitals (hospitals d ++ [row])%list hospital_id d).

Definition hospitalRegister (body : Body) (salt : string) (now : Z)
  : World -> Response (Account * string) * World :=
  try_catch (
    let hospital_name := get "hospital_name" body in
    let email := get "email" body in
    let password := get "password" body in
    let phone := get "phone" body in
    let address := get "address" body in
    let city := get "city" body in
    let state := get "state" body in
    let pincode := get "pincode" body in
    let registration_number := get "registration_number" body in
    let hospital_type := get "hospital_type" body in
    hospitalExists <- pool_query "SELECT * FROM hospitals WHERE email = $1" [email]
                        (reading (hospitals_by_email email)) ;;
    if (0 <? List.length hospitalExists)%nat then ret (failure 400 "Hospital already exists")
    else
      password_hash <- hash_password password salt ;;
      result <- pool_query hospitals_insert
                  [hospital_name; email; VText password_hash; phone; address; city;
                   state; pincode; registration_number; hospital_type]
                  (insert_hospital hospital_name email (VText password_hash) phone
                     address city state pincode registration_number hospital_type) ;;
      match result with
      | [] => throw "Cannot read properties of undefined"
      | hospital :: _ =>
          let token := generateToken (account_id hospital) "hospital" now in
          ret {| status := 201; success := true;
                 message := Some "Hospital registered successfully";
                 count := None; data := Some (hospital, token) |}
      end).

Definition hospitalLogin (body : Body) (now : Z)
  : World -> Response (Account * string) * World :=
  try_catch (
    let email := get "email" body in
    let password := get "password" body in
    result <- pool_query "SELECT * FROM hospitals WHERE email = $1" [email]
                (reading (hospitals_by_email email)) ;;
    match result with
    | [] => ret (failure 401 "Invalid credentials")
    | hospital :: _ =>
        isMatch <- compare_password password (h_password_hash hospital) ;;
        if negb isMatch then ret (failure 401 "Invalid credentials")
        else
          let token := generateToken (h_hospital_id hospital) "hospital" now in
          ret {| status := 200; success := true;
                 message := Some "Login successful";
                 count := None; data := Some (hospital_account hospital, token) |}
    end).

(** ** controllers/pharmacyController.js *)

(** [SELECT * FROM pharmacies WHERE email = $1]. *)
Definition pharmacies_by_email (email : value) (d : Db) : list Pharmacy :=
  filter (fun p => Sql.is_true (text_equals (p_email p) email)) (pharmacies d).

(** [INSERT INTO pharmacies (...) VALUES ($1, ..., $10) RETURNING
    pharmacy_id, pharmacy_name, email]. *)
Definition insert_pharmacy (pharmacy_name email password_hash phone address city
    state pincode license_number operating_hours : value) (d : Db)
  : result (list Account * Db) :=
  let pharmacy_id := (pharmacies_seq d + 1)%Z in
  let row :=
    {| p_pharmacy_id := pharmacy_id;
       p_pharmacy_name := as_text pharmacy_name;
       p_email := as_text email;
       p_password_hash := as_text password_hash;
       p_phone := as_text phone;
       p_address := as_text address;
       p_city := as_text city;
       p_state := as_text state;
       p_pincode := as_text pincode;
       p_license_number := as_text license_number;
       p_operating_hours := as_text operating_hours;
       p_is_active := pg_default_is_active |} in
  Ok ([pharmacy_account row], with_pharmacies (pharmacies d ++ [row])%list pharmacy_id d).

Definition pharmacyRegister (body : Body) (salt : string) (now : Z)
  : World -> Response (Account * string) * World :=
  try_catch (
    let pharmacy_name := get "pharmacy_name" body in
    let email := get "email" body in
    let password := get "password" body in
    let phone := get "phone" body in
    let address := get "address" body in
    let city := get "city" body in
    let state := get "state" body in
    let pincode := get "pincode" body in
    let license_number := get "license_number" body in
    let operating_hours := get "operating_hours" body in
    pharmacyExists <- pool_query "SELECT * FROM pharmacies WHERE email = $1" [email]
                        (reading (pharmacies_by_email email)) ;;
    if (0 <? List.length pharmacyExists)%nat then ret (failure 400 "Pharmacy already exists")
    else
      password_hash <- hash_password password salt ;;
      result <- pool_query pharmacies_insert
                  [pharmacy_name; email; VText password_hash; phone; address; city;
                   state; pincode; license_number; operating_hours]
                  (insert_pharmacy pharmacy_name email (VText password_hash) phone
                     address city state pincode license_number operating_hours) ;;
      match result with
      | [] => throw "Cannot read properties of undefined"
      | pharmacy :: _ =>
          let token := generateToken (account_id pharmacy) "pharmacy" now in
          ret {| status := 201; success := true;
                 message := Some "Pharmacy registered successfully";
                 count := None; data := Some (pharmacy, token) |}
      end).

Definition pharmacyLogin (body : Body) (now : Z)
  : World -> Response (Account * string) * World :=
  try_catch (
    let email := get "email" body in
    let password := get "password" body in
    result <- pool_query "SELECT * FROM pharmacies WHERE email = $1" [email]
                (reading (pharmacies_by_email email)) ;;
    match result with
    | [] => ret (failure 401 "Invalid credentials")
    | pharmacy :: _ =>
        isMatch <- compare_password password (p_password_hash pharmacy) ;;
        if negb isMatch then ret (failure 401 "Invalid credentials")
        else
          let token := generateToken (p_pharmacy_id pharmacy) "pharmacy" now in
          ret {| status := 200; success := true;
                 message := Some "Login successful";
                 count := None; data := Some (pharmacy_account pharmacy, token) |}
    end).

(** ** controllers/doctorController.js *)

(** [doctor_id = $1 AND hospital_id = $2] on a row, for the key the column's
    type reads from the text bound to [$1]. *)
Definition doctor_matches (key hospital_id : Z) (d : Doctor) : bool :=
  (d_doctor_id d =? key)%Z && (d_hospital_id d =? hospital_id)%Z.

(** [SELECT * FROM doctors WHERE doctor_id = $1 AND hospital_id = $2] with
    the [:doctor_id] segment of the path bound to [$1] as the string it is:
    the statement raises when the key type rejects the text. *)
Definition select_doctors (doctor_id : string) (hospital_id : Z) (d : Db)
  : result (list Doctor * Db) :=
  match pg_key_in doctor_id with
  | Some key => Ok (filter (doctor_matches key hospital_id) (doctors d), d)
  | None => Throw "invalid input syntax for type integer"
  end.

(** [fields.map((field, index) => `${field} = $${index + 1}`).join(', ')]. *)
Definition setClause_of (fields : list string) : string :=
  Js.join ", " (Js.mapi (fun field index => field ++ " = $" ++ Js.show (index + 1)) fields).

(** The UPDATE of [updateDoctor] as PostgreSQL runs it: a SET keyword
    followed at once by WHERE is a syntax error (the grammar asks for at
    least one assignment); any other text is the engine's to interpret. *)
Definition update_doctors (text : string) (params : list value) (d : Db)
  : result (list Doctor * Db) :=
  if String.prefix "UPDATE doctors SET  WHERE" text
  then Throw "syntax error at or near WHERE"
  else match pg_update_doctors text params (doctors d) with
       | Ok (table, returning) => Ok (returning, with_doctors table d)
       | Throw e => Throw e
       end.

(** [DELETE FROM doctors WHERE doctor_id = $1 AND hospital_id = $2
    RETURNING *], the path segment bound to [$1]. *)
Definition delete_doctors (doctor_id : string) (hospital_id : Z) (d : Db)
  : result (list Doctor * Db) :=
  match pg_key_in doctor_id with
  | Some key =>
      Ok (filter (doctor_matches key hospital_id) (doctors d),
          with_doctors (filter (fun r => negb (doctor_matches key hospital_id r)) (doctors d)) d)
  | None => Throw "invalid input syntax for type integer"
  end.

(** [updateDoctor]: [doctor_id] is [req.params.doctor_id], the segment of
    the path as a string, [user] is [req.user], [updates] is [req.body]. *)
Definition updateDoctor (doctor_id : string) (user : Claims) (updates : Body)
  : World -> Response Doctor * World :=
  try_catch (
    let hospital_id := id user in
    checkDoctor <- pool_query "SELECT * FROM doctors WHERE doctor_id = $1 AND hospital_id = $2"
                     [VText doctor_id; VInt hospital_id]
                     (select_doctors doctor_id hospital_id) ;;
    if (List.length checkDoctor =? 0)%nat then ret (failure 404 "Doctor not found")
    else
      let fields := map fst updates in
      let values := map snd updates in
      let setClause := setClause_of fields in
      let statement :=
        "UPDATE doctors SET " ++ setClause
        ++ " WHERE doctor_id = $" ++ Js.show (List.length fields + 1)
        ++ " AND hospital_id = $" ++ Js.show (List.length fields + 2)
        ++ " RETURNING *" in
      let bound := (values ++ [VText doctor_id; VInt hospital_id])%list in
      result <- pool_query statement bound (update_doctors statement bound) ;;
      ret {| status := 200; success := true;
             message := Some "Doctor updated successfully";
             count := None; data := hd_error result |}).

(** [deleteDoctor]: [doctor_id] is [req.params.doctor_id]. *)
Definition deleteDoctor (doctor_id : string) (user : Claims)
  : World -> Response Doctor * World :=
  try_catch (
    let hospital_id := id user in
    result <- pool_query "DELETE FROM doctors WHERE doctor_id = $1 AND hospital_id = $2 RETURNING *"
                [VText doctor_id; VInt hospital_id]
                (delete_doctors doctor_id hospital_id) ;;
    if (List.length result =? 0)%nat then ret (failure 404 "Doctor not found")
    else
      ret {| status := 200; success := true;
             message := Some "Doctor deleted successfully";
             count := None; data := None |}).

(** ** controllers/medicineController.js *)

(** [medicine_id = $1 AND pharmacy_id = $2] on a row, for the key the
    column's type reads from the text bound to [$1]. *)
Definition medicine_matches (key pharmacy_id : Z) (m : Medicine) : bool :=
  (m_medicine_id m =? key)%Z && (m_pharmacy_id m =? pharmacy_id)%Z.

(** [SELECT * FROM medicines WHERE medicine_id = $1 AND pharmacy_id = $2]
    with the [:medicine_id] segment of the path bound to [$1]. *)
Definition select_medicines (medicine_id : string) (pharmacy_id : Z) (d : Db)
  : result (list Medicine * Db) :=
  match pg_key_in medicine_id with
  | Some key => Ok (filter (medicine_matches key pharmacy_id) (medicines d), d)
  | None => Throw "invalid input syntax for type integer"
  end.

(** The UPDATE of [updateMedicine] as PostgreSQL runs it. *)
Definition update_medicines (text : string) (params : list value) (d : Db)
  : result (list Medicine * Db) :=
  if String.prefix "UPDATE medicines SET  WHERE" text
  then Throw "syntax error at or near WHERE"
  else match pg_update_medicines text params (medicines d) with
       | Ok (table, returning) => Ok (returning, with_medicines table d)
       | Throw e => Throw e
       end.

(** [DELETE FROM medicines WHERE medicine_id = $1 AND pharmacy_id = $2
    RETURNING *], the path segment bound to [$1]. *)
Definition delete_medicines (medicine_id : string) (pharmacy_id : Z) (d : Db)
  : result (list Medicine * Db) :=
  match pg_key_in medicine_id with
  | Some key =>
      Ok (filter (medicine_matches key pharmacy_id) (medicines d),
          with_medicines (filter (fun r => negb (medicine_matches key pharmacy_id r)) (medicines d)) d)
  | None => Throw "invalid input syntax for type integer"
  end.

(** [updateMedicine]: [medicine_id] is [req.params.medicine_id], the
    segment of the path as a string. *)
Definition updateMedicine (medicine_id : string) (user : Claims) (updates : Body)
  : World -> Response Medicine * World :=
  try_catch (
    let pharmacy_id := id user in
    checkMedicine <- pool_query "SELECT * FROM medicines WHERE medicine_id = $1 AND pharmacy_id = $2"
                       [VText medicine_id; VInt pharmacy_id]
                       (select_medicines medicine_id pharmacy_id) ;;
    if (List.length checkMedicine =? 0)%nat then ret (failure 404 "Medicine not found")
    else
      let fields := map fst updates in
      let values := map snd updates in
      let setClause := setClause_of fields in
      let statement :=
        "UPDATE medicines SET " ++ setClause
        ++ " WHERE medicine_id = $" ++ Js.show (List.length fields + 1)
        ++ " AND pharmacy_id = $" ++ Js.show (List.length fields + 2)
        ++ " RETURNING *" in
      let bound := (values ++ [VText medicine_id; VInt pharmacy_id])%list in
      result <- pool_query statement bound (update_medicines statement bound) ;;
      ret {| status := 200; success := true;
             message := Some "Medicine updated successfully";
             count := None; data := hd_error result |}).

(** [deleteMedicine]: [medicine_id] is [req.params.medicine_id]. *)
Definition deleteMedicine (medicine_id : string) (user : Claims)
  : World -> Response Medicine * World :=
  try_catch (
    let pharmacy_id := id user in
    result <- pool_query "DELETE FROM medicines WHERE medicine_id = $1 AND pharmacy_id = $2 RETURNING *"
                [VText medicine_id; VInt pharmacy_id]
                (delete_medicines medicine_id pharmacy_id) ;;
    if (List.length result =? 0)%nat then ret (failure 404 "Medicine not found")
    else
      ret {| status := 200; success := true;
             message := Some "Medicine deleted successfully";
             count := None; data := None |}).

(** ** routes/hospitalRoutes.js and routes/pharmacyRoutes.js *)

(** [PUT /doctors/:doctor_id]. *)
Definition put_doctor (authorization : option string) (now : Z) (doctor_id : string)
    (body : Body) : World -> Response Doctor * World :=
  guarded (Some "hospital") (fun user => updateDoctor doctor_id user body) authorization now.

(** [DELETE /doctors/:doctor_id]. *)
Definition delete_doctor (authorization : option string) (now : Z) (doctor_id : string)
  : World -> Response Doctor * World :=
  guarded (Some "hospital") (fun user => deleteDoctor doctor_id user) authorization now.

(** [PUT /medicines/:medicine_id]. *)
Definition put_medicine (authorization : option string) (now : Z) (medicine_id : string)
    (body : Body) : World -> Response Medicine * World :=
  guarded (Some "pharmacy") (fun user => updateMedicine medicine_id user body) authorization now.

(** [DELETE /medicines/:medicine_id]. *)
Definition delete_medicine (authorization : option string) (now : Z) (medicine_id : string)
  : World -> Response Medicine * World :=
  guarded (Some "pharmacy") (fun user => deleteMedicine medicine_id user) authorization now.

End Handlers.

(* ================================================================== *)
(** * The rest of the doctor and medicine controllers                  *)
(* ================================================================== *)

(** What an INSERT into doctors or medicines takes from the schema, which
    is not part of the sources: the input functions of the column types
    that are not text ([None] when the text is rejected), the defaults of
    [is_available], which the statements do not name, and the constraints
    of the two tables (not-null, foreign key, checks) as a test on the new
    row. *)
Class Schema : Type := {
  pg_integer_in : string -> option Z;
  pg_numeric_in : string -> option value;
  pg_boolean_in : string -> option bool;
  doctors_default_is_available : option bool;
  medicines_default_is_available : option bool;
  doctors_constraints : Db -> Doctor -> bool;
  medicines_constraints : Db -> Medicine -> bool
}.

Definition result_bind {A B} (r : result A) (k : A -> result B) : result B :=
  match r with
  | Ok a => k a
  | Throw e => Throw e
  end.

(** A bound parameter read into a nullable column through the input
    function of the column's type. *)
Definition read_column {A} (input : string -> option A) (v : value) : result (option A) :=
  match as_text v with
  | None => Ok None
  | Some s =>
      match input s with
      | Some a => Ok (Some a)
      | None => Throw "invalid input syntax"
      end
  end.

(** The same for a column kept as a [value]. *)
Definition read_numeric `{Schema} (v : value) : result value :=
  result_bind (read_column pg_numeric_in v)
    (fun n => Ok match n with Some x => x | None => VNull end).

(** The INSERT statements of [addDoctor] and [addMedicine]. *)
Definition doctors_insert : string := "INSERT INTO doctors (hospital_id, full_name, specialization, qualification, experience_years, phone, email, 
       consultation_fee, available_days, available_time_from, available_time_to, room_number) 
       VALUES ($1, $2, $3, $4, $5, $6, $7, $8, $9, $10, $11, $12) RETURNING *".
Definition medicines_insert : string := "INSERT INTO medicines (pharmacy_id, medicine_name, generic_name, manufacturer, category, dosage_form, 
       strength, price, stock_quantity, expiry_date, requires_prescription, description) 
       VALUES ($1, $2, $3, $4, $5, $6, $7, $8, $9, $10, $11, $12) RETURNING *".

Section Inventory.

Context {schema : Schema} {collation : Sql.Collation}.

Local Open Scope handler_scope.

(** ** controllers/doctorController.js *)

(** [INSERT INTO doctors (hospital_id, full_name, ...) VALUES ($1, ...,
    $12) RETURNING *]; [doctor_id] is the key the sequence of the table
    draws, and dates and times are kept as their text. *)
Definition insert_doctor (doctor_id hospital_id : Z)
    (full_name specialization qualification experience_years phone email
     consultation_fee available_days available_time_from available_time_to
     room_number : value) (d : Db) : result (list Doctor * Db) :=
  result_bind (read_column pg_integer_in experience_years) (fun experience =>
  result_bind (read_numeric consultation_fee) (fun fee =>
    let row :=
      {| d_doctor_id := doctor_id;
         d_hospital_id := hospital_id;
         d_full_name := as_text full_name;
         d_specialization := as_text specialization;
         d_qualification := as_text qualification;
         d_experience_years := experience;
         d_phone := as_text phone;
         d_email := as_text email;
         d_consultation_fee := fee;
         d_available_days := as_text available_days;
         d_available_time_from := as_text available_time_from;
         d_available_time_to := as_text available_time_to;
         d_room_number := as_text room_number;
         d_is_available := doctors_default_is_available |} in
    if doctors_constraints d row
    then Ok ([row], with_doctors (doctors d ++ [row])%list d)
    else Throw "constraint violation")).

(** [addDoctor]: [user] is [req.user], [body] is [req.body]. *)
Definition addDoctor (user : Claims) (body : Body) (doctor_id : Z)
  : World -> Response Doctor * World :=
  try_catch (
    let full_name := get "full_name" body in
    let specialization := get "specialization" body in
    let qualification := get "qualification" body in
    let experience_years := get "experience_years" body in
    let phone := get "phone" body in
    let email := get "email" body in
    let consultation_fee := get "consultation_fee" body in
    let available_days := get "available_days" body in
    let available_time_from := get "available_time_from" body in
    let available_time_to := get "available_time_to" body in
    let room_number := get "room_number" body in
    let hospital_id := id user in
    result <- pool_query doctors_insert
                [VInt hospital_id; full_name; specialization; qualification;
                 experience_years; phone; email; consultation_fee; available_days;
                 available_time_from; available_time_to; room_number]
                (insert_doctor doctor_id hospital_id full_name specialization
                   qualification experience_years phone email consultation_fee
                   available_days available_time_from available_time_to room_number) ;;
    ret {| status := 201; success := true;
           message := Some "Doctor added successfully";
           count := None; data := hd_error result |}).

(** [getDoctorsByHospital]. *)
Definition getDoctorsByHospital (user : Claims)
  : World -> Response (list Doctor) * World :=
  try_catch (
    let hospital_id := id user in
    result <- pool_query "SELECT * FROM doctors WHERE hospital_id = $1 ORDER BY full_name"
                [VInt hospital_id]
                (reading (fun d =>
                   Sql.order_by d_full_name
                     (filter (fun r => (d_hospital_id r =? hospital_id)%Z) (doctors d)))) ;;
    ret {| status := 200; success := true; message := None;
           count := Some (List.length result); data := Some result |}).

(** ** controllers/medicineController.js *)

(** [INSERT INTO medicines (pharmacy_id, medicine_name, ...) VALUES ($1,
    ..., $12) RETURNING *]. *)
Definition insert_medicine (medicine_id pharmacy_id : Z)
    (medicine_name generic_name manufacturer category dosage_form strength price
     stock_quantity expiry_date requires_prescription description : value)
    (d : Db) : result (list Medicine * Db) :=
  result_bind (read_numeric price) (fun price' =>
  result_bind (read_column pg_integer_in stock_quantity) (fun stock =>
  result_bind (read_column pg_boolean_in requires_prescription) (fun prescription =>
    let row :=
      {| m_medicine_id := medicine_id;
         m_pharmacy_id := pharmacy_id;
         m_medicine_name := as_text medicine_name;
         m_generic_name := as_text generic_name;
         m_manufacturer := as_text manufacturer;
         m_category := as_text category;
         m_dosage_form := as_text dosage_form;
         m_strength := as_text strength;
         m_price := price';
         m_stock_quantity := stock;
         m_expiry_date := as_text expiry_date;
         m_requires_prescription := prescription;
         m_description := as_text description;
         m_is_available := medicines_default_is_available |} in
    if medicines_constraints d row
    then Ok ([row], with_medicines (medicines d ++ [row])%list d)
    else Throw "constraint violation"))).

Definition addMedicine (user : Claims) (body : Body) (medicine_id : Z)
  : World -> Response Medicine * World :=
  try_catch (
    let medicine_name := get "medicine_name" body in
    let generic_name := get "generic_name" body in
    let manufacturer := get "manufacturer" body in
    let category := get "category" body in
    let dosage_form := get "dosage_form" body in
    let strength := get "strength" body in
    let price := get "price" body in
    let stock_quantity := get "stock_quantity" body in
    let expiry_date := get "expiry_date" body in
    let requires_prescription := get "requires_prescription" body in
    let description := get "description" body in
    let pharmacy_id := id user in
    result <- pool_query medicines_insert
                [VInt pharmacy_id; medicine_name; generic_name; manufacturer; category;
                 dosage_form; strength; price; stock_quantity; expiry_date;
                 requires_prescription; description]
                (insert_medicine medicine_id pharmacy_id medicine_name generic_name
                   manufacturer category dosage_form strength price stock_quantity
                   expiry_date requires_prescription description) ;;
    ret {| status := 201; success := true;
           message := Some "Medicine added successfully";
           count := None; data := hd_error result |}).

Definition getMedicinesByPharmacy (user : Claims)
  : World -> Response (list Medicine) * World :=
  try_catch (
    let pharmacy_id := id user in
    result <- pool_query "SELECT * FROM medicines WHERE pharmacy_id = $1 ORDER BY medicine_name"
                [VInt pharmacy_id]
                (reading (fun d =>
                   Sql.order_by m_medicine_name
                     (filter (fun r => (m_pharmacy_id r =? pharmacy_id)%Z) (medicines d)))) ;;
    ret {| status := 200; success := true; message := None;
           count := Some (List.length result); data := Some result |}).

End Inventory.

Section InventoryRoutes.

Context {jwt : JwtLib} {schema : Schema}.
Variable env : Env.

(** [POST /doctors] of routes/hospitalRoutes.js, [key] being what the
    sequence of the table draws. *)
Definition post_doctor (authorization : option string) (now : Z) (body : Body)
    (key : Z) : World -> Response Doctor * World :=
  guarded env (Some "hospital") (fun user => addDoctor user body key) authorization now.

(** [POST /medicines] of routes/pharmacyRoutes.js. *)
Definition post_medicine (authorization : option string) (now : Z) (body : Body)
    (key : Z) : World -> Response Medicine * World :=
  guarded env (Some "pharmacy") (fun user => addMedicine user body key) authorization now.

End InventoryRoutes.


(* ================================================================== *)
(** * The properties the specification states, as predicates            *)
(* ================================================================== *)

(** A present filter [v] holds on a column under ILIKE with the pattern
    [%v%]; an absent (falsy) filter holds on every row. *)
Definition filter_holds (filter col : option string) : bool :=
  match Js.present filter with
  | None => true
  | Some v =>
      match col with
      | Some s => Sql.like (Sql.lower (Sql.wrap v)) (Sql.lower s)
      | None => false
      end
  end.

(** The same with the words of the specification: a present filter holds
    when it is a case-insensitive substring of the column. *)
Definition filter_holds_substring (filter col : option string) : Prop :=
  match Js.present filter with
  | None => True
  | Some v =>
      match col with
      | Some s => ci_substring v s
      | None => False
      end
  end.

(** The statement [updateDoctor] sends once the row is found. *)
Definition doctor_update_text (fields : list string) : string :=
  "UPDATE doctors SET " ++ setClause_of fields
  ++ " WHERE doctor_id = $" ++ Js.show (List.length fields + 1)
  ++ " AND hospital_id = $" ++ Js.show (List.length fields + 2)
  ++ " RETURNING *".

(** The statement [updateMedicine] sends once the row is found. *)
Definition medicine_update_text (fields : list string) : string :=
  "UPDATE medicines SET " ++ setClause_of fields
  ++ " WHERE medicine_id = $" ++ Js.show (List.length fields + 1)
  ++ " AND pharmacy_id = $" ++ Js.show (List.length fields + 2)
  ++ " RETURNING *".

(** The three kinds of account. *)
Inductive Role : Type := role_user | role_hospital | role_pharmacy.

(** The email and the stored hash of every record of a role's table, in
    the order of the table. *)
Definition credentials (role : Role) (d : Db) : list (option string * option string) :=
  match role with
  | role_user => map (fun u => (u_email u, u_password_hash u)) (users d)
  | role_hospital => map (fun h => (h_email h, h_password_hash h)) (hospitals d)
  | role_pharmacy => map (fun p => (p_email p, p_password_hash p)) (pharmacies d)
  end.

Definition emails (role : Role) (d : Db) : list (option string) :=
  map fst (credentials role d).

(** The record a login reads for an email: the first of the table that
    carries it. *)
Definition record_of (role : Role) (email : string) (d : Db)
  : option (option string * option string) :=
  find (fun c => match fst c with Some e => String.eqb e email | None => false end)
       (credentials role d).

Definition conflict_message (role : Role) : string :=
  match role with
  | role_user => "User already exists"
  | role_hospital => "Hospital already exists"
  | role_pharmacy => "Pharmacy already exists"
  end.

Section Roles.

Context {jwt : JwtLib} {bcrypt : Bcrypt} {pg : Postgres}.
Variable env : Env.

(** The register and the login operation of a role. *)
Definition register (role : Role)
  : Body -> string -> Z -> World -> Response (Account * string) * World :=
  match role with
  | role_user => registerUser env
  | role_hospital => hospitalRegister env
  | role_pharmacy => pharmacyRegister env
  end.

Definition login (role : Role)
  : Body -> Z -> World -> Response (Account * string) * World :=
  match role with
  | role_user => loginUser env
  | role_hospital => hospitalLogin env
  | role_pharmacy => pharmacyLogin env
  end.

End Roles.

(** The doctor search in the words of the specification: the row is
    available, its hospital active, and every present filter is a
    case-insensitive substring of its column. *)
Definition doctor_selected_by_substring (query : Params) (r : Doctor * Hospital) : Prop :=
  d_is_available (fst r) = Some true
  /\ h_is_active (snd r) = Some true
  /\ filter_holds_substring (prop "specialization" query) (d_specialization (fst r))
  /\ filter_holds_substring (prop "city" query) (h_city (snd r))
  /\ filter_holds_substring (prop "hospital_name" query) (h_hospital_name (snd r)).

(** The medicine search in the words of the specification. *)
Definition medicine_selected_by_substring (query : Params) (r : Medicine * Pharmacy) : Prop :=
  m_is_available (fst r) = Some true
  /\ (exists q, m_stock_quantity (fst r) = Some q /\ (0 < q)%Z)
  /\ p_is_active (snd r) = Some true
  /\ (filter_holds_substring (prop "medicine_name" query) (m_medicine_name (fst r))
      \/ filter_holds_substring (prop "medicine_name" query) (m_generic_name (fst r)))
  /\ filter_holds_substring (prop "city" query) (p_city (snd r))
  /\ filter_holds_substring (prop "category" query) (m_category (fst r)).

(** [small] is a strict subset of [large]. *)
Definition strictly_within {A} (small large : list A) : Prop :=
  incl small large /\ exists x, In x large /\ ~ In x small.

(** An available doctor of an active hospital. *)
Definition doctor_eligible (r : Doctor * Hospital) : bool :=
  match d_is_available (fst r), h_is_active (snd r) with
  | Some true, Some true => true
  | _, _ => false
  end.

(** The rows the doctor search selects under the filters of [query]. *)
Definition doctor_selected (query : Params) (r : Doctor * Hospital) : bool :=
  doctor_eligible r
  && filter_holds (prop "specialization" query) (d_specialization (fst r))
  && filter_holds (prop "city" query) (h_city (snd r))
  && filter_holds (prop "hospital_name" query) (h_hospital_name (snd r)).

(** An available medicine, in stock, of an active pharmacy. *)
Definition medicine_eligible (r : Medicine * Pharmacy) : bool :=
  match m_is_available (fst r), m_stock_quantity (fst r), p_is_active (snd r) with
  | Some true, Some q, Some true => (0 <? q)%Z
  | _, _, _ => false
  end.

(** The rows the medicine search selects under the filters of [query]. *)
Definition medicine_selected (query : Params) (r : Medicine * Pharmacy) : bool :=
  medicine_eligible r
  && (filter_holds (prop "medicine_name" query) (m_medicine_name (fst r))
      || filter_holds (prop "medicine_name" query) (m_generic_name (fst r)))
  && filter_holds (prop "city" query) (p_city (snd r))
  && filter_holds (prop "category" query) (m_category (fst r)).

(** [query'] has every filter of [query], and possibly more. *)
Definition extends (query' query : Params) : Prop :=
  forall key, Js.present (prop key query) = None \/ prop key query' = prop key query.

(** Ascending order of a result on a nullable name. *)
Definition ascending `{Sql.Collation} {A} (name : A -> option string) (rows : list A) : Prop :=
  StronglySorted (fun a b => Sql.key_leb (name a) (name b) = true) rows.

(** The rows the doctor search answers with. *)
Definition doctor_rows `{Sql.Collation} (query : Params) (d : Db) : list DoctorRow :=
  map doctor_row
    (Sql.order_by (fun r => d_full_name (fst r))
       (filter (doctor_selected query) (doctors_join_hospitals d))).

(** The rows the medicine search answers with. *)
Definition medicine_rows `{Sql.Collation} (query : Params) (d : Db) : list MedicineRow :=
  map medicine_row
    (Sql.order_by (fun r => m_medicine_name (fst r))
       (filter (medicine_selected query) (medicines_join_pharmacies d))).

(** The success response of a search. *)
Definition found {A} (rows : list A) : Response (list A) :=
  {| status := 200; success := true; message := None;
     count := Some (List.length rows); data := Some rows |}.

(* ================================================================== *)
(** * Notions for the further properties                               *)
(* ================================================================== *)

(** The [userType] the handlers of a role sign into their tokens. *)
Definition role_name (role : Role) : string :=
  match role with
  | role_user => "user"
  | role_hospital => "hospital"
  | role_pharmacy => "pharmacy"
  end.

(** The keys of a role's table, and the last value its sequence gave. *)
Definition keys (role : Role) (d : Db) : list Z :=
  match role with
  | role_user => map u_user_id (users d)
  | role_hospital => map h_hospital_id (hospitals d)
  | role_pharmacy => map p_pharmacy_id (pharmacies d)
  end.

Definition last_key (role : Role) (d : Db) : Z :=
  match role with
  | role_user => users_seq d
  | role_hospital => hospitals_seq d
  | role_pharmacy => pharmacies_seq d
  end.

(** No key occurs twice, and the sequence has reached every key. *)
Definition keys_fresh (role : Role) (d : Db) : Prop :=
  NoDup (keys role d) /\ forall k, In k (keys role d) -> (k <= last_key role d)%Z.

(** The emails of a role's table that are not NULL. *)
Definition known_emails (role : Role) (d : Db) : list string :=
  flat_map (fun e => match e with Some x => [x] | None => [] end) (emails role d).

Definition emails_unique (role : Role) (d : Db) : Prop := NoDup (known_emails role d).

(** The records a login's SELECT returns, as the account and the stored
    hash of each. *)
Definition found_accounts (role : Role) (email : value) (d : Db)
  : list (Account * option string) :=
  match role with
  | role_user =>
      map (fun u => (user_account u, u_password_hash u)) (users_by_email email d)
  | role_hospital =>
      map (fun h => (hospital_account h, h_password_hash h)) (hospitals_by_email email d)
  | role_pharmacy =>
      map (fun p => (pharmacy_account p, p_password_hash p)) (pharmacies_by_email email d)
  end.

Definition login_select (role : Role) : string :=
  match role with
  | role_user => "SELECT * FROM users WHERE email = $1"
  | role_hospital => "SELECT * FROM hospitals WHERE email = $1"
  | role_pharmacy => "SELECT * FROM pharmacies WHERE email = $1"
  end.

(** What the three login handlers do with the records found, the role
    apart. *)
Definition login_outcome `{JwtLib} `{Bcrypt} (env : Env) (role : Role) (now : Z)
    (password : value) (found : list (Account * option string))
  : Response (Account * string) :=
  match found with
  | [] => failure 401 "Invalid credentials"
  | (account, hash) :: _ =>
      match password, hash with
      | VText pw, Some h =>
          if bcrypt_compare pw h
          then {| status := 200; success := true; message := Some "Login successful";
                  count := None;
                  data := Some (account,
                                generateToken env (account_id account) (role_name role) now) |}
          else failure 401 "Invalid credentials"
      | _, _ => failure 500 "Server error"
      end
  end.

(** [d'] is [d] but for its doctors, or but for its medicines. *)
Definition same_but_doctors (d d' : Db) : Prop := d' = with_doctors (doctors d') d.

Definition same_but_medicines (d d' : Db) : Prop := d' = with_medicines (medicines d') d.

(** The values of the present filters among [names], in that order. *)
Definition present_values (names : list string) (query : Params) : list string :=
  flat_map (fun k => match Js.present (prop k query) with
                     | Some v => [v]
                     | None => []
                     end) names.

(** Two queries whose filters differ in the case of letters only. *)
Definition same_up_to_case (query query' : Params) : Prop :=
  forall key, option_map Sql.lower (prop key query) = option_map Sql.lower (prop key query').

(* ================================================================== *)
(** * The register handlers at their awaits                            *)
(* ================================================================== *)

(** A register handler awaits [bcrypt.genSalt] and [bcrypt.hash] between
    its SELECT and its INSERT, and the statements of another request can
    run in between.  A handler cut there is what runs up to the SELECT, and
    what runs from there on, given the rows the SELECT found. *)
Record Awaited (R A : Type) : Type := {
  until_await : M R;
  after_await : R -> M (Response A)
}.
Arguments until_await {R A} _.
Arguments after_await {R A} _.

(** The rest of a handler once its SELECT has settled, the [catch]
    included. *)
Definition resume {R A} (h : Awaited R A) (selected : result R)
  : World -> Response A * World :=
  match selected with
  | Ok rows => try_catch (after_await h rows)
  | Throw _ => fun w => (failure 500 "Server error", w)
  end.

(** A request served alone. *)
Definition served_alone {R A} (h : Awaited R A) : World -> Response A * World :=
  fun w =>
    let (selected, w1) := until_await h w in
    resume h selected w1.

(** Two requests that overlap: the second arrives while the first awaits,
    so that both SELECTs run before either INSERT. *)
Definition served_overlapping {R A} (first second : Awaited R A)
  : World -> (Response A * Response A) * World :=
  fun w =>
    let (selected1, w1) := until_await first w in
    let (selected2, w2) := until_await second w1 in
    let (response1, w3) := resume first selected1 w2 in
    let (response2, w4) := resume second selected2 w3 in
    ((response1, response2), w4).

Section Awaits.

Context {jwt : JwtLib} {bcrypt : Bcrypt} {pg : Postgres}.
Variable env : Env.

Local Open Scope handler_scope.

(** [registerUser], cut after [pool.query('SELECT * FROM users WHERE email
    = $1', [email])]. *)
Definition registerUser_awaited (body : Body) (salt : string) (now : Z)
  : Awaited (list User) (Account * string) :=
  let full_name := get "full_name" body in
  let email := get "email" body in
  let password := get "password" body in
  let phone := get "phone" body in
  let address := get "address" body in
  let city := get "city" body in
  let state := get "state" body in
  let pincode := get "pincode" body in
  let date_of_birth := get "date_of_birth" body in
  let gender := get "gender" body in
  {| until_await :=
       pool_query "SELECT * FROM users WHERE email = $1" [email]
         (reading (users_by_email email));
     after_await := fun userExists =>
       if (0 <? List.length userExists)%nat then ret (failure 400 "User already exists")
       else
         password_hash <- hash_password password salt ;;
         result <- pool_query users_insert
                     [full_name; email; VText password_hash; phone; address; city;
                      state; pincode; date_of_birth; gender]
                     (insert_user full_name email (VText password_hash) phone address
                        city state pincode date_of_birth gender) ;;
         match result with
         | [] => throw "Cannot read properties of undefined"
         | user :: _ =>
             let token := generateToken env (account_id user) "user" now in
             ret {| status := 201; success := true;
                    message := Some "User registered successfully";
                    count := None; data := Some (user, token) |}
         end |}.

(** [hospitalRegister], cut after its SELECT. *)
Definition hospitalRegister_awaited (body : Body) (salt : string) (now : Z)
  : Awaited (list Hospital) (Account * string) :=
  let hospital_name := get "hospital_name" body in
  let email := get "email" body in
  let password := get "password" body in
  let phone := get "phone" body in
  let address := get "address" body in
  let city := get "city" body in
  let state := get "state" body in
  let pincode := get "pincode" body in
  let registration_number := get "registration_number" body in
  let hospital_type := get "hospital_type" body in
  {| until_await :=
       pool_query "SELECT * FROM hospitals WHERE email = $1" [email]
         (reading (hospitals_by_email email));
     after_await := fun hospitalExists =>
       if (0 <? List.length hospitalExists)%nat
       then ret (failure 400 "Hospital already exists")
       else
         password_hash <- hash_password password salt ;;
         result <- pool_query hospitals_insert
                     [hospital_name; email; VText password_hash; phone; address; city;
                      state; pincode; registration_number; hospital_type]
                     (insert_hospital hospital_name email (VText password_hash) phone
                        address city state pincode registration_number hospital_type) ;;
         match result with
         | [] => throw "Cannot read properties of undefined"
         | hospital :: _ =>
             let token := generateToken env (account_id hospital) "hospital" now in
             ret {| status := 201; success := true;
                    message := Some "Hospital registered successfully";
                    count := None; data := Some (hospital, token) |}
         end |}.

(** [pharmacyRegister], cut after its SELECT. *)
Definition pharmacyRegister_awaited (body : Body) (salt : string) (now : Z)
  : Awaited (list Pharmacy) (Account * string) :=
  let pharmacy_name := get "pharmacy_name" body in
  let email := get "email" body in
  let password := get "password" body in
  let phone := get "phone" body in
  let address := get "address" body in
  let city := get "city" body in
  let state := get "state" body in
  let pincode := get "pincode" body in
  let license_number := get "license_number" body in
  let operating_hours := get "operating_hours" body in
  {| until_await :=
       pool_query "SELECT * FROM pharmacies WHERE email = $1" [email]
         (reading (pharmacies_by_email email));
     after_await := fun pharmacyExists =>
       if (0 <? List.length pharmacyExists)%nat
       then ret (failure 400 "Pharmacy already exists")
       else
         password_hash <- hash_password password salt ;;
         result <- pool_query pharmacies_insert
                     [pharmacy_name; email; VText password_hash; phone; address; city;
                      state; pincode; license_number; operating_hours]
                     (insert_pharmacy pharmacy_name email (VText password_hash) phone
                        address city state pincode license_number operating_hours) ;;
         match result with
         | [] => throw "Cannot read properties of undefined"
         | pharmacy :: _ =>
             let token := generateToken env (account_id pharmacy) "pharmacy" now in
             ret {| status := 201; success := true;
                    message := Some "Pharmacy registered successfully";
                    count := None; data := Some (pharmacy, token) |}
         end |}.

(** The register operation of a role, served alone, and two of them
    overlapping. *)
Definition register_alone (role : Role) (body : Body) (salt : string) (now : Z)
  : World -> Response (Account * string) * World :=
  match role with
  | role_user => served_alone (registerUser_awaited body salt now)
  | role_hospital => served_alone (hospitalRegister_awaited body salt now)
  | role_pharmacy => served_alone (pharmacyRegister_awaited body salt now)
  end.

Definition register_overlapping (role : Role)
    (body : Body) (salt : string) (now : Z) (body' : Body) (salt' : string) (now' : Z)
  : World -> (Response (Account * string) * Response (Account * string)) * World :=
  match role with
  | role_user =>
      served_overlapping (registerUser_awaited body salt now)
        (registerUser_awaited body' salt' now')
  | role_hospital =>
      served_overlapping (hospitalRegister_awaited body salt now)
        (hospitalRegister_awaited body' salt' now')
  | role_pharmacy =>
      served_overlapping (pharmacyRegister_awaited body salt now)
        (pharmacyRegister_awaited body' salt' now')
  end.

End Awaits.

(* ================================================================== *)
(** * Instances to run the handlers on                                 *)
(* ================================================================== *)

(** Byte-wise comparison of strings (the C collation). *)
Fixpoint bytewise_leb (a b : string) : bool :=
  match a, b with
  | EmptyString, _ => true
  | String _ _, EmptyString => false
  | String x a', String y b' =>
      ((nat_of_ascii x <? nat_of_ascii y)
       || ((nat_of_ascii x =? nat_of_ascii y) && bytewise_leb a' b'))%nat
  end.

(** The C collation. *)
#[local] Instance bytewise : Sql.Collation.
Proof.
  refine {| Sql.text_leb := bytewise_leb |}.
  - intros a b.
    revert b. induction a as [|x a IH]; intros b; [now left|].
    destruct b as [|y b]; [now right|]. simpl.
    destruct (Nat.lt_trichotomy (nat_of_ascii x) (nat_of_ascii y)) as [H|[H|H]].
    + left. apply Nat.ltb_lt in H. now rewrite H.
    + rewrite H, Nat.ltb_irrefl, Nat.eqb_refl. simpl. apply IH.
    + right. apply Nat.ltb_lt in H. now rewrite H.
  - intros a b c.
    revert b c. induction a as [|x a IH]; intros b c; [reflexivity|].
    destruct b as [|y b]; [discriminate|].
    destruct c as [|z c]; [now simpl|]. simpl.
    rewrite !orb_true_iff, !andb_true_iff, !Nat.ltb_lt, !Nat.eqb_eq.
    intros [Hxy|[Hxy Hab]] [Hyz|[Hyz Hbc]].
    + left. lia.
    + left. lia.
    + left. lia.
    + right. split; [lia | now apply (IH b c)].
Defined.

Definition hospital_7 : Claims :=
  {| id := 7; userType := "hospital"; iat := 0; exp := Some 100%Z |}.

Definition pharmacy_3 : Claims :=
  {| id := 3; userType := "pharmacy"; iat := 0; exp := Some 100%Z |}.

(** A token library for examples: three tokens of the form [role.id] are
    well formed, the first two expire at time 100, and a token counts as
    signed when the secret is [key]. *)
Definition example_decode (token : string) : option Claims :=
  if String.eqb token "hospital.7" then Some hospital_7
  else if String.eqb token "pharmacy.3" then Some pharmacy_3
  else if String.eqb token "user.1"
  then Some {| id := 1; userType := "user"; iat := 0; exp := None |}
  else None.

#[local] Instance example_jwt : JwtLib.
Proof.
  refine {| jwt_sign := fun id userType _ _ _ =>
                          userType ++ "." ++ NilEmpty.string_of_int (Z.to_int id);
            jwt_decode := example_decode;
            jwt_signature_ok := fun secret _ => String.eqb secret "key" |}.
  intros token H. unfold example_decode in H.
  destruct (String.eqb_spec token "hospital.7") as [E|_];
    [rewrite E; split; [discriminate | reflexivity]|].
  destruct (String.eqb_spec token "pharmacy.3") as [E|_];
    [rewrite E; split; [discriminate | reflexivity]|].
  destruct (String.eqb_spec token "user.1") as [E|_];
    [rewrite E; split; [discriminate | reflexivity]|].
  now destruct H.
Defined.

(** A password library for examples: the hash of a password is a dollar
    sign followed by the password. *)
#[local] Instance example_bcrypt : Bcrypt := {|
  bcrypt_hash := fun password _ => "$" ++ password;
  bcrypt_compare := fun password hash => String.eqb hash ("$" ++ password)
|}.

(** A key type for examples: the text is read as a number when it is a
    non-empty row of decimal digits that does not exceed the largest
    four-byte integer, and is rejected otherwise. *)
Definition example_key_in (text : string) : option Z :=
  match NilZero.uint_of_string text with
  | Some digits =>
      let key := Z.of_uint digits in
      if (key <=? 2147483647)%Z then Some key else None
  | None => None
  end.

(** An engine for examples that leaves the rows of an UPDATE as they are. *)
#[local] Instance example_pg : Postgres := {|
  pg_update_doctors := fun _ _ rows => Ok (rows, rows);
  pg_update_medicines := fun _ _ rows => Ok (rows, rows);
  pg_default_is_active := Some true;
  pg_key_in := example_key_in
|}.

(** A schema for examples: the integer type reads the text [5] only,
    numerics are kept as their text, booleans read [true] and [false],
    every row is admissible, and new rows are available. *)
#[local] Instance example_schema : Schema := {|
  pg_integer_in := fun s => if String.eqb s "5" then Some 5%Z else None;
  pg_numeric_in := fun s => Some (VText s);
  pg_boolean_in := fun s => if String.eqb s "true" then Some true
                            else if String.eqb s "false" then Some false else None;
  doctors_default_is_available := Some true;
  medicines_default_is_available := Some true;
  doctors_constraints := fun _ _ => true;
  medicines_constraints := fun _ _ => true
|}.

Definition example_env : Env := {| JWT_SECRET := "key"; JWT_EXPIRE := "7d" |}.

Definition empty_db : Db :=
  {| users := []; hospitals := []; pharmacies := []; doctors := []; medicines := [];
     users_seq := 0; hospitals_seq := 0; pharmacies_seq := 0 |}.

(** Rows for examples: only the columns the claims are about are set. *)
Definition a_hospital (hospital_id : Z) (name email city : string) (active : bool) : Hospital :=
  {| h_hospital_id := hospital_id; h_hospital_name := Some name;
     h_email := Some email; h_password_hash := Some "$p1";
     h_phone := None; h_address := None; h_city := Some city; h_state := None;
     h_pincode := None; h_registration_number := None; h_hospital_type := None;
     h_is_active := Some active |}.

Definition a_doctor (doctor_id hospital_id : Z) (name specialization : string)
    (available : bool) : Doctor :=
  {| d_doctor_id := doctor_id; d_hospital_id := hospital_id; d_full_name := Some name;
     d_specialization := Some specialization; d_qualification := None;
     d_experience_years := None; d_phone := None; d_email := None;
     d_consultation_fee := VNull; d_available_days := None;
     d_available_time_from := None; d_available_time_to := None;
     d_room_number := None; d_is_available := Some available |}.

Definition a_pharmacy (pharmacy_id : Z) (name email city : string) (active : bool) : Pharmacy :=
  {| p_pharmacy_id := pharmacy_id; p_pharmacy_name := Some name;
     p_email := Some email; p_password_hash := Some "$p2";
     p_phone := None; p_address := None; p_city := Some city; p_state := None;
     p_pincode := None; p_license_number := None; p_operating_hours := None;
     p_is_active := Some active |}.

Definition a_medicine (medicine_id pharmacy_id : Z) (name generic category : string)
    (stock : Z) : Medicine :=
  {| m_medicine_id := medicine_id; m_pharmacy_id := pharmacy_id;
     m_medicine_name := Some name; m_generic_name := Some generic;
     m_manufacturer := None; m_category := Some category; m_dosage_form := None;
     m_strength := None; m_price := VNull; m_stock_quantity := Some stock;
     m_expiry_date := None; m_requires_prescription := None; m_description := None;
     m_is_available := Some true |}.

Definition city_hospital : Hospital := a_hospital 7 "City Hospital" "a@x.com" "Pune" true.
Definition lake_hospital : Hospital := a_hospital 8 "Lake Hospital" "l@x.com" "Mysuru" true.
Definition dr_a : Doctor := a_doctor 1 7 "Dr. A" "Cardiology" true.
Definition dr_b : Doctor := a_doctor 2 8 "Dr. B" "Neurology" true.
Definition corner_pharmacy : Pharmacy := a_pharmacy 3 "Corner Pharmacy" "b@x.com" "Pune" true.
Definition station_pharmacy : Pharmacy := a_pharmacy 4 "Station Pharmacy" "s@x.com" "Mysuru" true.
Definition aspirin : Medicine := a_medicine 1 3 "Aspirin" "Acetylsalicylic acid" "Analgesic" 10.
Definition brufen : Medicine := a_medicine 2 4 "Brufen" "Ibuprofen" "Analgesic" 5.

(** Two hospitals with a doctor each, two pharmacies with a medicine each. *)
Definition example_db : Db :=
  {| users := []; hospitals := [city_hospital; lake_hospital];
     pharmacies := [corner_pharmacy; station_pharmacy];
     doctors := [dr_a; dr_b]; medicines := [aspirin; brufen];
     users_seq := 0; hospitals_seq := 8; pharmacies_seq := 4 |}.

Definition example_world : World := {| db := example_db; queries := [] |}.

Definition example_patch : Body :=
  [("full_name", VText "Dr. AA"); ("is_available", VBool false)].

Definition unknown_login : Body :=
  [("email", VText "nobody@x.com"); ("password", VText "p1")].

Definition wrong_login : Body :=
  [("email", VText "a@x.com"); ("password", VText "guess")].

Definition registration : Body :=
  [("full_name", VText "A. Patient"); ("email", VText "a@x.com");
   ("password", VText "p1"); ("city", VText "Pune")].

Definition new_hospital : Body :=
  [("hospital_name", VText "Hill Hospital"); ("email", VText "h@x.com");
   ("password", VText "p3"); ("city", VText "Ooty")].

Definition new_doctor : Body :=
  [("full_name", VText "Dr. C"); ("specialization", VText "Cardiology");
   ("experience_years", VInt 5); ("hospital_id", VInt 8)].

(* ================================================================== *)
(** * Lemmas on the primitives                                         *)
(* ================================================================== *)


Section Primitives.

(** ** Strings *)

Lemma append_assoc (a b c : string) : (a ++ b) ++ c = a ++ b ++ c.
Proof. induction a as [|x a IH]; simpl; [reflexivity | now rewrite IH]. Qed.

Lemma append_empty_r (a : string) : a ++ "" = a.
Proof. induction a as [|x a IH]; simpl; [reflexivity | now rewrite IH]. Qed.

Lemma lower_append (a b : string) : Sql.lower (a ++ b) = Sql.lower a ++ Sql.lower b.
Proof. induction a as [|x a IH]; simpl; [reflexivity | now rewrite IH]. Qed.

Lemma lower_char_fixes (c : ascii) :
  (nat_of_ascii c < 65 \/ 90 < nat_of_ascii c) -> Sql.lower_char c = c.
Proof.
  intros H. unfold Sql.lower_char.
  destruct (Nat.leb_spec 65 (nat_of_ascii c)), (Nat.leb_spec (nat_of_ascii c) 90);
    simpl; try reflexivity; lia.
Qed.

Lemma lower_char_letter (c : ascii) :
  65 <= nat_of_ascii c <= 90 ->
  nat_of_ascii (Sql.lower_char c) = nat_of_ascii c + 32.
Proof.
  intros H. unfold Sql.lower_char.
  destruct (Nat.leb_spec 65 (nat_of_ascii c)), (Nat.leb_spec (nat_of_ascii c) 90);
    simpl; try lia.
  apply nat_ascii_embedding. lia.
Qed.

(** Case folding neither creates nor removes one of the characters LIKE
    gives a meaning to. *)
Lemma lower_char_meta (c m : ascii) :
  (nat_of_ascii m < 65 \/ 90 < nat_of_ascii m) ->
  (nat_of_ascii m < 97 \/ 122 < nat_of_ascii m) ->
  Ascii.eqb (Sql.lower_char c) m = Ascii.eqb c m.
Proof.
  intros Hup Hlow.
  destruct (Nat.le_gt_cases 65 (nat_of_ascii c)) as [H1|H1];
    [destruct (Nat.le_gt_cases (nat_of_ascii c) 90) as [H2|H2]|].
  - assert (E := lower_char_letter c (conj H1 H2)).
    destruct (Ascii.eqb_spec (Sql.lower_char c) m) as [E1|_];
      destruct (Ascii.eqb_spec c m) as [E2|_]; try reflexivity.
    + rewrite E1 in E. lia.
    + rewrite E2 in H1, H2. lia.
  - now rewrite lower_char_fixes by lia.
  - now rewrite lower_char_fixes by lia.
Qed.

Lemma lacks_lower (m : ascii) (v : string) :
  (nat_of_ascii m < 65 \/ 90 < nat_of_ascii m) ->
  (nat_of_ascii m < 97 \/ 122 < nat_of_ascii m) ->
  Js.lacks m (Sql.lower v) = Js.lacks m v.
Proof.
  intros Hup Hlow. induction v as [|c v IH]; simpl; [reflexivity|].
  now rewrite IH, lower_char_meta.
Qed.

Lemma plain_lower (v : string) : plain (Sql.lower v) = plain v.
Proof.
  unfold plain.
  rewrite !lacks_lower; try reflexivity; vm_compute; lia.
Qed.

Lemma lower_wrap (v : string) : Sql.lower (Sql.wrap v) = Sql.wrap (Sql.lower v).
Proof.
  unfold Sql.wrap. rewrite !lower_append. reflexivity.
Qed.

(** ** LIKE *)

(** A leading [%] lets the rest of the pattern start anywhere. *)
Lemma like_percent (pattern text : string) :
  Sql.like (String "%" pattern) text = true <->
  exists skipped rest, text = skipped ++ rest /\ Sql.like pattern rest = true.
Proof.
  change (Sql.like (String "%" pattern) text) with
    ((fix from (t : string) : bool :=
        Sql.like pattern t ||
        match t with
        | EmptyString => false
        | String _ t' => from t'
        end) text).
  induction text as [|c text IH].
  - rewrite orb_false_r. split.
    + intros H. exists "", "". split; [reflexivity | exact H].
    + intros (skipped & rest & E & H).
      destruct skipped; [simpl in E; subst rest; exact H | discriminate].
  - rewrite orb_true_iff, IH. split.
    + intros [H | (skipped & rest & E & H)].
      * exists "", (String c text). split; [reflexivity | exact H].
      * exists (String c skipped), rest. split; [simpl; now rewrite E | exact H].
    + intros (skipped & rest & E & H).
      destruct skipped as [|c' skipped]; simpl in E.
      * left. now subst rest.
      * right. injection E as _ E. now exists skipped, rest.
Qed.

(** A literal character of the pattern matches itself. *)
Lemma like_literal (c : ascii) (pattern text : string) :
  Ascii.eqb c "%" = false -> Ascii.eqb c "_" = false -> Ascii.eqb c "\" = false ->
  Sql.like (String c pattern) text =
  match text with
  | EmptyString => false
  | String c' text' => Ascii.eqb c c' && Sql.like pattern text'
  end.
Proof.
  intros H1 H2 H3. simpl. rewrite H1, H2, H3. reflexivity.
Qed.

Lemma plain_cons (c : ascii) (v : string) :
  plain (String c v) = true ->
  Ascii.eqb c "%" = false /\ Ascii.eqb c "_" = false /\ Ascii.eqb c "\" = false
  /\ plain v = true.
Proof.
  unfold plain. simpl. rewrite !andb_true_iff, !negb_true_iff.
  intros [[[? ?] [? ?]] [? ?]]. repeat split; assumption.
Qed.

(** A pattern of literal characters followed by [%] matches the texts it
    is a prefix of. *)
Lemma like_plain_prefix (v text : string) :
  plain v = true ->
  (Sql.like (v ++ "%") text = true <-> exists post, text = v ++ post).
Proof.
  revert text. induction v as [|c v IH]; intros text Hv.
  - simpl append. split.
    + intros _. now exists text.
    + intros _. apply like_percent. exists text, "".
      split; [now rewrite append_empty_r | reflexivity].
  - apply plain_cons in Hv. destruct Hv as (H1 & H2 & H3 & Hv).
    simpl append. rewrite like_literal by assumption.
    destruct text as [|c' text].
    + split; [discriminate | intros (post & E); discriminate].
    + rewrite andb_true_iff, (IH text Hv). split.
      * intros [E (post & ->)]. apply Ascii.eqb_eq in E. subst c'. now exists post.
      * intros (post & E). injection E as -> ->. split; [apply Ascii.eqb_refl | now exists post].
Qed.

(** For a value without [%], [_] and backslash, LIKE with [%value%] is the
    substring test. *)
Lemma like_wrap_plain (v text : string) :
  plain v = true ->
  (Sql.like (Sql.wrap v) text = true <-> is_substring v text).
Proof.
  intros Hv. unfold Sql.wrap, is_substring. simpl append.
  rewrite like_percent. split.
  - intros (pre & rest & -> & H). apply like_plain_prefix in H; [|exact Hv].
    destruct H as (post & ->). now exists pre, post.
  - intros (pre & post & ->). exists pre, (v ++ post). split; [reflexivity|].
    apply like_plain_prefix; [exact Hv | now exists post].
Qed.

(** The same for ILIKE: a case-insensitive substring test. *)
Lemma ilike_wrap_plain (v text : string) :
  plain v = true ->
  (Sql.like (Sql.lower (Sql.wrap v)) (Sql.lower text) = true <-> ci_substring v text).
Proof.
  intros Hv. rewrite lower_wrap. unfold ci_substring.
  apply like_wrap_plain. now rewrite plain_lower.
Qed.

(** The pattern the handlers bind never ends in a dangling escape, so
    that the matching never raises. *)
Lemma dangling_escape_percent (v : string) :
  Sql.dangling_escape (v ++ "%") = false.
Proof.
  assert (H : forall n v, String.length v <= n -> Sql.dangling_escape (v ++ "%") = false).
  { clear v. induction n as [|n IH]; intros v Hn.
    - destruct v; [reflexivity | simpl in Hn; lia].
    - destruct v as [|c v]; [reflexivity|].
      simpl. destruct (Ascii.eqb c "\").
      + destruct v as [|c' v]; [reflexivity|].
        simpl. apply IH. simpl in Hn. lia.
      + apply IH. simpl in Hn. lia. }
  now apply (H (String.length v)).
Qed.

Lemma wrap_never_dangles (v : string) : Sql.dangling_escape (Sql.wrap v) = false.
Proof.
  unfold Sql.wrap. simpl. apply dangling_escape_percent.
Qed.

End Primitives.

Section Ordering.

Context {collation : Sql.Collation}.

Lemma key_leb_total (a b : option string) :
  Sql.key_leb a b = true \/ Sql.key_leb b a = true.
Proof.
  destruct a as [x|], b as [y|]; simpl; auto using Sql.text_leb_total.
Qed.

Lemma key_leb_trans (a b c : option string) :
  Sql.key_leb a b = true -> Sql.key_leb b c = true -> Sql.key_leb a c = true.
Proof.
  destruct a as [x|], b as [y|], c as [z|]; simpl; try congruence.
  apply Sql.text_leb_trans.
Qed.

Variable A : Type.
Variable key : A -> option string.

Let le_key (a b : A) : Prop := Sql.key_leb (key a) (key b) = true.

Lemma insert_by_perm (x : A) (l : list A) :
  Permutation (Sql.insert_by key x l) (x :: l).
Proof.
  induction l as [|y l IH]; simpl.
  - apply Permutation_refl.
  - destruct (Sql.key_leb (key x) (key y)).
    + apply Permutation_refl.
    + eapply Permutation_trans; [apply perm_skip, IH | apply perm_swap].
Qed.

Lemma order_by_perm (l : list A) : Permutation (Sql.order_by key l) l.
Proof.
  induction l as [|x l IH]; simpl.
  - apply perm_nil.
  - eapply Permutation_trans; [apply insert_by_perm | apply perm_skip, IH].
Qed.

Lemma insert_by_hd (x y : A) (l : list A) :
  le_key y x -> HdRel le_key y l -> HdRel le_key y (Sql.insert_by key x l).
Proof.
  intros Hyx Hl. destruct l as [|z l]; simpl.
  - constructor. exact Hyx.
  - destruct (Sql.key_leb (key x) (key z)); constructor.
    + exact Hyx.
    + now inversion Hl.
Qed.

Lemma insert_by_sorted (x : A) (l : list A) :
  Sorted le_key l -> Sorted le_key (Sql.insert_by key x l).
Proof.
  induction 1 as [|y l Hsorted IH Hhd]; simpl.
  - repeat constructor.
  - destruct (Sql.key_leb (key x) (key y)) eqn:E.
    + constructor; [constructor; assumption | constructor; exact E].
    + constructor; [exact IH|].
      apply insert_by_hd; [|exact Hhd].
      destruct (key_leb_total (key x) (key y)) as [H|H]; [congruence | exact H].
Qed.

Lemma order_by_sorted (l : list A) : Sorted le_key (Sql.order_by key l).
Proof.
  induction l as [|x l IH]; simpl.
  - constructor.
  - apply insert_by_sorted, IH.
Qed.

(** ORDER BY returns the rows it is given, every earlier one at most every
    later one. *)
Lemma order_by_ascending (l : list A) : ascending key (Sql.order_by key l).
Proof.
  apply Sorted_StronglySorted.
  - intros a b c. apply key_leb_trans.
  - apply order_by_sorted.
Qed.

Lemma ascending_map (B : Type) (f : A -> B) (name : B -> option string) (l : list A) :
  (forall a, name (f a) = key a) ->
  ascending key l -> ascending name (map f l).
Proof.
  intros Hname. unfold ascending.
  induction 1 as [|a l Hsorted IH Hall]; simpl; constructor.
  - exact IH.
  - rewrite Forall_forall in *. intros b Hb.
    apply in_map_iff in Hb. destruct Hb as (a' & <- & Ha').
    rewrite !Hname. now apply Hall.
Qed.

End Ordering.

Section Lists.

Variable A : Type.

(** Narrowing a filter leaves a part of what the wider filter keeps. *)
Lemma filter_narrow (p q : A -> bool) (l : list A) :
  (forall x, p x = true -> q x = true) ->
  exists rest, Permutation (filter q l) (filter p l ++ rest)%list.
Proof.
  intros Hpq. induction l as [|x l (rest & IH)]; simpl.
  - exists []. apply perm_nil.
  - destruct (p x) eqn:Hp.
    + rewrite (Hpq x Hp). exists rest. simpl. now apply perm_skip.
    + destruct (q x).
      * exists (x :: rest). eapply Permutation_trans; [apply perm_skip, IH|].
        apply Permutation_middle.
      * now exists rest.
Qed.

Lemma filter_none (p : A -> bool) (l : list A) :
  (forall x, In x l -> p x = false) -> filter p l = [].
Proof.
  induction l as [|x l IH]; simpl; intros H; [reflexivity|].
  rewrite (H x) by now left. apply IH. intros y Hy. apply H. now right.
Qed.

Lemma filter_all (p : A -> bool) (l : list A) :
  (forall x, In x l -> p x = true) -> filter p l = l.
Proof.
  induction l as [|x l IH]; simpl; intros H; [reflexivity|].
  rewrite (H x) by now left. f_equal. apply IH. intros y Hy. apply H. now right.
Qed.

Lemma filter_same (p q : A -> bool) (l : list A) :
  (forall x, p x = q x) -> filter p l = filter q l.
Proof.
  intros H. induction l as [|x l IH]; simpl; [reflexivity|].
  now rewrite H, IH.
Qed.

Lemma length_zero_nil (l : list A) : (List.length l =? 0)%nat = true <-> l = [].
Proof.
  destruct l; simpl; split; congruence.
Qed.

End Lists.

Section JsLemmas.

Lemma split_lacks (sep : ascii) (s : string) :
  Js.lacks sep s = true -> Js.split sep s = [s].
Proof.
  induction s as [|c s IH]; simpl; [reflexivity|].
  rewrite andb_true_iff, negb_true_iff. intros [Hc Hs].
  now rewrite Hc, (IH Hs).
Qed.

Lemma split_append (sep : ascii) (scheme rest : string) :
  Js.lacks sep scheme = true ->
  Js.split sep (scheme ++ String sep rest) = scheme :: Js.split sep rest.
Proof.
  induction scheme as [|c scheme IH]; simpl.
  - intros _. now rewrite Ascii.eqb_refl.
  - rewrite andb_true_iff, negb_true_iff. intros [Hc Hs].
    now rewrite Hc, (IH Hs).
Qed.

Lemma mapi_from_length {A B} (f : A -> nat -> B) (l : list A) (from : nat) :
  List.length (Js.mapi_from from f l) = List.length l.
Proof.
  revert from. induction l as [|x l IH]; intros from; simpl; [reflexivity|].
  now rewrite IH.
Qed.

Lemma mapi_from_nth {A B} (f : A -> nat -> B) (l : list A) (from i : nat) :
  nth_error (Js.mapi_from from f l) i =
  option_map (fun x => f x (from + i)) (nth_error l i).
Proof.
  revert from i. induction l as [|x l IH]; intros from i; destruct i; simpl;
    try reflexivity.
  - now rewrite Nat.add_0_r.
  - rewrite IH. now rewrite Nat.add_succ_r.
Qed.

Lemma present_some (v : option string) (s : string) :
  Js.present v = Some s -> v = Some s /\ s <> "".
Proof.
  unfold Js.present, Js.truthy. destruct v as [t|]; [|discriminate].
  destruct (String.eqb_spec t ""); simpl; [discriminate|].
  intros E. injection E as <-. now split.
Qed.

Lemma present_nonempty (s : string) : s <> "" -> Js.present (Some s) = Some s.
Proof.
  intros H. unfold Js.present, Js.truthy.
  destruct (String.eqb_spec s ""); [contradiction | reflexivity].
Qed.

End JsLemmas.

Example show_12 : Js.show 12 = "12". Proof. reflexivity. Qed.
Example split_bearer : Js.split " " "Bearer a.b.c" = ["Bearer"; "a.b.c"]. Proof. reflexivity. Qed.
Example split_empty : Js.split " " "" = [""]. Proof. reflexivity. Qed.
Example like_1 : Sql.like "%rdi%" "cardiology" = true. Proof. reflexivity. Qed.
Example like_2 : Sql.like "%_%" "pune" = true. Proof. reflexivity. Qed.
Example like_3 : Sql.like "%a\%%" "a%b" = true. Proof. reflexivity. Qed.
Example like_4 : Sql.like "%a\%%" "ab" = false. Proof. reflexivity. Qed.
Example lower_1 : Sql.lower "CarDio_9" = "cardio_9". Proof. reflexivity. Qed.



(* ================================================================== *)
(** * The access guard                                                 *)
(* ================================================================== *)

Section AccessGuard.

Context {jwt : JwtLib}.
Variable env : Env.

Lemma jwt_verify_fails (token : string) (now : Z) :
  jwt_decode token = None
  \/ jwt_signature_ok (JWT_SECRET env) token = false
  \/ (exists decoded e,
        jwt_decode token = Some decoded /\ exp decoded = Some e /\ (e < now)%Z) ->
  exists error, jwt_verify token (JWT_SECRET env) now = Throw error.
Proof.
  unfold jwt_verify. intros [H|[H|(decoded & e & Hd & He & Hlt)]].
  - rewrite H. eauto.
  - destruct (jwt_decode token); [rewrite H; simpl|]; eauto.
  - rewrite Hd, He.
    destruct (jwt_signature_ok (JWT_SECRET env) token); simpl; [|eauto].
    destruct (Z.leb_spec e now); [eauto | lia].
Qed.

Lemma bearer_token_scheme (scheme token : string) :
  Js.lacks " " scheme = true -> Js.lacks " " token = true ->
  bearer_token (Some (scheme ++ " " ++ token)) = Some token.
Proof.
  intros Hs Ht. unfold bearer_token.
  change (scheme ++ " " ++ token) with (scheme ++ String " " token).
  now rewrite split_append, split_lacks.
Qed.

Lemma bearer_token_alone (token : string) :
  Js.lacks " " token = true -> bearer_token (Some token) = None.
Proof.
  intros Ht. unfold bearer_token. now rewrite split_lacks.
Qed.

Lemma authMiddleware_next (required authorization : option string) (now : Z)
    (token : string) (decoded : Claims) :
  Js.present (bearer_token authorization) = Some token ->
  jwt_verify token (JWT_SECRET env) now = Ok decoded ->
  Js.present required = None \/ Js.present required = Some (userType decoded) ->
  authMiddleware env required authorization now = Next decoded.
Proof.
  unfold authMiddleware. intros -> -> [-> | ->]; [reflexivity|].
  now rewrite String.eqb_refl.
Qed.

(** C2. The four outcomes of the access guard: without a token in the
    Authorization header the answer is 401; with a token that is malformed,
    whose signature does not match, or whose expiry time has passed
    (whatever its signature), the answer is 401; with a token that verifies
    and a required role that differs from the token's role, the answer is
    403; otherwise the decoded payload becomes [req.user] and the handler
    runs. *)
Theorem authMiddleware_outcomes (required authorization : option string) (now : Z) :
  (Js.present (bearer_token authorization) = None ->
   authMiddleware env required authorization now
   = Denied 401 "Access denied. No token provided.")
  /\ (forall token,
        Js.present (bearer_token authorization) = Some token ->
        jwt_decode token = None
        \/ jwt_signature_ok (JWT_SECRET env) token = false
        \/ (exists decoded e,
              jwt_decode token = Some decoded /\ exp decoded = Some e /\ (e < now)%Z) ->
        authMiddleware env required authorization now = Denied 401 "Invalid token.")
  /\ (forall token decoded role,
        Js.present (bearer_token authorization) = Some token ->
        jwt_verify token (JWT_SECRET env) now = Ok decoded ->
        Js.present required = Some role ->
        userType decoded <> role ->
        authMiddleware env required authorization now
        = Denied 403 "Access denied. Insufficient permissions.")
  /\ (forall token decoded,
        Js.present (bearer_token authorization) = Some token ->
        jwt_verify token (JWT_SECRET env) now = Ok decoded ->
        Js.present required = None \/ Js.present required = Some (userType decoded) ->
        authMiddleware env required authorization now = Next decoded
        /\ forall A (handler : Claims -> World -> Response A * World) w,
             guarded env required handler authorization now w = handler decoded w).
Proof.
  unfold guarded, authMiddleware. split; [|split; [|split]].
  - intros ->. reflexivity.
  - intros token -> Hfail.
    destruct (jwt_verify_fails token now Hfail) as (error & ->). reflexivity.
  - intros token decoded role -> -> -> Hrole.
    apply String.eqb_neq in Hrole. now rewrite Hrole.
  - intros token decoded -> -> Hrole.
    assert (E : match Js.present required with
                | Some role =>
                    if negb (String.eqb (userType decoded) role)
                    then Denied 403 "Access denied. Insufficient permissions."
                    else Next decoded
                | None => Next decoded
                end = Next decoded).
    { destruct Hrole as [-> | ->]; [reflexivity|]. now rewrite String.eqb_refl. }
    split; [exact E|].
    intros A handler w. now rewrite E.
Qed.

Lemma jwt_verify_compact (token : string) (now : Z) (decoded : Claims) :
  jwt_verify token (JWT_SECRET env) now = Ok decoded ->
  token <> "" /\ Js.lacks " " token = true.
Proof.
  intros H. apply jwt_compact. unfold jwt_verify in H.
  now destruct (jwt_decode token).
Qed.

(** C10. The guard does not look at the scheme word.  For a token that
    verifies and whose role the route accepts, and for any scheme word
    (any string without a space, not only [Bearer]), the token the guard
    takes from the header [scheme token] is what follows the space, and the
    request is let through; the header that is the token alone, without a
    space, is answered 401 as if no token had been provided. *)
Theorem authMiddleware_ignores_scheme (required : option string)
    (scheme token : string) (decoded : Claims) (now : Z) :
  Js.lacks " " scheme = true ->
  jwt_verify token (JWT_SECRET env) now = Ok decoded ->
  Js.present required = None \/ Js.present required = Some (userType decoded) ->
  bearer_token (Some (scheme ++ " " ++ token)) = Some token
  /\ authMiddleware env required (Some (scheme ++ " " ++ token)) now = Next decoded
  /\ authMiddleware env required (Some token) now
     = Denied 401 "Access denied. No token provided.".
Proof.
  intros Hs Hv Hrole.
  destruct (jwt_verify_compact token now decoded Hv) as [Hne Ht].
  assert (E := bearer_token_scheme scheme token Hs Ht).
  split; [exact E | split].
  - apply (authMiddleware_next required _ now token decoded).
    + rewrite E. now apply present_nonempty.
    + exact Hv.
    + exact Hrole.
  - unfold authMiddleware. now rewrite bearer_token_alone.
Qed.

End AccessGuard.

Lemma authMiddleware_outcomes_witness :
  authMiddleware example_env (Some "hospital") None 50
  = Denied 401 "Access denied. No token provided."
  /\ authMiddleware example_env (Some "hospital") (Some "Bearer hospital.7") 200
     = Denied 401 "Invalid token."
  /\ authMiddleware example_env (Some "pharmacy") (Some "Bearer hospital.7") 50
     = Denied 403 "Access denied. Insufficient permissions."
  /\ authMiddleware example_env (Some "hospital") (Some "Bearer hospital.7") 50
     = Next hospital_7.
Proof.
  split; [|split; [|split]].
  - apply (proj1 (@authMiddleware_outcomes example_jwt example_env
                    (Some "hospital") None 50)).
    reflexivity.
  - apply (proj1 (proj2 (@authMiddleware_outcomes example_jwt example_env
                           (Some "hospital") (Some "Bearer hospital.7") 200))
             "hospital.7").
    + reflexivity.
    + right; right. exists hospital_7, 100%Z.
      split; [reflexivity | split; [reflexivity | lia]].
  - apply (proj1 (proj2 (proj2 (@authMiddleware_outcomes example_jwt example_env
                                  (Some "pharmacy") (Some "Bearer hospital.7") 50)))
             "hospital.7" hospital_7 "pharmacy").
    + reflexivity.
    + reflexivity.
    + reflexivity.
    + discriminate.
  - apply (proj2 (proj2 (proj2 (@authMiddleware_outcomes example_jwt example_env
                                  (Some "hospital") (Some "Bearer hospital.7") 50)))
             "hospital.7" hospital_7).
    + reflexivity.
    + reflexivity.
    + right. reflexivity.
Defined.

Lemma authMiddleware_ignores_scheme_witness :
  bearer_token (Some ("Basic" ++ " " ++ "hospital.7")) = Some "hospital.7"
  /\ authMiddleware example_env (Some "hospital") (Some ("Basic" ++ " " ++ "hospital.7")) 50
     = Next hospital_7
  /\ authMiddleware example_env (Some "hospital") (Some "hospital.7") 50
     = Denied 401 "Access denied. No token provided.".
Proof.
  apply (@authMiddleware_ignores_scheme example_jwt example_env
           (Some "hospital") "Basic" "hospital.7" hospital_7 50).
  - reflexivity.
  - reflexivity.
  - right. reflexivity.
Defined.

Example guard_accepts_any_scheme :
  authMiddleware example_env (Some "hospital") (Some "Basic hospital.7") 50 = Next hospital_7.
Proof. reflexivity. Qed.

Example guard_rejects_bare_token :
  authMiddleware example_env (Some "hospital") (Some "hospital.7") 50
  = Denied 401 "Access denied. No token provided.".
Proof. reflexivity. Qed.

(* ================================================================== *)
(** * Owned resources: update and delete                               *)
(* ================================================================== *)

Section OwnedResources.

Context {jwt : JwtLib} {pg : Postgres}.
Variable env : Env.

Lemma with_doctors_same (d : Db) : with_doctors (doctors d) d = d.
Proof. now destruct d. Qed.

Lemma with_medicines_same (d : Db) : with_medicines (medicines d) d = d.
Proof. now destruct d. Qed.

Lemma no_doctor_matches (rows : list Doctor) (doctor_id : string) (key hospital_id : Z) :
  pg_key_in doctor_id = Some key ->
  (forall d, In d rows ->
             pg_key_in doctor_id = Some (d_doctor_id d) -> d_hospital_id d <> hospital_id) ->
  forall d, In d rows -> doctor_matches key hospital_id d = false.
Proof.
  intros Hkey H d Hd. unfold doctor_matches.
  destruct (Z.eqb_spec (d_doctor_id d) key) as [E|]; [|reflexivity].
  destruct (Z.eqb_spec (d_hospital_id d) hospital_id) as [E'|]; [|reflexivity].
  rewrite <- E in Hkey. now destruct (H d Hd Hkey).
Qed.

Lemma no_medicine_matches (rows : list Medicine) (medicine_id : string) (key pharmacy_id : Z) :
  pg_key_in medicine_id = Some key ->
  (forall m, In m rows ->
             pg_key_in medicine_id = Some (m_medicine_id m) -> m_pharmacy_id m <> pharmacy_id) ->
  forall m, In m rows -> medicine_matches key pharmacy_id m = false.
Proof.
  intros Hkey H m Hm. unfold medicine_matches.
  destruct (Z.eqb_spec (m_medicine_id m) key) as [E|]; [|reflexivity].
  destruct (Z.eqb_spec (m_pharmacy_id m) pharmacy_id) as [E'|]; [|reflexivity].
  rewrite <- E in Hkey. now destruct (H m Hm Hkey).
Qed.

Lemma updateDoctor_not_found (doctor_id : string) (key : Z) (user : Claims)
    (updates : Body) (w : World) :
  pg_key_in doctor_id = Some key ->
  filter (doctor_matches key (id user)) (doctors (db w)) = [] ->
  updateDoctor doctor_id user updates w
  = (failure 404 "Doctor not found",
     {| db := db w;
        queries := (queries w
                    ++ [("SELECT * FROM doctors WHERE doctor_id = $1 AND hospital_id = $2",
                         [VText doctor_id; VInt (id user)])])%list |}).
Proof.
  intros Hkey H. unfold updateDoctor, try_catch, bind, pool_query, select_doctors.
  cbv beta iota zeta. rewrite Hkey, H. reflexivity.
Qed.

Lemma deleteDoctor_not_found (doctor_id : string) (key : Z) (user : Claims) (w : World) :
  pg_key_in doctor_id = Some key ->
  (forall d, In d (doctors (db w)) -> doctor_matches key (id user) d = false) ->
  deleteDoctor doctor_id user w
  = (failure 404 "Doctor not found",
     {| db := db w;
        queries := (queries w
                    ++ [("DELETE FROM doctors WHERE doctor_id = $1 AND hospital_id = $2 RETURNING *",
                         [VText doctor_id; VInt (id user)])])%list |}).
Proof.
  intros Hkey H. unfold deleteDoctor, try_catch, bind, pool_query, delete_doctors.
  cbv beta iota zeta. rewrite Hkey.
  rewrite (filter_none _ _ _ H).
  rewrite filter_all, with_doctors_same; [reflexivity|].
  intros d Hd. now rewrite (H d Hd).
Qed.

Lemma updateMedicine_not_found (medicine_id : string) (key : Z) (user : Claims)
    (updates : Body) (w : World) :
  pg_key_in medicine_id = Some key ->
  filter (medicine_matches key (id user)) (medicines (db w)) = [] ->
  updateMedicine medicine_id user updates w
  = (failure 404 "Medicine not found",
     {| db := db w;
        queries := (queries w
                    ++ [("SELECT * FROM medicines WHERE medicine_id = $1 AND pharmacy_id = $2",
                         [VText medicine_id; VInt (id user)])])%list |}).
Proof.
  intros Hkey H. unfold updateMedicine, try_catch, bind, pool_query, select_medicines.
  cbv beta iota zeta. rewrite Hkey, H. reflexivity.
Qed.

Lemma deleteMedicine_not_found (medicine_id : string) (key : Z) (user : Claims) (w : World) :
  pg_key_in medicine_id = Some key ->
  (forall m, In m (medicines (db w)) -> medicine_matches key (id user) m = false) ->
  deleteMedicine medicine_id user w
  = (failure 404 "Medicine not found",
     {| db := db w;
        queries := (queries w
                    ++ [("DELETE FROM medicines WHERE medicine_id = $1 AND pharmacy_id = $2 RETURNING *",
                         [VText medicine_id; VInt (id user)])])%list |}).
Proof.
  intros Hkey H. unfold deleteMedicine, try_catch, bind, pool_query, delete_medicines.
  cbv beta iota zeta. rewrite Hkey.
  rewrite (filter_none _ _ _ H).
  rewrite filter_all, with_medicines_same; [reflexivity|].
  intros m Hm. now rewrite (H m Hm).
Qed.

(** A path segment the key type rejects: the first statement raises, the
    catch answers 500, and the tables are as they were. *)
Lemma updateDoctor_rejected (doctor_id : string) (user : Claims) (updates : Body) (w : World) :
  pg_key_in doctor_id = None ->
  updateDoctor doctor_id user updates w
  = (failure 500 "Server error",
     {| db := db w;
        queries := (queries w
                    ++ [("SELECT * FROM doctors WHERE doctor_id = $1 AND hospital_id = $2",
                         [VText doctor_id; VInt (id user)])])%list |}).
Proof.
  intros Hkey. unfold updateDoctor, try_catch, bind, pool_query, select_doctors.
  cbv beta iota zeta. rewrite Hkey. reflexivity.
Qed.

Lemma deleteDoctor_rejected (doctor_id : string) (user : Claims) (w : World) :
  pg_key_in doctor_id = None ->
  deleteDoctor doctor_id user w
  = (failure 500 "Server error",
     {| db := db w;
        queries := (queries w
                    ++ [("DELETE FROM doctors WHERE doctor_id = $1 AND hospital_id = $2 RETURNING *",
                         [VText doctor_id; VInt (id user)])])%list |}).
Proof.
  intros Hkey. unfold deleteDoctor, try_catch, bind, pool_query, delete_doctors.
  cbv beta iota zeta. rewrite Hkey. reflexivity.
Qed.

Lemma updateMedicine_rejected (medicine_id : string) (user : Claims) (updates : Body)
    (w : World) :
  pg_key_in medicine_id = None ->
  updateMedicine medicine_id user updates w
  = (failure 500 "Server error",
     {| db := db w;
        queries := (queries w
                    ++ [("SELECT * FROM medicines WHERE medicine_id = $1 AND pharmacy_id = $2",
                         [VText medicine_id; VInt (id user)])])%list |}).
Proof.
  intros Hkey. unfold updateMedicine, try_catch, bind, pool_query, select_medicines.
  cbv beta iota zeta. rewrite Hkey. reflexivity.
Qed.

Lemma deleteMedicine_rejected (medicine_id : string) (user : Claims) (w : World) :
  pg_key_in medicine_id = None ->
  deleteMedicine medicine_id user w
  = (failure 500 "Server error",
     {| db := db w;
        queries := (queries w
                    ++ [("DELETE FROM medicines WHERE medicine_id = $1 AND pharmacy_id = $2 RETURNING *",
                         [VText medicine_id; VInt (id user)])])%list |}).
Proof.
  intros Hkey. unfold deleteMedicine, try_catch, bind, pool_query, delete_medicines.
  cbv beta iota zeta. rewrite Hkey. reflexivity.
Qed.

(** C1. An update or a delete of a doctor through a hospital token, or of
    a medicine through a pharmacy token, whose path segment is text the key
    type accepts and for which no row has both the key so read and the
    caller as its owner (a row with that key may exist under another owner)
    is answered 404 with the not-found message, and the tables are as
    before: the answer is the one given when no row has the key at all, and
    it is not a 403. *)
Theorem owned_mutation_without_matching_row
    (authorization : option string) (now : Z) (entity_id : string) (user : Claims)
    (body : Body) (w : World) :
  pg_key_in entity_id <> None ->
  (authMiddleware env (Some "hospital") authorization now = Next user ->
   (forall d, In d (doctors (db w)) ->
              pg_key_in entity_id = Some (d_doctor_id d) -> d_hospital_id d <> id user) ->
   fst (put_doctor env authorization now entity_id body w) = failure 404 "Doctor not found"
   /\ db (snd (put_doctor env authorization now entity_id body w)) = db w
   /\ fst (delete_doctor env authorization now entity_id w) = failure 404 "Doctor not found"
   /\ db (snd (delete_doctor env authorization now entity_id w)) = db w)
  /\
  (authMiddleware env (Some "pharmacy") authorization now = Next user ->
   (forall m, In m (medicines (db w)) ->
              pg_key_in entity_id = Some (m_medicine_id m) -> m_pharmacy_id m <> id user) ->
   fst (put_medicine env authorization now entity_id body w) = failure 404 "Medicine not found"
   /\ db (snd (put_medicine env authorization now entity_id body w)) = db w
   /\ fst (delete_medicine env authorization now entity_id w) = failure 404 "Medicine not found"
   /\ db (snd (delete_medicine env authorization now entity_id w)) = db w).
Proof.
  intros Haccepted.
  assert (exists key, pg_key_in entity_id = Some key) as [key Hkey]
    by (destruct (pg_key_in entity_id) as [key|]; [now exists key | now destruct Haccepted]).
  split; intros Hguard Hrows.
  - assert (Hnone := no_doctor_matches _ _ _ _ Hkey Hrows).
    unfold put_doctor, delete_doctor, guarded. rewrite Hguard.
    rewrite (updateDoctor_not_found _ key) by (exact Hkey || now apply filter_none).
    rewrite (deleteDoctor_not_found _ key) by (exact Hkey || exact Hnone).
    now simpl.
  - assert (Hnone := no_medicine_matches _ _ _ _ Hkey Hrows).
    unfold put_medicine, delete_medicine, guarded. rewrite Hguard.
    rewrite (updateMedicine_not_found _ key) by (exact Hkey || now apply filter_none).
    rewrite (deleteMedicine_not_found _ key) by (exact Hkey || exact Hnone).
    now simpl.
Qed.

End OwnedResources.

Lemma owned_mutation_without_matching_row_witness :
  (fst (put_doctor example_env (Some "Bearer hospital.7") 50 "2"
          [("full_name", VText "Dr. X")] example_world) = failure 404 "Doctor not found"
   /\ db (snd (put_doctor example_env (Some "Bearer hospital.7") 50 "2"
                 [("full_name", VText "Dr. X")] example_world)) = db example_world
   /\ fst (delete_doctor example_env (Some "Bearer hospital.7") 50 "2" example_world)
      = failure 404 "Doctor not found"
   /\ db (snd (delete_doctor example_env (Some "Bearer hospital.7") 50 "2" example_world))
      = db example_world)
  /\
  (fst (put_medicine example_env (Some "Bearer pharmacy.3") 50 "2"
          [("price", VInt 1)] example_world) = failure 404 "Medicine not found"
   /\ db (snd (put_medicine example_env (Some "Bearer pharmacy.3") 50 "2"
                 [("price", VInt 1)] example_world)) = db example_world
   /\ fst (delete_medicine example_env (Some "Bearer pharmacy.3") 50 "2" example_world)
      = failure 404 "Medicine not found"
   /\ db (snd (delete_medicine example_env (Some "Bearer pharmacy.3") 50 "2" example_world))
      = db example_world).
Proof.
  split.
  - apply (proj1 (@owned_mutation_without_matching_row example_jwt example_pg example_env
                    (Some "Bearer hospital.7") 50 "2" hospital_7
                    [("full_name", VText "Dr. X")] example_world ltac:(discriminate))).
    + reflexivity.
    + intros d [<-|[<-|[]]]; simpl; intros E; [discriminate E | discriminate].
  - apply (proj2 (@owned_mutation_without_matching_row example_jwt example_pg example_env
                    (Some "Bearer pharmacy.3") 50 "2" pharmacy_3
                    [("price", VInt 1)] example_world ltac:(discriminate))).
    + reflexivity.
    + intros m [<-|[<-|[]]]; simpl; intros E; [discriminate E | discriminate].
Defined.

(** A path segment that is not a number: no doctor of the table has the key
    [abc] and the caller as owner, and yet the update and the delete are
    answered 500, not 404; likewise for medicines. *)
Lemma owned_mutation_unreadable_key_counterexample :
  (~ (exists d, In d (doctors (db example_world))
                /\ pg_key_in "abc" = Some (d_doctor_id d) /\ d_hospital_id d = 7%Z)
   /\ authMiddleware example_env (Some "hospital") (Some "Bearer hospital.7") 50
      = Next hospital_7
   /\ fst (put_doctor example_env (Some "Bearer hospital.7") 50 "abc"
             [("full_name", VText "Dr. X")] example_world) = failure 500 "Server error"
   /\ fst (delete_doctor example_env (Some "Bearer hospital.7") 50 "abc" example_world)
      = failure 500 "Server error")
  /\
  (~ (exists m, In m (medicines (db example_world))
                /\ pg_key_in "abc" = Some (m_medicine_id m) /\ m_pharmacy_id m = 3%Z)
   /\ authMiddleware example_env (Some "pharmacy") (Some "Bearer pharmacy.3") 50
      = Next pharmacy_3
   /\ fst (put_medicine example_env (Some "Bearer pharmacy.3") 50 "abc"
             [("price", VInt 1)] example_world) = failure 500 "Server error"
   /\ fst (delete_medicine example_env (Some "Bearer pharmacy.3") 50 "abc" example_world)
      = failure 500 "Server error").
Proof.
  split; (split; [intros (r & _ & E & _); discriminate E | repeat split]).
Qed.

(* ================================================================== *)
(** * The dynamic update                                               *)
(* ================================================================== *)

Section DynamicUpdate.

Context {pg : Postgres}.

Lemma updateDoctor_found (doctor_id : string) (key : Z) (user : Claims)
    (updates : Body) (w : World) :
  pg_key_in doctor_id = Some key ->
  filter (doctor_matches key (id user)) (doctors (db w)) <> [] ->
  let statement := doctor_update_text (map fst updates) in
  let bound := (map snd updates ++ [VText doctor_id; VInt (id user)])%list in
  let log := (queries w
              ++ [("SELECT * FROM doctors WHERE doctor_id = $1 AND hospital_id = $2",
                   [VText doctor_id; VInt (id user)])]
              ++ [(statement, bound)])%list in
  updateDoctor doctor_id user updates w
  = match update_doctors statement bound (db w) with
    | Ok (result, db') =>
        ({| status := 200; success := true;
            message := Some "Doctor updated successfully";
            count := None; data := hd_error result |},
         {| db := db'; queries := log |})
    | Throw _ => (failure 500 "Server error", {| db := db w; queries := log |})
    end.
Proof.
  intros Hkey H. unfold updateDoctor, try_catch, bind, pool_query, select_doctors.
  cbv beta iota zeta. rewrite Hkey.
  destruct (filter (doctor_matches key (id user)) (doctors (db w))) as [|d rows];
    [contradiction|].
  cbn [List.length Nat.eqb db queries].
  rewrite length_map, <- app_assoc.
  unfold doctor_update_text. rewrite length_map.
  destruct (update_doctors _ _ (db w)) as [[result db']|e]; reflexivity.
Qed.

Lemma updateMedicine_found (medicine_id : string) (key : Z) (user : Claims)
    (updates : Body) (w : World) :
  pg_key_in medicine_id = Some key ->
  filter (medicine_matches key (id user)) (medicines (db w)) <> [] ->
  let statement := medicine_update_text (map fst updates) in
  let bound := (map snd updates ++ [VText medicine_id; VInt (id user)])%list in
  let log := (queries w
              ++ [("SELECT * FROM medicines WHERE medicine_id = $1 AND pharmacy_id = $2",
                   [VText medicine_id; VInt (id user)])]
              ++ [(statement, bound)])%list in
  updateMedicine medicine_id user updates w
  = match update_medicines statement bound (db w) with
    | Ok (result, db') =>
        ({| status := 200; success := true;
            message := Some "Medicine updated successfully";
            count := None; data := hd_error result |},
         {| db := db'; queries := log |})
    | Throw _ => (failure 500 "Server error", {| db := db w; queries := log |})
    end.
Proof.
  intros Hkey H. unfold updateMedicine, try_catch, bind, pool_query, select_medicines.
  cbv beta iota zeta. rewrite Hkey.
  destruct (filter (medicine_matches key (id user)) (medicines (db w))) as [|d rows];
    [contradiction|].
  cbn [List.length Nat.eqb db queries].
  rewrite length_map, <- app_assoc.
  unfold medicine_update_text. rewrite length_map.
  destruct (update_medicines _ _ (db w)) as [[result db']|e]; reflexivity.
Qed.

Lemma update_log_doctor (doctor_id : string) (key : Z) (user : Claims)
    (updates : Body) (w : World) :
  pg_key_in doctor_id = Some key ->
  filter (doctor_matches key (id user)) (doctors (db w)) <> [] ->
  queries (snd (updateDoctor doctor_id user updates w))
  = (queries w
     ++ [("SELECT * FROM doctors WHERE doctor_id = $1 AND hospital_id = $2",
          [VText doctor_id; VInt (id user)])]
     ++ [(doctor_update_text (map fst updates),
          map snd updates ++ [VText doctor_id; VInt (id user)])])%list.
Proof.
  intros Hkey H. rewrite (updateDoctor_found _ _ _ _ _ Hkey H).
  cbv zeta. destruct (update_doctors _ _ (db w)) as [[result db']|e]; reflexivity.
Qed.

Lemma update_log_medicine (medicine_id : string) (key : Z) (user : Claims)
    (updates : Body) (w : World) :
  pg_key_in medicine_id = Some key ->
  filter (medicine_matches key (id user)) (medicines (db w)) <> [] ->
  queries (snd (updateMedicine medicine_id user updates w))
  = (queries w
     ++ [("SELECT * FROM medicines WHERE medicine_id = $1 AND pharmacy_id = $2",
          [VText medicine_id; VInt (id user)])]
     ++ [(medicine_update_text (map fst updates),
          map snd updates ++ [VText medicine_id; VInt (id user)])])%list.
Proof.
  intros Hkey H. rewrite (updateMedicine_found _ _ _ _ _ Hkey H).
  cbv zeta. destruct (update_medicines _ _ (db w)) as [[result db']|e]; reflexivity.
Qed.

(** [arr.join(sep)] is the concatenation of the pieces with the separator
    between them. *)
Lemma join_concat (sep : string) (arr : list string) :
  Js.join sep arr = String.concat sep arr.
Proof.
  induction arr as [|x [|y rest] IH]; [reflexivity | reflexivity |].
  change (Js.join sep (x :: y :: rest)) with (x ++ sep ++ Js.join sep (y :: rest)).
  change (String.concat sep (x :: y :: rest)) with (x ++ sep ++ String.concat sep (y :: rest)).
  now rewrite IH.
Qed.

(** The SET clause is the list of [name = $k] pieces, the k-th piece for
    the k-th key, with a comma and a space between them. *)
Lemma setClause_pieces (updates : Body) :
  exists pieces,
    setClause_of (map fst updates) = String.concat ", " pieces
    /\ List.length pieces = List.length updates
    /\ forall i field v,
         nth_error updates i = Some (field, v) ->
         nth_error pieces i = Some (field ++ " = $" ++ Js.show (i + 1)).
Proof.
  unfold setClause_of, Js.mapi. rewrite join_concat.
  eexists. split; [reflexivity|]. split.
  - now rewrite mapi_from_length, length_map.
  - intros i field v H. rewrite mapi_from_nth, nth_error_map, H. reflexivity.
Qed.

Lemma bound_positions (updates : Body) (entity_id : string) (owner_id : Z) :
  let bound := (map snd updates ++ [VText entity_id; VInt owner_id])%list in
  (forall i field v, nth_error updates i = Some (field, v) -> nth_error bound i = Some v)
  /\ nth_error bound (List.length updates) = Some (VText entity_id)
  /\ nth_error bound (List.length updates + 1) = Some (VInt owner_id)
  /\ List.length bound = List.length updates + 2.
Proof.
  cbv zeta. repeat split.
  - intros i field v H.
    rewrite nth_error_app1.
    + now rewrite nth_error_map, H.
    + rewrite length_map. apply nth_error_Some. congruence.
  - rewrite nth_error_app2; rewrite length_map; [|lia].
    now rewrite Nat.sub_diag.
  - rewrite nth_error_app2; rewrite length_map; [|lia].
    now replace (List.length updates + 1 - List.length updates) with 1 by lia.
  - rewrite length_app, length_map. simpl. lia.
Qed.

(** A list of two pieces is known by its length and its two entries. *)
Lemma two_pieces {A} (l : list A) (x y : A) :
  List.length l = 2 -> nth_error l 0 = Some x -> nth_error l 1 = Some y -> l = [x; y].
Proof.
  destruct l as [|a [|b [|c rest]]]; simpl; intros Hlen H0 H1; try discriminate Hlen.
  congruence.
Qed.

(** A list of four entries is known by its length and its entries. *)
Lemma four_entries {A} (l : list A) (a b c d : A) :
  List.length l = 4 ->
  nth_error l 0 = Some a -> nth_error l 1 = Some b ->
  nth_error l 2 = Some c -> nth_error l 3 = Some d -> l = [a; b; c; d].
Proof.
  destruct l as [|x0 [|x1 [|x2 [|x3 [|x4 rest]]]]]; simpl; intros Hlen H0 H1 H2 H3;
    try discriminate Hlen.
  congruence.
Qed.

End DynamicUpdate.

Section DynamicUpdateClaims.

Context {jwt : JwtLib} {pg : Postgres}.
Variable env : Env.

Lemma doctor_row_found (entity_id : string) (owner_id : Z) (rows : list Doctor) :
  (exists d, In d rows
             /\ pg_key_in entity_id = Some (d_doctor_id d) /\ d_hospital_id d = owner_id) ->
  exists key, pg_key_in entity_id = Some key
              /\ filter (doctor_matches key owner_id) rows <> [].
Proof.
  intros (d & Hd & E1 & E2). exists (d_doctor_id d). split; [exact E1|]. intros Hnil.
  assert (Hin : In d (filter (doctor_matches (d_doctor_id d) owner_id) rows)).
  { apply filter_In. split; [exact Hd|].
    unfold doctor_matches. now rewrite E2, !Z.eqb_refl. }
  now rewrite Hnil in Hin.
Qed.

Lemma medicine_row_found (entity_id : string) (owner_id : Z) (rows : list Medicine) :
  (exists m, In m rows
             /\ pg_key_in entity_id = Some (m_medicine_id m) /\ m_pharmacy_id m = owner_id) ->
  exists key, pg_key_in entity_id = Some key
              /\ filter (medicine_matches key owner_id) rows <> [].
Proof.
  intros (m & Hm & E1 & E2). exists (m_medicine_id m). split; [exact E1|]. intros Hnil.
  assert (Hin : In m (filter (medicine_matches (m_medicine_id m) owner_id) rows)).
  { apply filter_In. split; [exact Hm|].
    unfold medicine_matches. now rewrite E2, !Z.eqb_refl. }
  now rewrite Hnil in Hin.
Qed.

(** C8. For a non-empty patch on a row the caller owns, the UPDATE that
    [updateDoctor] (and [updateMedicine]) sends is the text
    [UPDATE doctors SET], the pieces [name = $k] with a comma and a space
    between them, the k-th piece carrying the k-th key of the patch as it
    was supplied, and the WHERE clause on parameters n+1 and n+2 of an
    n-field patch; its bound parameters are the values of the patch in the
    order of the keys, followed by the path segment and the owner; and the
    text of the statement is the same for any two patches with the same
    keys, whatever their values. *)
Theorem dynamic_update_statement (entity_id : string) (user : Claims) (updates : Body)
    (w : World) :
  updates <> [] ->
  let n := List.length updates in
  ((exists d, In d (doctors (db w))
              /\ pg_key_in entity_id = Some (d_doctor_id d) /\ d_hospital_id d = id user) ->
   exists pieces bound,
     queries (snd (updateDoctor entity_id user updates w))
     = (queries w
        ++ [("SELECT * FROM doctors WHERE doctor_id = $1 AND hospital_id = $2",
             [VText entity_id; VInt (id user)])]
        ++ [(("UPDATE doctors SET " ++ String.concat ", " pieces
              ++ " WHERE doctor_id = $" ++ Js.show (n + 1)
              ++ " AND hospital_id = $" ++ Js.show (n + 2)
              ++ " RETURNING *")%string, bound)])%list
     /\ List.length pieces = n
     /\ (forall i field v,
           nth_error updates i = Some (field, v) ->
           nth_error pieces i = Some (field ++ " = $" ++ Js.show (i + 1))
           /\ nth_error bound i = Some v)
     /\ nth_error bound n = Some (VText entity_id)
     /\ nth_error bound (n + 1) = Some (VInt (id user))
     /\ List.length bound = n + 2
     /\ (forall updates',
           map fst updates' = map fst updates ->
           map fst (queries (snd (updateDoctor entity_id user updates' w)))
           = map fst (queries (snd (updateDoctor entity_id user updates w)))))
  /\
  ((exists m, In m (medicines (db w))
              /\ pg_key_in entity_id = Some (m_medicine_id m) /\ m_pharmacy_id m = id user) ->
   exists pieces bound,
     queries (snd (updateMedicine entity_id user updates w))
     = (queries w
        ++ [("SELECT * FROM medicines WHERE medicine_id = $1 AND pharmacy_id = $2",
             [VText entity_id; VInt (id user)])]
        ++ [(("UPDATE medicines SET " ++ String.concat ", " pieces
              ++ " WHERE medicine_id = $" ++ Js.show (n + 1)
              ++ " AND pharmacy_id = $" ++ Js.show (n + 2)
              ++ " RETURNING *")%string, bound)])%list
     /\ List.length pieces = n
     /\ (forall i field v,
           nth_error updates i = Some (field, v) ->
           nth_error pieces i = Some (field ++ " = $" ++ Js.show (i + 1))
           /\ nth_error bound i = Some v)
     /\ nth_error bound n = Some (VText entity_id)
     /\ nth_error bound (n + 1) = Some (VInt (id user))
     /\ List.length bound = n + 2
     /\ (forall updates',
           map fst updates' = map fst updates ->
           map fst (queries (snd (updateMedicine entity_id user updates' w)))
           = map fst (queries (snd (updateMedicine entity_id user updates w))))).
Proof.
  intros _ n.
  destruct (setClause_pieces updates) as (pieces & Hset & Hlen & Hpieces).
  destruct (bound_positions updates entity_id (id user)) as (Hvalues & Hentity & Howner & Hbound).
  split; intros Hrow.
  - apply doctor_row_found in Hrow. destruct Hrow as (key & Hkey & Hrow).
    exists pieces, (map snd updates ++ [VText entity_id; VInt (id user)])%list.
    split; [|split; [exact Hlen|split; [|split; [exact Hentity|split; [exact Howner|split; [exact Hbound|]]]]]].
    + rewrite (update_log_doctor _ _ _ _ _ Hkey Hrow).
      unfold doctor_update_text. now rewrite Hset, length_map.
    + intros i field v H. split; [now apply (Hpieces i field v) | now apply (Hvalues i field v)].
    + intros updates' Hkeys.
      rewrite !(update_log_doctor _ _ _ _ _ Hkey Hrow), !map_app. cbn [map fst].
      now rewrite Hkeys.
  - apply medicine_row_found in Hrow. destruct Hrow as (key & Hkey & Hrow).
    exists pieces, (map snd updates ++ [VText entity_id; VInt (id user)])%list.
    split; [|split; [exact Hlen|split; [|split; [exact Hentity|split; [exact Howner|split; [exact Hbound|]]]]]].
    + rewrite (update_log_medicine _ _ _ _ _ Hkey Hrow).
      unfold medicine_update_text. now rewrite Hset, length_map.
    + intros i field v H. split; [now apply (Hpieces i field v) | now apply (Hvalues i field v)].
    + intros updates' Hkeys.
      rewrite !(update_log_medicine _ _ _ _ _ Hkey Hrow), !map_app. cbn [map fst].
      now rewrite Hkeys.
Qed.

(** C9. An update with an empty patch, sent with a token of the owning
    role for a row the caller owns, does not succeed: the statement built
    has nothing between SET and WHERE, its execution raises, and the handler
    answers 500 with the server-error message; the tables are as before. *)
Theorem empty_patch_is_server_error (authorization : option string) (now : Z)
    (entity_id : string) (user : Claims) (w : World) :
  (authMiddleware env (Some "hospital") authorization now = Next user ->
   (exists d, In d (doctors (db w))
              /\ pg_key_in entity_id = Some (d_doctor_id d) /\ d_hospital_id d = id user) ->
   put_doctor env authorization now entity_id [] w
   = (failure 500 "Server error",
      {| db := db w;
         queries :=
           (queries w
            ++ [("SELECT * FROM doctors WHERE doctor_id = $1 AND hospital_id = $2",
                 [VText entity_id; VInt (id user)])]
            ++ [("UPDATE doctors SET  WHERE doctor_id = $1 AND hospital_id = $2 RETURNING *",
                 [VText entity_id; VInt (id user)])])%list |}))
  /\
  (authMiddleware env (Some "pharmacy") authorization now = Next user ->
   (exists m, In m (medicines (db w))
              /\ pg_key_in entity_id = Some (m_medicine_id m) /\ m_pharmacy_id m = id user) ->
   put_medicine env authorization now entity_id [] w
   = (failure 500 "Server error",
      {| db := db w;
         queries :=
           (queries w
            ++ [("SELECT * FROM medicines WHERE medicine_id = $1 AND pharmacy_id = $2",
                 [VText entity_id; VInt (id user)])]
            ++ [("UPDATE medicines SET  WHERE medicine_id = $1 AND pharmacy_id = $2 RETURNING *",
                 [VText entity_id; VInt (id user)])])%list |})).
Proof.
  split; intros Hguard Hrow.
  - apply doctor_row_found in Hrow. destruct Hrow as (key & Hkey & Hrow).
    unfold put_doctor, guarded. rewrite Hguard.
    rewrite (updateDoctor_found _ _ _ _ _ Hkey Hrow). reflexivity.
  - apply medicine_row_found in Hrow. destruct Hrow as (key & Hkey & Hrow).
    unfold put_medicine, guarded. rewrite Hguard.
    rewrite (updateMedicine_found _ _ _ _ _ Hkey Hrow). reflexivity.
Qed.

End DynamicUpdateClaims.

Example update_statement_of_example_patch :
  queries (snd (updateDoctor "1" hospital_7 example_patch example_world))
  = [("SELECT * FROM doctors WHERE doctor_id = $1 AND hospital_id = $2",
      [VText "1"; VInt 7]);
     ("UPDATE doctors SET full_name = $1, is_available = $2 WHERE doctor_id = $3 AND hospital_id = $4 RETURNING *",
      [VText "Dr. AA"; VBool false; VText "1"; VInt 7])].
Proof. reflexivity. Qed.

Lemma dynamic_update_statement_witness :
  (queries (snd (updateDoctor "1" hospital_7 example_patch example_world))
   = [("SELECT * FROM doctors WHERE doctor_id = $1 AND hospital_id = $2",
       [VText "1"; VInt 7]);
      ("UPDATE doctors SET full_name = $1, is_available = $2 WHERE doctor_id = $3 AND hospital_id = $4 RETURNING *",
       [VText "Dr. AA"; VBool false; VText "1"; VInt 7])]
   /\ (forall updates',
         map fst updates' = ["full_name"; "is_available"] ->
         map fst (queries (snd (updateDoctor "1" hospital_7 updates' example_world)))
         = ["SELECT * FROM doctors WHERE doctor_id = $1 AND hospital_id = $2";
            "UPDATE doctors SET full_name = $1, is_available = $2 WHERE doctor_id = $3 AND hospital_id = $4 RETURNING *"]))
  /\
  (queries (snd (updateMedicine "1" pharmacy_3 example_patch example_world))
   = [("SELECT * FROM medicines WHERE medicine_id = $1 AND pharmacy_id = $2",
       [VText "1"; VInt 3]);
      ("UPDATE medicines SET full_name = $1, is_available = $2 WHERE medicine_id = $3 AND pharmacy_id = $4 RETURNING *",
       [VText "Dr. AA"; VBool false; VText "1"; VInt 3])]
   /\ (forall updates',
         map fst updates' = ["full_name"; "is_available"] ->
         map fst (queries (snd (updateMedicine "1" pharmacy_3 updates' example_world)))
         = ["SELECT * FROM medicines WHERE medicine_id = $1 AND pharmacy_id = $2";
            "UPDATE medicines SET full_name = $1, is_available = $2 WHERE medicine_id = $3 AND pharmacy_id = $4 RETURNING *"])).
Proof.
  split.
  - destruct (proj1 (@dynamic_update_statement example_pg "1" hospital_7 example_patch
                       example_world ltac:(discriminate))
                (ex_intro _ dr_a (conj (or_introl eq_refl) (conj eq_refl eq_refl))))
      as (pieces & bound & Hlog & Hpieces & Hnth & Hentity & Howner & Hbound & Htext).
    destruct (Hnth 0 "full_name" (VText "Dr. AA") eq_refl) as [Hp0 Hb0].
    destruct (Hnth 1 "is_available" (VBool false) eq_refl) as [Hp1 Hb1].
    rewrite (two_pieces pieces _ _ Hpieces Hp0 Hp1) in Hlog.
    rewrite (four_entries bound _ _ _ _ Hbound Hb0 Hb1 Hentity Howner) in Hlog.
    split; [exact Hlog|].
    intros updates' Hkeys. rewrite (Htext updates' Hkeys), Hlog. reflexivity.
  - destruct (proj2 (@dynamic_update_statement example_pg "1" pharmacy_3 example_patch
                       example_world ltac:(discriminate))
                (ex_intro _ aspirin (conj (or_introl eq_refl) (conj eq_refl eq_refl))))
      as (pieces & bound & Hlog & Hpieces & Hnth & Hentity & Howner & Hbound & Htext).
    destruct (Hnth 0 "full_name" (VText "Dr. AA") eq_refl) as [Hp0 Hb0].
    destruct (Hnth 1 "is_available" (VBool false) eq_refl) as [Hp1 Hb1].
    rewrite (two_pieces pieces _ _ Hpieces Hp0 Hp1) in Hlog.
    rewrite (four_entries bound _ _ _ _ Hbound Hb0 Hb1 Hentity Howner) in Hlog.
    split; [exact Hlog|].
    intros updates' Hkeys. rewrite (Htext updates' Hkeys), Hlog. reflexivity.
Defined.

Lemma empty_patch_is_server_error_witness :
  put_doctor example_env (Some "Bearer hospital.7") 50 "1" [] example_world
  = (failure 500 "Server error",
     {| db := db example_world;
        queries :=
          [("SELECT * FROM doctors WHERE doctor_id = $1 AND hospital_id = $2",
            [VText "1"; VInt 7]);
           ("UPDATE doctors SET  WHERE doctor_id = $1 AND hospital_id = $2 RETURNING *",
            [VText "1"; VInt 7])] |})
  /\
  put_medicine example_env (Some "Bearer pharmacy.3") 50 "1" [] example_world
  = (failure 500 "Server error",
     {| db := db example_world;
        queries :=
          [("SELECT * FROM medicines WHERE medicine_id = $1 AND pharmacy_id = $2",
            [VText "1"; VInt 3]);
           ("UPDATE medicines SET  WHERE medicine_id = $1 AND pharmacy_id = $2 RETURNING *",
            [VText "1"; VInt 3])] |}).
Proof.
  split.
  - apply (proj1 (@empty_patch_is_server_error example_jwt example_pg example_env
                    (Some "Bearer hospital.7") 50 "1" hospital_7 example_world)).
    + reflexivity.
    + exists dr_a. split; [left; reflexivity | split; reflexivity].
  - apply (proj2 (@empty_patch_is_server_error example_jwt example_pg example_env
                    (Some "Bearer pharmacy.3") 50 "1" pharmacy_3 example_world)).
    + reflexivity.
    + exists aspirin. split; [left; reflexivity | split; reflexivity].
Defined.

(* ================================================================== *)
(** * Accounts: register and login                                     *)
(* ================================================================== *)

Section AccountQueries.

Lemma hd_error_filter {A} (p : A -> bool) (l : list A) :
  hd_error (filter p l) = find p l.
Proof.
  induction l as [|x l IH]; simpl; [reflexivity|].
  destruct (p x); [reflexivity | exact IH].
Qed.

Lemma find_map {A B} (f : A -> B) (p : B -> bool) (l : list A) :
  find p (map f l) = option_map f (find (fun x => p (f x)) l).
Proof.
  induction l as [|x l IH]; simpl; [reflexivity|].
  destruct (p (f x)); [reflexivity | exact IH].
Qed.

(** [email = $1] holds on a column exactly when the column carries the
    text of the parameter. *)
Lemma text_equals_true (col : option string) (email : value) :
  Sql.is_true (text_equals col email) =
  match as_text email with
  | Some e => match col with Some c => String.eqb c e | None => false end
  | None => false
  end.
Proof.
  unfold text_equals, Sql.text_eq.
  destruct col as [c|], (as_text email) as [e|]; simpl; try reflexivity.
  now destruct (String.eqb c e).
Qed.

Lemma by_email_none {A} (col : A -> option string) (email : value) (rows : list A) :
  (forall e, as_text email = Some e -> ~ In (Some e) (map col rows)) ->
  filter (fun r => Sql.is_true (text_equals (col r) email)) rows = [].
Proof.
  intros H. apply filter_none. intros r Hr. rewrite text_equals_true.
  destruct (as_text email) as [e|]; [|reflexivity].
  destruct (col r) as [c|] eqn:E; [|reflexivity].
  destruct (String.eqb_spec c e) as [->|]; [|reflexivity].
  destruct (H e eq_refl). rewrite <- E. now apply in_map.
Qed.

Lemma by_email_some {A} (col : A -> option string) (email : value) (e : string)
    (rows : list A) :
  as_text email = Some e -> In (Some e) (map col rows) ->
  filter (fun r => Sql.is_true (text_equals (col r) email)) rows <> [].
Proof.
  intros He Hin Hnil. apply in_map_iff in Hin. destruct Hin as (r & Hc & Hr).
  assert (Hf : In r (filter (fun r => Sql.is_true (text_equals (col r) email)) rows)).
  { apply filter_In. split; [exact Hr|].
    now rewrite text_equals_true, He, Hc, String.eqb_refl. }
  now rewrite Hnil in Hf.
Qed.

(** The record a login reads is the head of what its SELECT returns. *)
Lemma by_email_head {A} (col hash : A -> option string) (email : value) (e : string)
    (rows : list A) (c : option string * option string) :
  as_text email = Some e ->
  find (fun c => match fst c with Some x => String.eqb x e | None => false end)
       (map (fun r => (col r, hash r)) rows) = Some c ->
  exists r rest,
    filter (fun r => Sql.is_true (text_equals (col r) email)) rows = r :: rest
    /\ hash r = snd c.
Proof.
  intros He Hfind. rewrite find_map in Hfind. cbn [fst] in Hfind.
  rewrite (filter_same _ (fun r => Sql.is_true (text_equals (col r) email))
             (fun r => match col r with Some x => String.eqb x e | None => false end)).
  2:{ intros r. now rewrite text_equals_true, He. }
  rewrite <- hd_error_filter in Hfind.
  destruct (filter _ rows) as [|r rest]; [discriminate|].
  simpl in Hfind. injection Hfind as <-. now exists r, rest.
Qed.

End AccountQueries.

(** Runs a controller body up to its first query. *)
Ltac run_handler :=
  unfold try_catch, bind, pool_query, reading, ret, throw,
    users_by_email, hospitals_by_email, pharmacies_by_email;
  cbv beta iota zeta.

Section AccountClaims.

Context {jwt : JwtLib} {bcrypt : Bcrypt} {pg : Postgres}.
Variable env : Env.

Lemma emails_user (d : Db) : emails role_user d = map u_email (users d).
Proof. unfold emails, credentials. now rewrite map_map. Qed.

Lemma emails_hospital (d : Db) : emails role_hospital d = map h_email (hospitals d).
Proof. unfold emails, credentials. now rewrite map_map. Qed.

Lemma emails_pharmacy (d : Db) : emails role_pharmacy d = map p_email (pharmacies d).
Proof. unfold emails, credentials. now rewrite map_map. Qed.

Lemma login_unknown_email (role : Role) (body : Body) (now : Z) (w : World) :
  (forall e, as_text (get "email" body) = Some e -> ~ In (Some e) (emails role (db w))) ->
  fst (login env role body now w) = failure 401 "Invalid credentials"
  /\ db (snd (login env role body now w)) = db w.
Proof.
  intros H. destruct role; unfold login.
  - rewrite emails_user in H. unfold loginUser. run_handler.
    now rewrite (by_email_none u_email _ _ H).
  - rewrite emails_hospital in H. unfold hospitalLogin. run_handler.
    now rewrite (by_email_none h_email _ _ H).
  - rewrite emails_pharmacy in H. unfold pharmacyLogin. run_handler.
    now rewrite (by_email_none p_email _ _ H).
Qed.

Lemma login_wrong_password (role : Role) (body : Body) (now : Z) (w : World)
    (e pw h : string) (stored : option string) :
  as_text (get "email" body) = Some e ->
  record_of role e (db w) = Some (stored, Some h) ->
  get "password" body = VText pw ->
  bcrypt_compare pw h = false ->
  fst (login env role body now w) = failure 401 "Invalid credentials"
  /\ db (snd (login env role body now w)) = db w.
Proof.
  intros He Hrec Hpw Hcmp. unfold record_of in Hrec.
  destruct role; unfold login; cbn [credentials] in Hrec.
  - destruct (by_email_head u_email u_password_hash _ _ _ _ He Hrec) as (r & rest & Hsel & Hh).
    unfold loginUser. run_handler. rewrite Hsel, Hpw. cbn [snd] in Hh.
    unfold compare_password. rewrite Hh. run_handler. now rewrite Hcmp.
  - destruct (by_email_head h_email h_password_hash _ _ _ _ He Hrec) as (r & rest & Hsel & Hh).
    unfold hospitalLogin. run_handler. rewrite Hsel, Hpw. cbn [snd] in Hh.
    unfold compare_password. rewrite Hh. run_handler. now rewrite Hcmp.
  - destruct (by_email_head p_email p_password_hash _ _ _ _ He Hrec) as (r & rest & Hsel & Hh).
    unfold pharmacyLogin. run_handler. rewrite Hsel, Hpw. cbn [snd] in Hh.
    unfold compare_password. rewrite Hh. run_handler. now rewrite Hcmp.
Qed.


Lemma register_conflict (role : Role) (body : Body) (salt : string) (now : Z)
    (w : World) (e : string) :
  as_text (get "email" body) = Some e ->
  In (Some e) (emails role (db w)) ->
  fst (register env role body salt now w) = failure 400 (conflict_message role)
  /\ db (snd (register env role body salt now w)) = db w.
Proof.
  intros He Hin. destruct role; unfold register, conflict_message.
  - rewrite emails_user in Hin. assert (H := by_email_some u_email _ _ _ He Hin).
    unfold registerUser. run_handler.
    destruct (filter _ (users (db w))); [contradiction | now split].
  - rewrite emails_hospital in Hin. assert (H := by_email_some h_email _ _ _ He Hin).
    unfold hospitalRegister. run_handler.
    destruct (filter _ (hospitals (db w))); [contradiction | now split].
  - rewrite emails_pharmacy in Hin. assert (H := by_email_some p_email _ _ _ He Hin).
    unfold pharmacyRegister. run_handler.
    destruct (filter _ (pharmacies (db w))); [contradiction | now split].
Qed.

Lemma register_fresh (role : Role) (body : Body) (salt : string) (now : Z)
    (w : World) (pw : string) :
  (forall e, as_text (get "email" body) = Some e -> ~ In (Some e) (emails role (db w))) ->
  get "password" body = VText pw ->
  status (fst (register env role body salt now w)) = 201
  /\ success (fst (register env role body salt now w)) = true
  /\ emails role (db (snd (register env role body salt now w)))
     = (emails role (db w) ++ [as_text (get "email" body)])%list
  /\ forall other, other <> role ->
       credentials other (db (snd (register env role body salt now w)))
       = credentials other (db w).
Proof.
  intros H Hpw. destruct role; unfold register.
  - rewrite emails_user in H. unfold registerUser. run_handler.
    rewrite (by_email_none u_email _ _ H), Hpw. cbn.
    split; [reflexivity | split; [reflexivity | split]].
    + now rewrite !map_app.
    + intros [] Hne; [contradiction | reflexivity | reflexivity].
  - rewrite emails_hospital in H. unfold hospitalRegister. run_handler.
    rewrite (by_email_none h_email _ _ H), Hpw. cbn.
    split; [reflexivity | split; [reflexivity | split]].
    + now rewrite !map_app.
    + intros [] Hne; [reflexivity | contradiction | reflexivity].
  - rewrite emails_pharmacy in H. unfold pharmacyRegister. run_handler.
    rewrite (by_email_none p_email _ _ H), Hpw. cbn.
    split; [reflexivity | split; [reflexivity | split]].
    + now rewrite !map_app.
    + intros [] Hne; [reflexivity | reflexivity | contradiction].
Qed.

(** C4. For each role, registering with an email a record of the role's
    own table carries is answered 400 with the role's conflict message and
    leaves the database as it was; registering with an email the role's own
    table does not carry succeeds with 201 and adds the email to that table
    only, whatever the other roles' tables hold, so that a second
    registration with it in the same role is a conflict while a
    registration with it in another role, whose table does not carry it,
    succeeds. *)
Theorem register_conflict_is_per_role (role : Role) (body : Body)
    (salt salt' : string) (now now' : Z) (w : World) (e pw : string) :
  as_text (get "email" body) = Some e ->
  get "password" body = VText pw ->
  (In (Some e) (emails role (db w)) ->
   fst (register env role body salt now w) = failure 400 (conflict_message role)
   /\ db (snd (register env role body salt now w)) = db w)
  /\
  (~ In (Some e) (emails role (db w)) ->
   let w1 := snd (register env role body salt now w) in
   status (fst (register env role body salt now w)) = 201
   /\ emails role (db w1) = (emails role (db w) ++ [Some e])%list
   /\ (forall other, other <> role -> emails other (db w1) = emails other (db w))
   /\ fst (register env role body salt' now' w1) = failure 400 (conflict_message role)
   /\ db (snd (register env role body salt' now' w1)) = db w1
   /\ (forall other, other <> role ->
         ~ In (Some e) (emails other (db w)) ->
         status (fst (register env other body salt' now' w1)) = 201)).
Proof.
  intros He Hpw. split.
  - intros Hin. now apply register_conflict with (e := e).
  - intros Hfresh w1.
    assert (Hfresh' : forall x, as_text (get "email" body) = Some x ->
                                ~ In (Some x) (emails role (db w))).
    { intros x Hx. rewrite He in Hx. now injection Hx as <-. }
    destruct (register_fresh role body salt now w pw Hfresh' Hpw)
      as (Hstatus & _ & Hemails & Hframe).
    fold w1 in Hemails, Hframe. rewrite He in Hemails.
    assert (Hothers : forall other, other <> role ->
                                    emails other (db w1) = emails other (db w)).
    { intros other Hne. unfold emails. now rewrite Hframe. }
    split; [exact Hstatus | split; [exact Hemails | split; [exact Hothers|]]].
    assert (Hin : In (Some e) (emails role (db w1))).
    { rewrite Hemails. apply in_or_app. right. now left. }
    destruct (register_conflict role body salt' now' w1 e He Hin) as [E1 E2].
    split; [exact E1 | split; [exact E2|]].
    intros other Hne Hother.
    apply (register_fresh other body salt' now' w1 pw); [|exact Hpw].
    intros x Hx. rewrite He in Hx. injection Hx as <-.
    now rewrite (Hothers other Hne).
Qed.

End AccountClaims.



Lemma register_conflict_is_per_role_witness :
  (fst (register example_env role_hospital registration "salt" 50 example_world)
   = failure 400 "Hospital already exists"
   /\ db (snd (register example_env role_hospital registration "salt" 50 example_world))
      = db example_world)
  /\
  (let w1 := snd (register example_env role_user registration "salt" 50 example_world) in
   status (fst (register example_env role_user registration "salt" 50 example_world)) = 201
   /\ emails role_user (db w1) = (emails role_user (db example_world) ++ [Some "a@x.com"])%list
   /\ (forall other, other <> role_user ->
         emails other (db w1) = emails other (db example_world))
   /\ fst (register example_env role_user registration "pepper" 60 w1)
      = failure 400 (conflict_message role_user)
   /\ db (snd (register example_env role_user registration "pepper" 60 w1)) = db w1
   /\ (forall other, other <> role_user ->
         ~ In (Some "a@x.com") (emails other (db example_world)) ->
         status (fst (register example_env other registration "pepper" 60 w1)) = 201)).
Proof.
  split.
  - apply (proj1 (@register_conflict_is_per_role example_jwt example_bcrypt example_pg
                    example_env role_hospital registration "salt" "pepper" 50 60
                    example_world "a@x.com" "p1" eq_refl eq_refl)).
    left. reflexivity.
  - apply (proj2 (@register_conflict_is_per_role example_jwt example_bcrypt example_pg
                    example_env role_user registration "salt" "pepper" 50 60
                    example_world "a@x.com" "p1" eq_refl eq_refl)).
    intros [].
Defined.

(** The same email registered once under each role. *)
Example same_email_under_three_roles :
  let w0 := {| db := empty_db; queries := [] |} in
  let first := register example_env role_user registration "s" 1 w0 in
  let second := register example_env role_user registration "s" 2 (snd first) in
  let third := register example_env role_hospital registration "s" 3 (snd second) in
  let fourth := register example_env role_pharmacy registration "s" 4 (snd third) in
  map (fun r => status (fst r)) [first; second; third; fourth] = [201; 400; 201; 201].
Proof. reflexivity. Qed.

(* ================================================================== *)
(** * Search                                                           *)
(* ================================================================== *)

Section SearchLemmas.

Lemma is_true_and3 (a b : Sql.tv) :
  Sql.is_true (Sql.and3 a b) = Sql.is_true a && Sql.is_true b.
Proof. now destruct a as [[|]|], b as [[|]|]. Qed.

Lemma is_true_or3 (a b : Sql.tv) :
  Sql.is_true (Sql.or3 a b) = Sql.is_true a || Sql.is_true b.
Proof. now destruct a as [[|]|], b as [[|]|]. Qed.

Lemma is_true_ilike (col : option string) (pattern : string) :
  Sql.is_true (Sql.ilike col pattern) =
  match col with
  | Some s => Sql.like (Sql.lower pattern) (Sql.lower s)
  | None => false
  end.
Proof.
  destruct col as [s|]; simpl; [|reflexivity].
  now destruct (Sql.like _ _).
Qed.

(** What one [if (filter) { ... }] block adds to the WHERE clause. *)
Lemma and_where_condition {R} (filter : option string) (clause : nat -> string)
    (test : string -> R -> Sql.tv) (q : Select R) (r : R) :
  Sql.is_true (condition (and_where filter clause test q) r) =
  Sql.is_true (condition q r)
  && match Js.present filter with
     | None => true
     | Some v => Sql.is_true (test (Sql.wrap v) r)
     end.
Proof.
  unfold and_where. destruct (Js.present filter) as [v|]; simpl.
  - apply is_true_and3.
  - now rewrite andb_true_r.
Qed.

Lemma filter_holds_ilike (filter col : option string) :
  filter_holds filter col =
  match Js.present filter with
  | None => true
  | Some v => Sql.is_true (Sql.ilike col (Sql.wrap v))
  end.
Proof.
  unfold filter_holds. destruct (Js.present filter) as [v|]; [|reflexivity].
  now rewrite is_true_ilike.
Qed.

(** The WHERE clause the doctor search builds selects the rows of
    [doctor_selected]. *)
Lemma searchDoctors_condition (query : Params) (r : Doctor * Hospital) :
  Sql.is_true (condition (searchDoctors_select query) r) = doctor_selected query r.
Proof.
  unfold searchDoctors_select, doctor_selected. cbv zeta.
  rewrite !and_where_condition, !filter_holds_ilike. cbn [condition].
  do 3 f_equal.
  unfold doctor_eligible, Sql.eq_true.
  now destruct (d_is_available (fst r)) as [[|]|], (h_is_active (snd r)) as [[|]|].
Qed.

(** The WHERE clause the medicine search builds selects the rows of
    [medicine_selected]. *)
Lemma searchMedicines_condition (query : Params) (r : Medicine * Pharmacy) :
  Sql.is_true (condition (searchMedicines_select query) r) = medicine_selected query r.
Proof.
  unfold searchMedicines_select, medicine_selected. cbv zeta.
  rewrite !and_where_condition, !filter_holds_ilike. cbn [condition].
  do 3 f_equal.
  - unfold medicine_eligible, Sql.eq_true, Sql.gt_zero.
    destruct (m_is_available (fst r)) as [[|]|], (m_stock_quantity (fst r)) as [z|],
      (p_is_active (snd r)) as [[|]|]; simpl; try reflexivity;
      now destruct (0 <? z)%Z.
  - destruct (Js.present (prop "medicine_name" query)) as [v|]; [|reflexivity].
    apply is_true_or3.
Qed.

(** On a value without [%], [_] and backslash, a filter holds exactly when
    the value is a case-insensitive substring of the column. *)
Lemma filter_holds_plain (filter col : option string) :
  (forall v, Js.present filter = Some v -> plain v = true) ->
  (filter_holds filter col = true <-> filter_holds_substring filter col).
Proof.
  intros Hplain. unfold filter_holds, filter_holds_substring.
  destruct (Js.present filter) as [v|]; [|tauto].
  destruct col as [s|]; [|split; [discriminate | contradiction]].
  apply ilike_wrap_plain. now apply Hplain.
Qed.

Lemma filter_holds_extends (query' query : Params) (key : string) (col : option string) :
  extends query' query ->
  filter_holds (prop key query') col = true ->
  filter_holds (prop key query) col = true.
Proof.
  intros Hext H. destruct (Hext key) as [E|E].
  - unfold filter_holds. now rewrite E.
  - now rewrite <- E.
Qed.

Lemma doctor_selected_extends (query' query : Params) (r : Doctor * Hospital) :
  extends query' query ->
  doctor_selected query' r = true -> doctor_selected query r = true.
Proof.
  intros Hext. unfold doctor_selected. rewrite !andb_true_iff.
  intros [[[He H1] H2] H3].
  repeat split; eauto using filter_holds_extends.
Qed.

Lemma medicine_selected_extends (query' query : Params) (r : Medicine * Pharmacy) :
  extends query' query ->
  medicine_selected query' r = true -> medicine_selected query r = true.
Proof.
  intros Hext. unfold medicine_selected. rewrite !andb_true_iff, !orb_true_iff.
  intros [[[He [H1|H1]] H2] H3];
    repeat split; eauto using filter_holds_extends.
Qed.

Lemma filter_holds_absent (filter col : option string) :
  Js.present filter = None -> filter_holds filter col = true.
Proof. intros E. unfold filter_holds. now rewrite E. Qed.

(** The join pairs every doctor with the hospitals that carry its
    [hospital_id]. *)
Lemma doctors_join_hospitals_In (d : Db) (doc : Doctor) (h : Hospital) :
  In (doc, h) (doctors_join_hospitals d) <->
  In doc (doctors d) /\ In h (hospitals d) /\ d_hospital_id doc = h_hospital_id h.
Proof.
  unfold doctors_join_hospitals. rewrite in_flat_map. split.
  - intros (doc' & Hdoc & Hin). apply in_map_iff in Hin.
    destruct Hin as (h' & E & Hh). injection E as -> ->.
    apply filter_In in Hh. destruct Hh as [Hh Hid].
    apply Z.eqb_eq in Hid. now repeat split.
  - intros (Hdoc & Hh & Hid). exists doc. split; [exact Hdoc|].
    apply in_map, filter_In. split; [exact Hh | now apply Z.eqb_eq].
Qed.

Lemma medicines_join_pharmacies_In (d : Db) (med : Medicine) (p : Pharmacy) :
  In (med, p) (medicines_join_pharmacies d) <->
  In med (medicines d) /\ In p (pharmacies d) /\ m_pharmacy_id med = p_pharmacy_id p.
Proof.
  unfold medicines_join_pharmacies. rewrite in_flat_map. split.
  - intros (med' & Hmed & Hin). apply in_map_iff in Hin.
    destruct Hin as (p' & E & Hp). injection E as -> ->.
    apply filter_In in Hp. destruct Hp as [Hp Hid].
    apply Z.eqb_eq in Hid. now repeat split.
  - intros (Hmed & Hp & Hid). exists med. split; [exact Hmed|].
    apply in_map, filter_In. split; [exact Hp | now apply Z.eqb_eq].
Qed.

End SearchLemmas.

Section SearchClaims.

Context {collation : Sql.Collation}.

Lemma searchDoctors_run (query : Params) (w : World) :
  fst (searchDoctors query w) = found (doctor_rows query (db w))
  /\ db (snd (searchDoctors query w)) = db w.
Proof.
  unfold searchDoctors, doctor_rows. run_handler. cbn [fst snd db].
  now rewrite (filter_same _ _ _ _ (searchDoctors_condition query)).
Qed.

Lemma searchMedicines_run (query : Params) (w : World) :
  fst (searchMedicines query w) = found (medicine_rows query (db w))
  /\ db (snd (searchMedicines query w)) = db w.
Proof.
  unfold searchMedicines, medicine_rows. run_handler. cbn [fst snd db].
  now rewrite (filter_same _ _ _ _ (searchMedicines_condition query)).
Qed.

Lemma doctor_rows_perm (query : Params) (d : Db) :
  Permutation (doctor_rows query d)
    (map doctor_row (filter (doctor_selected query) (doctors_join_hospitals d))).
Proof. apply Permutation_map, order_by_perm. Qed.

Lemma medicine_rows_perm (query : Params) (d : Db) :
  Permutation (medicine_rows query d)
    (map medicine_row (filter (medicine_selected query) (medicines_join_pharmacies d))).
Proof. apply Permutation_map, order_by_perm. Qed.

Lemma doctor_rows_ascending (query : Params) (d : Db) :
  ascending (fun row => d_full_name (dr_doctor row)) (doctor_rows query d).
Proof.
  apply ascending_map with (key := fun r => d_full_name (fst r)).
  - reflexivity.
  - apply order_by_ascending.
Qed.

Lemma medicine_rows_ascending (query : Params) (d : Db) :
  ascending (fun row => m_medicine_name (mr_medicine row)) (medicine_rows query d).
Proof.
  apply ascending_map with (key := fun r => m_medicine_name (fst r)).
  - reflexivity.
  - apply order_by_ascending.
Qed.

Lemma doctor_eligible_iff (r : Doctor * Hospital) :
  doctor_eligible r = true <->
  d_is_available (fst r) = Some true /\ h_is_active (snd r) = Some true.
Proof.
  unfold doctor_eligible.
  destruct (d_is_available (fst r)) as [[|]|], (h_is_active (snd r)) as [[|]|];
    split; try discriminate; try tauto; intros [? ?]; discriminate.
Qed.

Lemma medicine_eligible_iff (r : Medicine * Pharmacy) :
  medicine_eligible r = true <->
  m_is_available (fst r) = Some true
  /\ (exists q, m_stock_quantity (fst r) = Some q /\ (0 < q)%Z)
  /\ p_is_active (snd r) = Some true.
Proof.
  unfold medicine_eligible.
  destruct (m_is_available (fst r)) as [[|]|], (m_stock_quantity (fst r)) as [z|],
    (p_is_active (snd r)) as [[|]|];
    try (split; [discriminate | intros (? & (? & ? & ?) & ?); discriminate]).
  rewrite Z.ltb_lt. split.
  - intros H. repeat split. now exists z.
  - intros (_ & (q & E & H) & _). now injection E as ->.
Qed.

Lemma doctor_rows_In (query : Params) (d : Db) (row : DoctorRow) :
  In row (doctor_rows query d) <->
  exists doc h,
    row = doctor_row (doc, h)
    /\ In doc (doctors d) /\ In h (hospitals d)
    /\ d_hospital_id doc = h_hospital_id h
    /\ d_is_available doc = Some true /\ h_is_active h = Some true
    /\ filter_holds (prop "specialization" query) (d_specialization doc) = true
    /\ filter_holds (prop "city" query) (h_city h) = true
    /\ filter_holds (prop "hospital_name" query) (h_hospital_name h) = true.
Proof.
  unfold doctor_rows. rewrite in_map_iff. split.
  - intros ([doc h] & <- & Hin).
    apply (Permutation_in _ (order_by_perm _ _ _)) in Hin.
    apply filter_In in Hin. destruct Hin as [Hjoin Hsel].
    apply doctors_join_hospitals_In in Hjoin. destruct Hjoin as (Hd & Hh & Hid).
    unfold doctor_selected in Hsel. rewrite !andb_true_iff in Hsel.
    destruct Hsel as [[[He H1] H2] H3].
    apply doctor_eligible_iff in He. destruct He as [Ha Hact].
    exists doc, h. now repeat split.
  - intros (doc & h & -> & Hd & Hh & Hid & Ha & Hact & H1 & H2 & H3).
    exists (doc, h). split; [reflexivity|].
    apply (Permutation_in _ (Permutation_sym (order_by_perm _ _ _))).
    apply filter_In. split.
    + now apply doctors_join_hospitals_In.
    + unfold doctor_selected. rewrite !andb_true_iff. repeat split; try assumption.
      now apply doctor_eligible_iff.
Qed.

Lemma medicine_rows_In (query : Params) (d : Db) (row : MedicineRow) :
  In row (medicine_rows query d) <->
  exists med p,
    row = medicine_row (med, p)
    /\ In med (medicines d) /\ In p (pharmacies d)
    /\ m_pharmacy_id med = p_pharmacy_id p
    /\ m_is_available med = Some true
    /\ (exists q, m_stock_quantity med = Some q /\ (0 < q)%Z)
    /\ p_is_active p = Some true
    /\ (filter_holds (prop "medicine_name" query) (m_medicine_name med) = true
        \/ filter_holds (prop "medicine_name" query) (m_generic_name med) = true)
    /\ filter_holds (prop "city" query) (p_city p) = true
    /\ filter_holds (prop "category" query) (m_category med) = true.
Proof.
  unfold medicine_rows. rewrite in_map_iff. split.
  - intros ([med p] & <- & Hin).
    apply (Permutation_in _ (order_by_perm _ _ _)) in Hin.
    apply filter_In in Hin. destruct Hin as [Hjoin Hsel].
    apply medicines_join_pharmacies_In in Hjoin. destruct Hjoin as (Hm & Hp & Hid).
    unfold medicine_selected in Hsel. rewrite !andb_true_iff, orb_true_iff in Hsel.
    destruct Hsel as [[[He H1] H2] H3].
    apply medicine_eligible_iff in He. destruct He as (Ha & Hq & Hact).
    exists med, p. now repeat split.
  - intros (med & p & -> & Hm & Hp & Hid & Ha & Hq & Hact & H1 & H2 & H3).
    exists (med, p). split; [reflexivity|].
    apply (Permutation_in _ (Permutation_sym (order_by_perm _ _ _))).
    apply filter_In. split.
    + now apply medicines_join_pharmacies_In.
    + unfold medicine_selected. rewrite !andb_true_iff, orb_true_iff.
      repeat split; try assumption.
      now apply medicine_eligible_iff.
Qed.

(** C5 (as amended). [searchDoctors] answers 200 with the rows of the join
    of doctors and hospitals on [hospital_id] for which [is_available] and
    the hospital's [is_active] are true and every present (non-empty)
    filter [v] holds on its column under [ILIKE '%v%'], the filters being
    conjoined and an absent filter restricting nothing; for a filter value
    without [%], [_] and backslash this is a case-insensitive substring
    match.  The rows come in ascending order of the doctor's full name, and
    when no row qualifies the answer is still a success, with the empty
    list. *)
Theorem searchDoctors_result (query : Params) (w : World) :
  exists rows,
    fst (searchDoctors query w) = found rows
    /\ db (snd (searchDoctors query w)) = db w
    /\ Permutation rows
         (map doctor_row (filter (doctor_selected query) (doctors_join_hospitals (db w))))
    /\ ascending (fun row => d_full_name (dr_doctor row)) rows
    /\ (forall row,
          In row rows <->
          exists doc h,
            row = doctor_row (doc, h)
            /\ In doc (doctors (db w)) /\ In h (hospitals (db w))
            /\ d_hospital_id doc = h_hospital_id h
            /\ d_is_available doc = Some true /\ h_is_active h = Some true
            /\ filter_holds (prop "specialization" query) (d_specialization doc) = true
            /\ filter_holds (prop "city" query) (h_city h) = true
            /\ filter_holds (prop "hospital_name" query) (h_hospital_name h) = true)
    /\ (forall key col,
          (forall v, Js.present (prop key query) = Some v -> plain v = true) ->
          (filter_holds (prop key query) col = true
           <-> filter_holds_substring (prop key query) col))
    /\ ((forall r, In r (doctors_join_hospitals (db w)) -> doctor_selected query r = false) ->
        fst (searchDoctors query w) = found []).
Proof.
  destruct (searchDoctors_run query w) as [Hres Hdb].
  exists (doctor_rows query (db w)).
  split; [exact Hres | split; [exact Hdb | split; [apply doctor_rows_perm|]]].
  split; [apply doctor_rows_ascending | split; [apply doctor_rows_In | split]].
  - intros key col. apply filter_holds_plain.
  - intros Hnone. rewrite Hres. unfold doctor_rows.
    now rewrite (filter_none _ _ _ Hnone).
Qed.

(** C6 (as amended). [searchMedicines] answers 200 with the rows of the
    join of medicines and pharmacies on [pharmacy_id] for which
    [is_available] is true, [stock_quantity] is positive and the pharmacy's
    [is_active] is true, for which a present [medicine_name] filter holds
    under [ILIKE '%v%'] on the medicine's name or on its generic name, and
    for which the present [city] and [category] filters hold on their
    columns; for a filter value without [%], [_] and backslash the match is
    a case-insensitive substring match.  The rows come in ascending order of
    the medicine's name. *)
Theorem searchMedicines_result (query : Params) (w : World) :
  exists rows,
    fst (searchMedicines query w) = found rows
    /\ db (snd (searchMedicines query w)) = db w
    /\ Permutation rows
         (map medicine_row
            (filter (medicine_selected query) (medicines_join_pharmacies (db w))))
    /\ ascending (fun row => m_medicine_name (mr_medicine row)) rows
    /\ (forall row,
          In row rows <->
          exists med p,
            row = medicine_row (med, p)
            /\ In med (medicines (db w)) /\ In p (pharmacies (db w))
            /\ m_pharmacy_id med = p_pharmacy_id p
            /\ m_is_available med = Some true
            /\ (exists q, m_stock_quantity med = Some q /\ (0 < q)%Z)
            /\ p_is_active p = Some true
            /\ (filter_holds (prop "medicine_name" query) (m_medicine_name med) = true
                \/ filter_holds (prop "medicine_name" query) (m_generic_name med) = true)
            /\ filter_holds (prop "city" query) (p_city p) = true
            /\ filter_holds (prop "category" query) (m_category med) = true)
    /\ (forall key col,
          (forall v, Js.present (prop key query) = Some v -> plain v = true) ->
          (filter_holds (prop key query) col = true
           <-> filter_holds_substring (prop key query) col)).
Proof.
  destruct (searchMedicines_run query w) as [Hres Hdb].
  exists (medicine_rows query (db w)).
  split; [exact Hres | split; [exact Hdb | split; [apply medicine_rows_perm|]]].
  split; [apply medicine_rows_ascending | split; [apply medicine_rows_In|]].
  intros key col. apply filter_holds_plain.
Qed.

Lemma narrowed_rows {R A} (row : R -> A) (key : R -> option string)
    (p q : R -> bool) (l : list R) :
  (forall x, p x = true -> q x = true) ->
  exists rest,
    Permutation (map row (Sql.order_by key (filter q l)))
                (map row (Sql.order_by key (filter p l)) ++ rest)%list.
Proof.
  intros Hpq. destruct (filter_narrow R p q l Hpq) as (rest & Hperm).
  exists (map row rest). rewrite <- map_app. apply Permutation_map.
  eapply Permutation_trans; [apply order_by_perm|].
  eapply Permutation_trans; [exact Hperm|].
  apply Permutation_app_tail, Permutation_sym, order_by_perm.
Qed.

Lemma no_filters_doctors (query : Params) (r : Doctor * Hospital) :
  (forall key, Js.present (prop key query) = None) ->
  doctor_selected query r = doctor_eligible r.
Proof.
  intros H. unfold doctor_selected.
  now rewrite !filter_holds_absent, !andb_true_r by apply H.
Qed.

Lemma no_filters_medicines (query : Params) (r : Medicine * Pharmacy) :
  (forall key, Js.present (prop key query) = None) ->
  medicine_selected query r = medicine_eligible r.
Proof.
  intros H. unfold medicine_selected.
  now rewrite !filter_holds_absent, !andb_true_r by apply H.
Qed.

(** C7 (as amended). For both searches over a fixed store: without any
    filter the answer holds the eligible rows, in ascending order of the
    name; when the filters of one query include those of another, every row
    of its answer is a row of the other's answer, with its multiplicity (the
    answer narrows, though not always strictly); and when no row qualifies
    the answer is a success with the empty list. *)
Theorem search_filters_narrow (query query' : Params) (w : World) :
  (exists rows rows',
     fst (searchDoctors query w) = found rows
     /\ fst (searchDoctors query' w) = found rows'
     /\ ((forall key, Js.present (prop key query) = None) ->
         Permutation rows
           (map doctor_row (filter doctor_eligible (doctors_join_hospitals (db w))))
         /\ ascending (fun row => d_full_name (dr_doctor row)) rows)
     /\ (extends query' query ->
         (exists rest, Permutation rows (rows' ++ rest)%list)
         /\ forall row, In row rows' -> In row rows)
     /\ ((forall r, In r (doctors_join_hospitals (db w)) ->
                    doctor_selected query r = false) ->
         rows = []))
  /\
  (exists rows rows',
     fst (searchMedicines query w) = found rows
     /\ fst (searchMedicines query' w) = found rows'
     /\ ((forall key, Js.present (prop key query) = None) ->
         Permutation rows
           (map medicine_row (filter medicine_eligible (medicines_join_pharmacies (db w))))
         /\ ascending (fun row => m_medicine_name (mr_medicine row)) rows)
     /\ (extends query' query ->
         (exists rest, Permutation rows (rows' ++ rest)%list)
         /\ forall row, In row rows' -> In row rows)
     /\ ((forall r, In r (medicines_join_pharmacies (db w)) ->
                    medicine_selected query r = false) ->
         rows = [])).
Proof.
  split.
  - exists (doctor_rows query (db w)), (doctor_rows query' (db w)).
    split; [apply searchDoctors_run | split; [apply searchDoctors_run|]].
    split; [|split].
    + intros Hnone. split; [|apply doctor_rows_ascending].
      rewrite <- (filter_same _ _ _ _ (fun r => no_filters_doctors query r Hnone)).
      apply doctor_rows_perm.
    + intros Hext.
      destruct (narrowed_rows doctor_row (fun r => d_full_name (fst r))
                  (doctor_selected query') (doctor_selected query)
                  (doctors_join_hospitals (db w))
                  (fun r => doctor_selected_extends query' query r Hext))
        as (rest & Hperm).
      split; [now exists rest|].
      intros row Hrow. apply (Permutation_in _ (Permutation_sym Hperm)).
      apply in_or_app. now left.
    + intros Hnone. unfold doctor_rows. now rewrite (filter_none _ _ _ Hnone).
  - exists (medicine_rows query (db w)), (medicine_rows query' (db w)).
    split; [apply searchMedicines_run | split; [apply searchMedicines_run|]].
    split; [|split].
    + intros Hnone. split; [|apply medicine_rows_ascending].
      rewrite <- (filter_same _ _ _ _ (fun r => no_filters_medicines query r Hnone)).
      apply medicine_rows_perm.
    + intros Hext.
      destruct (narrowed_rows medicine_row (fun r => m_medicine_name (fst r))
                  (medicine_selected query') (medicine_selected query)
                  (medicines_join_pharmacies (db w))
                  (fun r => medicine_selected_extends query' query r Hext))
        as (rest & Hperm).
      split; [now exists rest|].
      intros row Hrow. apply (Permutation_in _ (Permutation_sym Hperm)).
      apply in_or_app. now left.
    + intros Hnone. unfold medicine_rows. now rewrite (filter_none _ _ _ Hnone).
Qed.

End SearchClaims.

(** Refutes [H : text = pre ++ v ++ post] for concrete [text] and [v] by
    trying every position. *)
Ltac refute_substring H :=
  repeat (let c := fresh "c" in
          match type of H with
          | _ = (?pre ++ _)%string =>
              is_var pre; destruct pre as [|c pre]; simpl in H;
              try discriminate H; injection H as _ H
          end).

Example cardio_finds_dr_a :
  data (fst (@searchDoctors bytewise [("specialization", "cardio")] example_world))
  = Some [doctor_row (dr_a, city_hospital)].
Proof. reflexivity. Qed.

Example unmatched_filter_is_empty_success :
  fst (@searchDoctors bytewise [("specialization", "xyz")] example_world) = found [].
Proof. reflexivity. Qed.

Lemma underscore_not_in_pune : ~ ci_substring "_" "Pune".
Proof.
  intros (pre & post & H).
  change (Sql.lower "Pune") with "pune" in H.
  change (Sql.lower "_") with "_" in H.
  refute_substring H.
Qed.

Lemma underscore_not_in_aspirin :
  ~ ci_substring "_" "Aspirin" /\ ~ ci_substring "_" "Acetylsalicylic acid".
Proof.
  split; intros (pre & post & H).
  - change (Sql.lower "Aspirin") with "aspirin" in H.
    change (Sql.lower "_") with "_" in H.
    refute_substring H.
  - change (Sql.lower "Acetylsalicylic acid") with "acetylsalicylic acid" in H.
    change (Sql.lower "_") with "_" in H.
    refute_substring H.
Qed.

(** The city filter [_] selects the doctor of a hospital in Pune, though
    [_] is no substring of [Pune]: the row is in the answer and is not
    selected in the words of the specification. *)
Lemma searchDoctors_substring_counterexample :
  let query := [("city", "_")] in
  let row := doctor_row (dr_a, city_hospital) in
  data (fst (@searchDoctors bytewise query example_world))
  = Some [row; doctor_row (dr_b, lake_hospital)]
  /\ ~ exists r, row = doctor_row r /\ doctor_selected_by_substring query r.
Proof.
  split; [reflexivity|].
  intros (r & E & _ & _ & _ & Hcity & _).
  apply (f_equal dr_city) in E.
  change (Some "Pune" = h_city (snd r)) in E. rewrite <- E in Hcity.
  exact (underscore_not_in_pune Hcity).
Qed.

(** The name filter [_] selects Aspirin, though [_] is a substring neither
    of its name nor of its generic name. *)
Lemma searchMedicines_substring_counterexample :
  let query := [("medicine_name", "_")] in
  let row := medicine_row (aspirin, corner_pharmacy) in
  data (fst (@searchMedicines bytewise query example_world))
  = Some [row; medicine_row (brufen, station_pharmacy)]
  /\ ~ exists r, row = medicine_row r /\ medicine_selected_by_substring query r.
Proof.
  split; [reflexivity|].
  intros (r & E & _ & _ & _ & Hname & _).
  apply (f_equal mr_medicine) in E.
  change (aspirin = fst r) in E. rewrite <- E in Hname.
  destruct Hname as [H|H].
  - exact (proj1 underscore_not_in_aspirin H).
  - exact (proj2 underscore_not_in_aspirin H).
Qed.

(** Adding the specialization filter [o] to the empty query leaves the
    answer as it was: the answer with the filter is no strict subset of the
    answer without it. *)
Lemma search_narrowing_not_strict_counterexample :
  let query := [] in
  let query' := [("specialization", "o")] in
  let rows := [doctor_row (dr_a, city_hospital); doctor_row (dr_b, lake_hospital)] in
  Js.present (prop "specialization" query) = None
  /\ Js.present (prop "specialization" query') = Some "o"
  /\ data (fst (@searchDoctors bytewise query example_world)) = Some rows
  /\ data (fst (@searchDoctors bytewise query' example_world)) = Some rows
  /\ ~ strictly_within rows rows.
Proof.
  split; [reflexivity | split; [reflexivity | split; [reflexivity | split; [reflexivity|]]]].
  intros (_ & x & Hin & Hout). exact (Hout Hin).
Qed.

Lemma searchDoctors_result_witness :
  (filter_holds (prop "specialization" [("specialization", "cardio")])
     (d_specialization dr_a) = true
   <-> filter_holds_substring (prop "specialization" [("specialization", "cardio")])
         (d_specialization dr_a))
  /\ fst (@searchDoctors bytewise [("specialization", "xyz")] example_world) = found [].
Proof.
  split.
  - destruct (@searchDoctors_result bytewise [("specialization", "cardio")] example_world)
      as (rows & _ & _ & _ & _ & _ & Hplain & _).
    apply (Hplain "specialization" (d_specialization dr_a)).
    intros v E. injection E as <-. reflexivity.
  - destruct (@searchDoctors_result bytewise [("specialization", "xyz")] example_world)
      as (rows & _ & _ & _ & _ & _ & _ & Hempty).
    apply Hempty. intros r Hr. cbn in Hr.
    destruct Hr as [<-|[<-|[]]]; reflexivity.
Defined.

Lemma searchMedicines_result_witness :
  filter_holds (prop "medicine_name" [("medicine_name", "IBU")]) (m_generic_name brufen) = true
  <-> filter_holds_substring (prop "medicine_name" [("medicine_name", "IBU")])
        (m_generic_name brufen).
Proof.
  destruct (@searchMedicines_result bytewise [("medicine_name", "IBU")] example_world)
    as (rows & _ & _ & _ & _ & _ & Hplain).
  apply (Hplain "medicine_name" (m_generic_name brufen)).
  intros v E. injection E as <-. reflexivity.
Defined.

Lemma extends_empty (query' : Params) : extends query' [].
Proof. intros key. left. reflexivity. Defined.

Lemma search_filters_narrow_witness :
  (exists rows rows',
     fst (@searchDoctors bytewise [] example_world) = found rows
     /\ fst (@searchDoctors bytewise [("city", "pune")] example_world) = found rows'
     /\ Permutation rows
          (map doctor_row
             (filter doctor_eligible (doctors_join_hospitals (db example_world))))
     /\ ascending (fun row => d_full_name (dr_doctor row)) rows
     /\ (exists rest, Permutation rows (rows' ++ rest)%list)
     /\ forall row, In row rows' -> In row rows)
  /\ fst (@searchDoctors bytewise [("specialization", "xyz")] example_world) = found []
  /\ (exists rows rows',
        fst (@searchMedicines bytewise [] example_world) = found rows
        /\ fst (@searchMedicines bytewise [("category", "gesic")] example_world) = found rows'
        /\ Permutation rows
             (map medicine_row
                (filter medicine_eligible (medicines_join_pharmacies (db example_world))))
        /\ ascending (fun row => m_medicine_name (mr_medicine row)) rows
        /\ (exists rest, Permutation rows (rows' ++ rest)%list)
        /\ forall row, In row rows' -> In row rows)
  /\ fst (@searchMedicines bytewise [("city", "delhi")] example_world) = found [].
Proof.
  split; [|split; [|split]].
  - destruct (proj1 (@search_filters_narrow bytewise [] [("city", "pune")] example_world))
      as (rows & rows' & H1 & H2 & Hall & Hnarrow & _).
    exists rows, rows'.
    destruct (Hall (fun key => eq_refl)) as [Hperm Hasc].
    destruct (Hnarrow (extends_empty _)) as [Hrest Hin].
    repeat (split; [assumption|]). assumption.
  - destruct (proj1 (@search_filters_narrow bytewise [("specialization", "xyz")] []
                       example_world))
      as (rows & rows' & H1 & _ & _ & _ & Hempty).
    rewrite H1, Hempty; [reflexivity|].
    intros r Hr. cbn in Hr. destruct Hr as [<-|[<-|[]]]; reflexivity.
  - destruct (proj2 (@search_filters_narrow bytewise [] [("category", "gesic")] example_world))
      as (rows & rows' & H1 & H2 & Hall & Hnarrow & _).
    exists rows, rows'.
    destruct (Hall (fun key => eq_refl)) as [Hperm Hasc].
    destruct (Hnarrow (extends_empty _)) as [Hrest Hin].
    repeat (split; [assumption|]). assumption.
  - destruct (proj2 (@search_filters_narrow bytewise [("city", "delhi")] []
                       example_world))
      as (rows & rows' & H1 & _ & _ & _ & Hempty).
    rewrite H1, Hempty; [reflexivity|].
    intros r Hr. cbn in Hr. destruct Hr as [<-|[<-|[]]]; reflexivity.
Defined.

(* ================================================================== *)
(** * Further properties: accounts                                     *)
(* ================================================================== *)

Section AccountExtras.

Context {jwt : JwtLib} {bcrypt : Bcrypt} {pg : Postgres}.
Variable env : Env.

(** The three login handlers are one procedure, the table apart. *)
Lemma login_as_outcome (role : Role) (body : Body) (now : Z) (w : World) :
  login env role body now w
  = (login_outcome env role now (get "password" body)
       (found_accounts role (get "email" body) (db w)),
     {| db := db w;
        queries := (queries w ++ [(login_select role, [get "email" body])])%list |}).
Proof.
  destruct role; unfold login, loginUser, hospitalLogin, pharmacyLogin, found_accounts;
    run_handler; cbn [login_select role_name];
    match goal with |- context [filter ?p ?l] => destruct (filter p l) as [|r rest] end;
    cbn [map login_outcome]; try reflexivity;
    unfold compare_password;
    destruct (get "password" body);
    try match goal with
    | |- context [u_password_hash ?x] => destruct (u_password_hash x)
    | |- context [h_password_hash ?x] => destruct (h_password_hash x)
    | |- context [p_password_hash ?x] => destruct (p_password_hash x)
    end;
    run_handler; try reflexivity;
    destruct (bcrypt_compare _ _); reflexivity.
Qed.

Lemma found_accounts_null (role : Role) (email : value) (d : Db) :
  as_text email = None -> found_accounts role email d = [].
Proof.
  intros H.
  destruct role; unfold found_accounts, users_by_email, hospitals_by_email,
    pharmacies_by_email;
    rewrite by_email_none; try reflexivity; intros e He; congruence.
Qed.

Lemma head_hash {A} (col hash : A -> option string) (account : A -> Account)
    (email : value) (e : string) (rows : list A) :
  as_text email = Some e ->
  option_map snd
    (hd_error (map (fun r => (account r, hash r))
                 (filter (fun r => Sql.is_true (text_equals (col r) email)) rows)))
  = option_map snd
      (find (fun c => match fst c with Some x => String.eqb x e | None => false end)
         (map (fun r => (col r, hash r)) rows)).
Proof.
  intros He. rewrite find_map. cbn [fst].
  rewrite (filter_same _ (fun r => Sql.is_true (text_equals (col r) email))
             (fun r => match col r with Some x => String.eqb x e | None => false end)).
  2:{ intros r. now rewrite text_equals_true, He. }
  rewrite <- hd_error_filter.
  now destruct (filter _ rows).
Qed.

(** The record a login reads is the first record with the email. *)
Lemma found_accounts_head (role : Role) (email : value) (e : string) (d : Db) :
  as_text email = Some e ->
  option_map snd (hd_error (found_accounts role email d))
  = option_map snd (record_of role e d).
Proof.
  intros He. unfold record_of.
  destruct role; unfold found_accounts, credentials, users_by_email, hospitals_by_email,
    pharmacies_by_email; now apply head_hash.
Qed.

Lemma found_accounts_In (role : Role) (email : value) (d : Db)
    (account : Account) (hash : option string) :
  In (account, hash) (found_accounts role email d) ->
  In (account_id account) (keys role d)
  /\ account_email account = as_text email.
Proof.
  assert (E : forall col : option string,
             Sql.is_true (text_equals col email) = true -> col = as_text email).
  { intros col. rewrite text_equals_true.
    destruct (as_text email) as [e|]; [|discriminate].
    destruct col as [c|]; [|discriminate].
    intros H. apply String.eqb_eq in H. now subst. }
  destruct role; unfold found_accounts, keys, users_by_email, hospitals_by_email,
    pharmacies_by_email; rewrite in_map_iff;
    intros (r & Hr & Hin); injection Hr as <- _;
    apply filter_In in Hin; destruct Hin as [Hin Heq];
    unfold user_account, hospital_account, pharmacy_account;
    cbn [account_id account_email];
    (split; [now apply in_map | now apply E]).
Qed.

(** X1. A login is answered 200 exactly when the first record of the
    role's table with the email of the request stores a hash that
    [bcrypt.compare] accepts for the password of the request, a string;
    every other login is answered 401 [Invalid credentials] or 500.  The
    account of a successful login is a record of the table with that email,
    and the token is the one [generateToken] makes for its key and the
    role.  No login changes the database. *)
Theorem login_succeeds_only_with_password (role : Role) (body : Body) (now : Z)
    (w : World) :
  let r := fst (login env role body now w) in
  db (snd (login env role body now w)) = db w
  /\ (status r = 200
      \/ r = failure 401 "Invalid credentials"
      \/ r = failure 500 "Server error")
  /\ (status r = 200 <->
      exists e stored h pw,
        as_text (get "email" body) = Some e
        /\ record_of role e (db w) = Some (stored, Some h)
        /\ get "password" body = VText pw
        /\ bcrypt_compare pw h = true)
  /\ (status r = 200 ->
      exists account,
        data r = Some (account,
                       generateToken env (account_id account) (role_name role) now)
        /\ In (account_id account) (keys role (db w))
        /\ account_email account = as_text (get "email" body)).
Proof.
  cbv zeta. rewrite login_as_outcome. cbn [fst snd db].
  split; [reflexivity|].
  assert (Hin := found_accounts_In role (get "email" body) (db w)).
  destruct (as_text (get "email" body)) as [e|] eqn:He.
  - assert (Hhead := found_accounts_head role _ e (db w) He).
    destruct (found_accounts role (get "email" body) (db w)) as [|[account hash] rest].
    + cbn. split; [auto|]. split; [|discriminate]. split; [discriminate|].
      intros (e' & stored & h & pw & E & Hrec & _).
      injection E as <-. rewrite Hrec in Hhead. discriminate.
    + cbn [login_outcome hd_error option_map snd] in *.
      destruct (get "password" body) as [| |z|pw];
        try (cbn; split; [auto|]; split; [|discriminate]; split; [discriminate|];
             intros (_ & _ & _ & pw' & _ & _ & E & _); discriminate).
      destruct hash as [h|].
      * destruct (bcrypt_compare pw h) eqn:Hcmp.
        -- cbn. split; [auto|]. split; [split; [intros _|reflexivity]|].
           ++ destruct (record_of role e (db w)) as [[stored h']|] eqn:Hrec;
                [|discriminate].
              cbn in Hhead. injection Hhead as <-. now exists e, stored, h, pw.
           ++ intros _. exists account. split; [reflexivity|].
              apply (Hin account (Some h)). now left.
        -- cbn. split; [auto|]. split; [|discriminate]. split; [discriminate|].
           intros (e' & stored & h' & pw' & E & Hrec & Hpw & Hcmp').
           injection E as <-. injection Hpw as <-. rewrite Hrec in Hhead.
           cbn in Hhead. injection Hhead as <-. congruence.
      * cbn. split; [auto|]. split; [|discriminate]. split; [discriminate|].
        intros (e' & stored & h' & pw' & E & Hrec & _).
        injection E as <-. rewrite Hrec in Hhead. discriminate.
  - rewrite found_accounts_null by exact He. cbn.
    split; [auto|]. split; [|discriminate]. split; [discriminate|].
    intros (e & _ & _ & _ & E & _). discriminate.
Qed.

Lemma by_email_absent {A} (col : A -> option string) (email : value) (rows : list A) :
  filter (fun r => Sql.is_true (text_equals (col r) email)) rows = [] ->
  forall e, as_text email = Some e -> ~ In (Some e) (map col rows).
Proof.
  intros Hnil e He Hin. now apply (by_email_some col email e rows He Hin).
Qed.

(** What a registration does to the database: nothing, unless it is
    answered 201, and then one record is added to the role's table, with the
    next key of its sequence, the email of the request and the hash of its
    password. *)
Lemma register_effect (role : Role) (body : Body) (salt : string) (now : Z) (w : World) :
  let r := register env role body salt now w in
  (db (snd r) = db w
   /\ (status (fst r) = 400 \/ status (fst r) = 500)
   /\ data (fst r) = None)
  \/ (exists pw name text,
        get "password" body = VText pw
        /\ (forall e, as_text (get "email" body) = Some e ->
                      ~ In (Some e) (emails role (db w)))
        /\ fst r = {| status := 201; success := true;
                      message := Some text; count := None;
                      data := Some ({| account_id := (last_key role (db w) + 1)%Z;
                                       account_name := name;
                                       account_email := as_text (get "email" body) |},
                                    generateToken env (last_key role (db w) + 1)%Z
                                      (role_name role) now) |}
        /\ credentials role (db (snd r))
           = (credentials role (db w)
              ++ [(as_text (get "email" body), Some (bcrypt_hash pw salt))])%list
        /\ keys role (db (snd r)) = (keys role (db w) ++ [(last_key role (db w) + 1)%Z])%list
        /\ last_key role (db (snd r)) = (last_key role (db w) + 1)%Z
        /\ (forall other, other <> role ->
             credentials other (db (snd r)) = credentials other (db w)
             /\ keys other (db (snd r)) = keys other (db w)
             /\ last_key other (db (snd r)) = last_key other (db w))
        /\ found_accounts role (get "email" body) (db (snd r))
           = match as_text (get "email" body) with
             | Some _ =>
                 [({| account_id := (last_key role (db w) + 1)%Z;
                      account_name := name;
                      account_email := as_text (get "email" body) |},
                   Some (bcrypt_hash pw salt))]
             | None => []
             end).
Proof.
  cbv zeta.
  destruct role; unfold register, registerUser, hospitalRegister, pharmacyRegister;
    run_handler;
    match goal with |- context [filter ?p ?l] => destruct (filter p l) as [|r0 rest] eqn:Hsel end;
    try (left; cbn; now auto);
    cbn [List.length Nat.ltb Nat.leb];
    unfold hash_password;
    destruct (get "password" body) as [| |z|pw];
    try (left; cbn; now auto);
    right; exists pw; do 2 eexists; cbn;
    (split; [reflexivity|]);
    (split; [unfold emails; cbn [credentials]; rewrite map_map; cbn [fst];
             now apply by_email_absent|]);
    (split; [reflexivity|]);
    rewrite !map_app; cbn;
    (split; [reflexivity|]); (split; [reflexivity|]); (split; [reflexivity|]);
    (split; [intros [] Hne; try contradiction; now repeat split|]);
    rewrite filter_app, Hsel; cbn [filter app];
    rewrite text_equals_true;
    cbn [u_email h_email p_email];
    (destruct (as_text (get "email" body)) as [e|]; [|reflexivity]);
    cbn iota beta; now rewrite String.eqb_refl.
Qed.

(** X2. Registering and then logging in with the same email and password
    succeeds and identifies the account just created, provided the email is
    new to the role's table, the password is a string, and [bcrypt.compare]
    accepts the password against the hash [bcrypt.hash] made of it. *)
Theorem register_then_login (role : Role) (body : Body) (salt : string)
    (now now' : Z) (w : World) (e pw : string) :
  as_text (get "email" body) = Some e ->
  get "password" body = VText pw ->
  ~ In (Some e) (emails role (db w)) ->
  bcrypt_compare pw (bcrypt_hash pw salt) = true ->
  let r1 := register env role body salt now w in
  let r2 := login env role body now' (snd r1) in
  status (fst r1) = 201
  /\ status (fst r2) = 200
  /\ (exists account,
        data (fst r1) = Some (account, generateToken env (account_id account)
                                         (role_name role) now)
        /\ data (fst r2) = Some (account, generateToken env (account_id account)
                                            (role_name role) now')
        /\ account_email account = Some e)
  /\ db (snd r2) = db (snd r1).
Proof.
  intros He Hpw Hfresh Hcmp. cbv zeta.
  assert (Hfresh' : forall x, as_text (get "email" body) = Some x ->
                              ~ In (Some x) (emails role (db w))).
  { intros x Hx. rewrite He in Hx. now injection Hx as <-. }
  destruct (register_fresh env role body salt now w pw Hfresh' Hpw) as (Hstatus & _).
  destruct (register_effect role body salt now w)
    as [(_ & [H|H] & _)|(pw' & name & text & Hpw' & _ & Hres & _ & _ & _ & _ & Hfound)];
    try (rewrite Hstatus in H; discriminate).
  rewrite Hpw in Hpw'. injection Hpw' as <-.
  rewrite login_as_outcome. cbn [fst snd db].
  rewrite Hfound, He, Hpw. cbn [login_outcome]. rewrite Hcmp.
  split; [exact Hstatus | split; [reflexivity | split; [|reflexivity]]].
  rewrite He in Hres.
  exists {| account_id := (last_key role (db w) + 1)%Z;
            account_name := name;
            account_email := Some e |}.
  split; [rewrite Hres; reflexivity | split; reflexivity].
Qed.

Lemma known_emails_In (role : Role) (d : Db) (x : string) :
  In x (known_emails role d) <-> In (Some x) (emails role d).
Proof.
  unfold known_emails. rewrite in_flat_map. split.
  - intros ([y|] & Hin & Hx); [|contradiction].
    destruct Hx as [->|[]]. exact Hin.
  - intros Hin. exists (Some x). split; [exact Hin | now left].
Qed.

Lemma known_emails_app (l : list (option string)) (e : option string) :
  flat_map (fun e => match e with Some x => [x] | None => [] end) (l ++ [e])%list
  = (flat_map (fun e => match e with Some x => [x] | None => [] end) l
     ++ match e with Some x => [x] | None => [] end)%list.
Proof.
  rewrite flat_map_app. cbn. now rewrite app_nil_r.
Qed.

Lemma NoDup_snoc {A} (l : list A) (x : A) :
  NoDup l -> ~ In x l -> NoDup (l ++ [x])%list.
Proof.
  intros Hl Hx. apply NoDup_app; [exact Hl | repeat constructor; intros [] | ].
  intros y Hy [<-|[]]. contradiction.
Qed.

(** X3. Registration keeps the keys of every account table distinct and
    within what the table's sequence has given, whatever the request and
    its outcome; the key of a new account is one no record had. *)
Theorem register_keeps_keys_fresh (role : Role) (body : Body) (salt : string)
    (now : Z) (w : World) :
  (forall table, keys_fresh table (db w)) ->
  (forall table, keys_fresh table (db (snd (register env role body salt now w))))
  /\ forall account token,
       data (fst (register env role body salt now w)) = Some (account, token) ->
       ~ In (account_id account) (keys role (db w))
       /\ In (account_id account) (keys role (db (snd (register env role body salt now w)))).
Proof.
  intros Hfresh.
  destruct (register_effect role body salt now w)
    as [(Hdb & _ & Hnone)
       |(pw & name & text & _ & _ & Hres & _ & Hkeys & Hlast & Hframe & _)].
  - rewrite Hdb, Hnone. split; [exact Hfresh | discriminate].
  - split.
    + intros table.
      assert (Hdec : table = role \/ table <> role)
        by (destruct table, role; (now left) || (right; discriminate)).
      destruct (Hfresh table) as [Hnodup Hbound].
      destruct Hdec as [->|Hne].
      * unfold keys_fresh. rewrite Hkeys, Hlast. split.
        -- apply NoDup_snoc; [exact Hnodup|].
           intros Hin. apply Hbound in Hin. lia.
        -- intros k Hk. apply in_app_or in Hk. destruct Hk as [Hk|[<-|[]]]; [|lia].
           apply Hbound in Hk. lia.
      * destruct (Hframe table Hne) as (_ & Hk & Hl).
        unfold keys_fresh. rewrite Hk, Hl. now split.
    + intros account token Hdata. rewrite Hres in Hdata. cbn in Hdata.
      injection Hdata as <- _. cbn [account_id]. split.
      * intros Hin. apply (proj2 (Hfresh role)) in Hin. lia.
      * rewrite Hkeys. apply in_or_app. right. now left.
Qed.

(** The register handlers are their two parts run one after the other. *)
Lemma register_served_alone (role : Role) (body : Body) (salt : string) (now : Z)
    (w : World) :
  register_alone env role body salt now w = register env role body salt now w.
Proof.
  destruct role; reflexivity.
Qed.

Lemma register_alone_keeps_emails_unique (role table : Role) (body : Body)
    (salt : string) (now : Z) (w : World) :
  emails_unique table (db w) ->
  emails_unique table (db (snd (register_alone env role body salt now w))).
Proof.
  intros Hunique. rewrite register_served_alone.
  destruct (register_effect role body salt now w)
    as [(Hdb & _)
       |(pw & name & text & _ & Habsent & _ & Hcred & _ & _ & Hframe & _)].
  - now rewrite Hdb.
  - assert (Hdec : table = role \/ table <> role)
      by (destruct table, role; (now left) || (right; discriminate)).
    destruct Hdec as [->|Hne].
    + unfold emails_unique, known_emails, emails in *. rewrite Hcred, map_app.
      cbn [map fst]. rewrite known_emails_app.
      destruct (as_text (get "email" body)) as [e|].
      * apply NoDup_snoc; [exact Hunique|].
        intros Hin. apply (known_emails_In role (db w) e) in Hin.
        now apply (Habsent e).
      * now rewrite app_nil_r.
    + destruct (Hframe table Hne) as (Hc & _).
      unfold emails_unique, known_emails, emails in *. now rewrite Hc.
Qed.

Lemma twice_not_unique (l : list (option string)) (e : string) :
  ~ NoDup (flat_map (fun e => match e with Some x => [x] | None => [] end)
             (l ++ [Some e; Some e])%list).
Proof.
  rewrite flat_map_app. cbn [flat_map app]. intros H.
  apply NoDup_app_remove_l in H. inversion H as [|x rest Hin _]; subst.
  apply Hin. now left.
Qed.

(** What two overlapping registrations of one new email do. *)
Lemma register_overlapping_same_email (role : Role) (body body' : Body)
    (salt salt' : string) (now now' : Z) (w : World) (e pw pw' : string) :
  as_text (get "email" body) = Some e ->
  as_text (get "email" body') = Some e ->
  get "password" body = VText pw ->
  get "password" body' = VText pw' ->
  ~ In (Some e) (emails role (db w)) ->
  let r := register_overlapping env role body salt now body' salt' now' w in
  status (fst (fst r)) = 201
  /\ status (snd (fst r)) = 201
  /\ emails role (db (snd r)) = (emails role (db w) ++ [Some e; Some e])%list.
Proof.
  intros He He' Hpw Hpw' Hnew. cbv zeta.
  assert (H : forall x, as_text (get "email" body) = Some x ->
                        ~ In (Some x) (emails role (db w))).
  { intros x Hx. rewrite He in Hx. now injection Hx as <-. }
  assert (H' : forall x, as_text (get "email" body') = Some x ->
                         ~ In (Some x) (emails role (db w))).
  { intros x Hx. rewrite He' in Hx. now injection Hx as <-. }
  destruct role; unfold register_overlapping, served_overlapping, resume.
  - rewrite emails_user in H, H'. rewrite emails_user.
    unfold registerUser_awaited. cbn [until_await after_await]. run_handler.
    cbn [db]. rewrite (by_email_none u_email _ _ H), (by_email_none u_email _ _ H').
    rewrite Hpw, Hpw'. cbn.
    split; [reflexivity | split; [reflexivity|]].
    rewrite !map_app, <- app_assoc. cbn. now rewrite He, He', map_map.
  - rewrite emails_hospital in H, H'. rewrite emails_hospital.
    unfold hospitalRegister_awaited. cbn [until_await after_await]. run_handler.
    cbn [db]. rewrite (by_email_none h_email _ _ H), (by_email_none h_email _ _ H').
    rewrite Hpw, Hpw'. cbn.
    split; [reflexivity | split; [reflexivity|]].
    rewrite !map_app, <- app_assoc. cbn. now rewrite He, He', map_map.
  - rewrite emails_pharmacy in H, H'. rewrite emails_pharmacy.
    unfold pharmacyRegister_awaited. cbn [until_await after_await]. run_handler.
    cbn [db]. rewrite (by_email_none p_email _ _ H), (by_email_none p_email _ _ H').
    rewrite Hpw, Hpw'. cbn.
    split; [reflexivity | split; [reflexivity|]].
    rewrite !map_app, <- app_assoc. cbn. now rewrite He, He', map_map.
Qed.


End AccountExtras.

(* ================================================================== *)
(** * Further properties: doctors and medicines                        *)
(* ================================================================== *)

Section InventoryExtras.

Context {pg : Postgres} {schema : Schema} {collation : Sql.Collation}.

Lemma deleteDoctor_run (doctor_id : string) (user : Claims) (w : World) :
  let log := (queries w
              ++ [("DELETE FROM doctors WHERE doctor_id = $1 AND hospital_id = $2 RETURNING *",
                   [VText doctor_id; VInt (id user)])])%list in
  deleteDoctor doctor_id user w
  = match pg_key_in doctor_id with
    | Some key =>
        (match filter (doctor_matches key (id user)) (doctors (db w)) with
         | [] => failure 404 "Doctor not found"
         | _ :: _ => {| status := 200; success := true;
                        message := Some "Doctor deleted successfully";
                        count := None; data := None |}
         end,
         {| db := with_doctors
                    (filter (fun r => negb (doctor_matches key (id user) r))
                       (doctors (db w))) (db w);
            queries := log |})
    | None => (failure 500 "Server error", {| db := db w; queries := log |})
    end.
Proof.
  cbv zeta. unfold deleteDoctor, delete_doctors. run_handler.
  destruct (pg_key_in doctor_id) as [key|]; [|reflexivity].
  now destruct (filter (doctor_matches key (id user)) (doctors (db w))).
Qed.

Lemma deleteMedicine_run (medicine_id : string) (user : Claims) (w : World) :
  let log := (queries w
              ++ [("DELETE FROM medicines WHERE medicine_id = $1 AND pharmacy_id = $2 RETURNING *",
                   [VText medicine_id; VInt (id user)])])%list in
  deleteMedicine medicine_id user w
  = match pg_key_in medicine_id with
    | Some key =>
        (match filter (medicine_matches key (id user)) (medicines (db w)) with
         | [] => failure 404 "Medicine not found"
         | _ :: _ => {| status := 200; success := true;
                        message := Some "Medicine deleted successfully";
                        count := None; data := None |}
         end,
         {| db := with_medicines
                    (filter (fun r => negb (medicine_matches key (id user) r))
                       (medicines (db w))) (db w);
            queries := log |})
    | None => (failure 500 "Server error", {| db := db w; queries := log |})
    end.
Proof.
  cbv zeta. unfold deleteMedicine, delete_medicines. run_handler.
  destruct (pg_key_in medicine_id) as [key|]; [|reflexivity].
  now destruct (filter (medicine_matches key (id user)) (medicines (db w))).
Qed.

Lemma doctor_matches_iff (key hospital_id : Z) (d : Doctor) :
  doctor_matches key hospital_id d = true
  <-> d_doctor_id d = key /\ d_hospital_id d = hospital_id.
Proof.
  unfold doctor_matches. now rewrite andb_true_iff, !Z.eqb_eq.
Qed.

Lemma medicine_matches_iff (key pharmacy_id : Z) (m : Medicine) :
  medicine_matches key pharmacy_id m = true
  <-> m_medicine_id m = key /\ m_pharmacy_id m = pharmacy_id.
Proof.
  unfold medicine_matches. now rewrite andb_true_iff, !Z.eqb_eq.
Qed.

(** The same with the key as what the key type has read. *)
Lemma doctor_matches_some (key hospital_id : Z) (d : Doctor) :
  doctor_matches key hospital_id d = true
  <-> Some key = Some (d_doctor_id d) /\ d_hospital_id d = hospital_id.
Proof.
  rewrite doctor_matches_iff. split.
  - intros [<- E]. now split.
  - intros [E1 E2]. split; congruence.
Qed.

Lemma medicine_matches_some (key pharmacy_id : Z) (m : Medicine) :
  medicine_matches key pharmacy_id m = true
  <-> Some key = Some (m_medicine_id m) /\ m_pharmacy_id m = pharmacy_id.
Proof.
  rewrite medicine_matches_iff. split.
  - intros [<- E]. now split.
  - intros [E1 E2]. split; congruence.
Qed.

Lemma filter_nonempty_iff {A} (p : A -> bool) (l : list A) :
  filter p l <> [] <-> exists x, In x l /\ p x = true.
Proof.
  split.
  - destruct (filter p l) as [|x rest] eqn:E; [congruence|]. intros _.
    exists x. apply filter_In. rewrite E. now left.
  - intros (x & Hx & Hp) E.
    assert (Hin : In x (filter p l)) by now apply filter_In.
    now rewrite E in Hin.
Qed.

Lemma in_kept {A} (p : A -> bool) (l : list A) (x : A) :
  In x (filter (fun r => negb (p r)) l) <-> In x l /\ p x = false.
Proof.
  rewrite filter_In, negb_true_iff. reflexivity.
Qed.

(** X5. A delete removes the rows that carry both the key read from the
    path segment and the caller as owner, and nothing else: the other rows
    of the table stay, in their order, and the other tables are as before.
    It is answered 200 when there was such a row, 404 when the key type
    accepts the segment and there was none, and 500, with nothing removed,
    when the key type rejects the segment. *)
Theorem delete_removes_the_owned_row_only (entity_id : string) (user : Claims) (w : World) :
  (let r := deleteDoctor entity_id user w in
   doctors (db (snd r))
   = match pg_key_in entity_id with
     | Some key => filter (fun d => negb (doctor_matches key (id user) d)) (doctors (db w))
     | None => doctors (db w)
     end
   /\ (forall d, In d (doctors (db (snd r))) <->
                 In d (doctors (db w))
                 /\ ~ (pg_key_in entity_id = Some (d_doctor_id d) /\ d_hospital_id d = id user))
   /\ same_but_doctors (db w) (db (snd r))
   /\ (status (fst r) = 200 <->
       exists d, In d (doctors (db w))
                 /\ pg_key_in entity_id = Some (d_doctor_id d) /\ d_hospital_id d = id user)
   /\ (fst r = failure 500 "Server error" <-> pg_key_in entity_id = None)
   /\ (status (fst r) = 200
       \/ fst r = failure 404 "Doctor not found"
       \/ fst r = failure 500 "Server error"))
  /\
  (let r := deleteMedicine entity_id user w in
   medicines (db (snd r))
   = match pg_key_in entity_id with
     | Some key => filter (fun m => negb (medicine_matches key (id user) m)) (medicines (db w))
     | None => medicines (db w)
     end
   /\ (forall m, In m (medicines (db (snd r))) <->
                 In m (medicines (db w))
                 /\ ~ (pg_key_in entity_id = Some (m_medicine_id m) /\ m_pharmacy_id m = id user))
   /\ same_but_medicines (db w) (db (snd r))
   /\ (status (fst r) = 200 <->
       exists m, In m (medicines (db w))
                 /\ pg_key_in entity_id = Some (m_medicine_id m) /\ m_pharmacy_id m = id user)
   /\ (fst r = failure 500 "Server error" <-> pg_key_in entity_id = None)
   /\ (status (fst r) = 200
       \/ fst r = failure 404 "Medicine not found"
       \/ fst r = failure 500 "Server error")).
Proof.
  split; cbv zeta.
  - rewrite deleteDoctor_run. cbv zeta.
    destruct (pg_key_in entity_id) as [key|] eqn:Hkey;
      cbn [fst snd db doctors with_doctors].
    + split; [reflexivity | split; [|split; [reflexivity|]]].
      * intros d. rewrite in_kept, <- (doctor_matches_some key).
        now destruct (doctor_matches key (id user) d); intuition congruence.
      * assert (H := filter_nonempty_iff (doctor_matches key (id user)) (doctors (db w))).
        destruct (filter (doctor_matches key (id user)) (doctors (db w))) as [|x rest].
        -- split; [split; [discriminate|] | split; [split; discriminate | right; now left]].
           intros Hex. exfalso. apply (proj2 H); [|reflexivity].
           destruct Hex as (d & Hd & Hm). exists d. split; [exact Hd|].
           now apply doctor_matches_some.
        -- split; [split; [intros _ | reflexivity]
                  | split; [split; discriminate | now left]].
           destruct (proj1 H ltac:(discriminate)) as (d & Hd & Hm).
           exists d. split; [exact Hd | now apply doctor_matches_some].
    + split; [reflexivity | split; [|split; [now destruct (db w)|]]].
      * intros d. split; [intros Hd; split; [exact Hd | intros [E _]; discriminate E] | now intros [Hd _]].
      * split; [split; [discriminate | intros (d & _ & E & _); discriminate E]|].
        split; [now split | right; now right].
  - rewrite deleteMedicine_run. cbv zeta.
    destruct (pg_key_in entity_id) as [key|] eqn:Hkey;
      cbn [fst snd db medicines with_medicines].
    + split; [reflexivity | split; [|split; [reflexivity|]]].
      * intros m. rewrite in_kept, <- (medicine_matches_some key).
        now destruct (medicine_matches key (id user) m); intuition congruence.
      * assert (H := filter_nonempty_iff (medicine_matches key (id user)) (medicines (db w))).
        destruct (filter (medicine_matches key (id user)) (medicines (db w))) as [|x rest].
        -- split; [split; [discriminate|] | split; [split; discriminate | right; now left]].
           intros Hex. exfalso. apply (proj2 H); [|reflexivity].
           destruct Hex as (m & Hm & Hmm). exists m. split; [exact Hm|].
           now apply medicine_matches_some.
        -- split; [split; [intros _ | reflexivity]
                  | split; [split; discriminate | now left]].
           destruct (proj1 H ltac:(discriminate)) as (m & Hm & Hmm).
           exists m. split; [exact Hm | now apply medicine_matches_some].
    + split; [reflexivity | split; [|split; [now destruct (db w)|]]].
      * intros m. split; [intros Hm; split; [exact Hm | intros [E _]; discriminate E] | now intros [Hm _]].
      * split; [split; [discriminate | intros (m & _ & E & _); discriminate E]|].
        split; [now split | right; now right].
Qed.

Lemma delete_removes_rows (entity_id : string) (user : Claims) (w : World) :
  (forall d, In d (doctors (db (snd (deleteDoctor entity_id user w)))) <->
             In d (doctors (db w))
             /\ ~ (pg_key_in entity_id = Some (d_doctor_id d) /\ d_hospital_id d = id user))
  /\ (forall m, In m (medicines (db (snd (deleteMedicine entity_id user w)))) <->
                In m (medicines (db w))
                /\ ~ (pg_key_in entity_id = Some (m_medicine_id m)
                      /\ m_pharmacy_id m = id user)).
Proof.
  rewrite deleteDoctor_run, deleteMedicine_run. cbv zeta.
  destruct (pg_key_in entity_id) as [key|] eqn:Hkey;
    cbn [snd db doctors medicines with_doctors with_medicines].
  - split; intros x; rewrite in_kept.
    + rewrite <- (doctor_matches_some key).
      now destruct (doctor_matches key (id user) x); intuition congruence.
    + rewrite <- (medicine_matches_some key).
      now destruct (medicine_matches key (id user) x); intuition congruence.
  - split; intros x;
      (split; [intros Hx; split; [exact Hx | intros [E _]; discriminate E] | now intros [Hx _]]).
Qed.

(** A row a delete has removed carried the key of the path and the
    caller as owner. *)
Lemma removed_doctor_matched (entity_id : string) (user : Claims) (w : World) (d : Doctor) :
  In d (doctors (db w)) ->
  ~ In d (doctors (db (snd (deleteDoctor entity_id user w)))) ->
  pg_key_in entity_id = Some (d_doctor_id d) /\ d_hospital_id d = id user.
Proof.
  intros Hin Hout.
  assert (Hdec : (pg_key_in entity_id = Some (d_doctor_id d) /\ d_hospital_id d = id user)
                 \/ ~ (pg_key_in entity_id = Some (d_doctor_id d)
                       /\ d_hospital_id d = id user)).
  { destruct (pg_key_in entity_id) as [k|]; [|right; intros [E _]; discriminate E].
    destruct (Z.eq_dec k (d_doctor_id d)) as [Ek|Hne]; [|right; intros [E _]; congruence].
    destruct (Z.eq_dec (d_hospital_id d) (id user)) as [E|Hne];
      [left; split; congruence | right; now intros [_ E]]. }
  destruct Hdec as [Hyes|Hno]; [exact Hyes|].
  exfalso. apply Hout. apply (proj1 (delete_removes_rows entity_id user w)). now split.
Qed.

Lemma removed_medicine_matched (entity_id : string) (user : Claims) (w : World)
    (m : Medicine) :
  In m (medicines (db w)) ->
  ~ In m (medicines (db (snd (deleteMedicine entity_id user w)))) ->
  pg_key_in entity_id = Some (m_medicine_id m) /\ m_pharmacy_id m = id user.
Proof.
  intros Hin Hout.
  assert (Hdec : (pg_key_in entity_id = Some (m_medicine_id m) /\ m_pharmacy_id m = id user)
                 \/ ~ (pg_key_in entity_id = Some (m_medicine_id m)
                       /\ m_pharmacy_id m = id user)).
  { destruct (pg_key_in entity_id) as [k|]; [|right; intros [E _]; discriminate E].
    destruct (Z.eq_dec k (m_medicine_id m)) as [Ek|Hne]; [|right; intros [E _]; congruence].
    destruct (Z.eq_dec (m_pharmacy_id m) (id user)) as [E|Hne];
      [left; split; congruence | right; now intros [_ E]]. }
  destruct Hdec as [Hyes|Hno]; [exact Hyes|].
  exfalso. apply Hout. apply (proj2 (delete_removes_rows entity_id user w)). now split.
Qed.

Lemma deleted_rows_gone (entity_id : string) (key : Z) (user : Claims) (w : World) :
  pg_key_in entity_id = Some key ->
  (forall d, In d (doctors (db (snd (deleteDoctor entity_id user w)))) ->
             doctor_matches key (id user) d = false)
  /\ (forall m, In m (medicines (db (snd (deleteMedicine entity_id user w)))) ->
                medicine_matches key (id user) m = false).
Proof.
  intros Hkey. rewrite deleteDoctor_run, deleteMedicine_run. cbv zeta. rewrite Hkey.
  cbn [snd db doctors medicines with_doctors with_medicines].
  split; intros x Hx; now apply in_kept in Hx.
Qed.

(** X6. After a delete, whatever its outcome, the same delete again
    changes nothing and is not answered 200: it is answered 404 when the
    key type accepts the path segment and 500 when it rejects it, and so is
    an update of the same row. *)
Theorem delete_then_same_row_not_found (entity_id : string) (user : Claims)
    (updates : Body) (w : World) :
  (let w1 := snd (deleteDoctor entity_id user w) in
   let again := match pg_key_in entity_id with
                | Some _ => failure 404 "Doctor not found"
                | None => failure 500 "Server error"
                end in
   fst (deleteDoctor entity_id user w1) = again
   /\ db (snd (deleteDoctor entity_id user w1)) = db w1
   /\ fst (updateDoctor entity_id user updates w1) = again
   /\ db (snd (updateDoctor entity_id user updates w1)) = db w1)
  /\
  (let w1 := snd (deleteMedicine entity_id user w) in
   let again := match pg_key_in entity_id with
                | Some _ => failure 404 "Medicine not found"
                | None => failure 500 "Server error"
                end in
   fst (deleteMedicine entity_id user w1) = again
   /\ db (snd (deleteMedicine entity_id user w1)) = db w1
   /\ fst (updateMedicine entity_id user updates w1) = again
   /\ db (snd (updateMedicine entity_id user updates w1)) = db w1).
Proof.
  destruct (pg_key_in entity_id) as [key|] eqn:Hkey.
  - destruct (deleted_rows_gone entity_id key user w Hkey) as [Hd Hm].
    split; cbv zeta.
    + rewrite (deleteDoctor_not_found _ key _ _ Hkey Hd).
      rewrite (updateDoctor_not_found _ key) by (exact Hkey || now apply filter_none).
      now repeat split.
    + rewrite (deleteMedicine_not_found _ key _ _ Hkey Hm).
      rewrite (updateMedicine_not_found _ key) by (exact Hkey || now apply filter_none).
      now repeat split.
  - split; cbv zeta.
    + rewrite !(deleteDoctor_rejected _ _ _ Hkey), (updateDoctor_rejected _ _ _ _ Hkey).
      now repeat split.
    + rewrite !(deleteMedicine_rejected _ _ _ Hkey), (updateMedicine_rejected _ _ _ _ Hkey).
      now repeat split.
Qed.

(** X7. After a doctor is deleted, a search answers with the rows it
    answered with before, less those of the deleted doctor; likewise for a
    medicine. *)
Theorem delete_then_search (entity_id : string) (user : Claims) (query : Params) (w : World) :
  (exists before after,
     fst (searchDoctors query w) = found before
     /\ fst (searchDoctors query (snd (deleteDoctor entity_id user w))) = found after
     /\ forall row,
          In row after <->
          In row before
          /\ ~ (pg_key_in entity_id = Some (d_doctor_id (dr_doctor row))
                /\ d_hospital_id (dr_doctor row) = id user))
  /\
  (exists before after,
     fst (searchMedicines query w) = found before
     /\ fst (searchMedicines query (snd (deleteMedicine entity_id user w))) = found after
     /\ forall row,
          In row after <->
          In row before
          /\ ~ (pg_key_in entity_id = Some (m_medicine_id (mr_medicine row))
                /\ m_pharmacy_id (mr_medicine row) = id user)).
Proof.
  destruct (delete_removes_rows entity_id user w) as [Hd Hm].
  split.
  - exists (doctor_rows query (db w)),
           (doctor_rows query (db (snd (deleteDoctor entity_id user w)))).
    split; [apply searchDoctors_run | split; [apply searchDoctors_run|]].
    intros row. rewrite !doctor_rows_In.
    assert (Hh : hospitals (db (snd (deleteDoctor entity_id user w))) = hospitals (db w))
      by (rewrite deleteDoctor_run; cbv zeta; now destruct (pg_key_in entity_id)).
    rewrite Hh. split.
    + intros (doc & h & -> & Hdoc & Hrest). apply Hd in Hdoc. destruct Hdoc as [Hdoc Hnot].
      split; [now exists doc, h | exact Hnot].
    + intros [(doc & h & -> & Hdoc & Hrest) Hnot].
      exists doc, h. split; [reflexivity|]. split; [|exact Hrest].
      apply Hd. now split.
  - exists (medicine_rows query (db w)),
           (medicine_rows query (db (snd (deleteMedicine entity_id user w)))).
    split; [apply searchMedicines_run | split; [apply searchMedicines_run|]].
    intros row. rewrite !medicine_rows_In.
    assert (Hp : pharmacies (db (snd (deleteMedicine entity_id user w))) = pharmacies (db w))
      by (rewrite deleteMedicine_run; cbv zeta; now destruct (pg_key_in entity_id)).
    rewrite Hp. split.
    + intros (med & p & -> & Hmed & Hrest). apply Hm in Hmed. destruct Hmed as [Hmed Hnot].
      split; [now exists med, p | exact Hnot].
    + intros [(med & p & -> & Hmed & Hrest) Hnot].
      exists med, p. split; [reflexivity|]. split; [|exact Hrest].
      apply Hm. now split.
Qed.

(** The rows [getDoctorsByHospital] and [getMedicinesByPharmacy] answer
    with. *)
Lemma getDoctorsByHospital_run (user : Claims) (w : World) :
  getDoctorsByHospital user w
  = (found (Sql.order_by d_full_name
              (filter (fun r => (d_hospital_id r =? id user)%Z) (doctors (db w)))),
     {| db := db w;
        queries := (queries w
                    ++ [("SELECT * FROM doctors WHERE hospital_id = $1 ORDER BY full_name",
                         [VInt (id user)])])%list |}).
Proof. reflexivity. Qed.

Lemma getMedicinesByPharmacy_run (user : Claims) (w : World) :
  getMedicinesByPharmacy user w
  = (found (Sql.order_by m_medicine_name
              (filter (fun r => (m_pharmacy_id r =? id user)%Z) (medicines (db w)))),
     {| db := db w;
        queries := (queries w
                    ++ [("SELECT * FROM medicines WHERE pharmacy_id = $1 ORDER BY medicine_name",
                         [VInt (id user)])])%list |}).
Proof. reflexivity. Qed.

(** X8. The listing of a hospital holds exactly the doctors whose owner is
    the caller, available or not, each as often as the table holds it, in
    ascending order of the name; it holds no row of another owner and
    changes nothing.  Likewise for the medicines of a pharmacy. *)
Theorem listing_is_the_callers_rows (user : Claims) (w : World) :
  (exists rows,
     fst (getDoctorsByHospital user w) = found rows
     /\ db (snd (getDoctorsByHospital user w)) = db w
     /\ Permutation rows
          (filter (fun d => (d_hospital_id d =? id user)%Z) (doctors (db w)))
     /\ ascending d_full_name rows
     /\ forall d, In d rows <-> In d (doctors (db w)) /\ d_hospital_id d = id user)
  /\
  (exists rows,
     fst (getMedicinesByPharmacy user w) = found rows
     /\ db (snd (getMedicinesByPharmacy user w)) = db w
     /\ Permutation rows
          (filter (fun m => (m_pharmacy_id m =? id user)%Z) (medicines (db w)))
     /\ ascending m_medicine_name rows
     /\ forall m, In m rows <-> In m (medicines (db w)) /\ m_pharmacy_id m = id user).
Proof.
  split.
  - rewrite getDoctorsByHospital_run. eexists.
    split; [reflexivity | split; [reflexivity | split; [apply order_by_perm|]]].
    split; [apply order_by_ascending|].
    intros d. split.
    + intros H. apply (Permutation_in _ (order_by_perm _ _ _)) in H.
      apply filter_In in H. now rewrite Z.eqb_eq in H.
    + intros H. apply (Permutation_in _ (Permutation_sym (order_by_perm _ _ _))).
      apply filter_In. now rewrite Z.eqb_eq.
  - rewrite getMedicinesByPharmacy_run. eexists.
    split; [reflexivity | split; [reflexivity | split; [apply order_by_perm|]]].
    split; [apply order_by_ascending|].
    intros m. split.
    + intros H. apply (Permutation_in _ (order_by_perm _ _ _)) in H.
      apply filter_In in H. now rewrite Z.eqb_eq in H.
    + intros H. apply (Permutation_in _ (Permutation_sym (order_by_perm _ _ _))).
      apply filter_In. now rewrite Z.eqb_eq.
Qed.

(** What [addDoctor] and [addMedicine] do: nothing but a 500 when the
    engine rejects the row, and otherwise one row appended. *)
Lemma addDoctor_effect (user : Claims) (body : Body) (doctor_id : Z) (w : World) :
  let r := addDoctor user body doctor_id w in
  (fst r = failure 500 "Server error" /\ db (snd r) = db w)
  \/ (exists row,
        fst r = {| status := 201; success := true;
                   message := Some "Doctor added successfully";
                   count := None; data := Some row |}
        /\ db (snd r) = with_doctors (doctors (db w) ++ [row])%list (db w)
        /\ d_doctor_id row = doctor_id
        /\ d_hospital_id row = id user
        /\ d_full_name row = as_text (get "full_name" body)
        /\ d_specialization row = as_text (get "specialization" body)
        /\ d_is_available row = doctors_default_is_available).
Proof.
  cbv zeta. unfold addDoctor, insert_doctor, read_numeric, read_column, result_bind.
  run_handler.
  destruct (as_text (get "experience_years" body)) as [e|];
    [destruct (pg_integer_in e); [|left; now split]|];
    (destruct (as_text (get "consultation_fee" body)) as [f|];
     [destruct (pg_numeric_in f); [|left; now split]|]);
    match goal with |- context [doctors_constraints ?d ?row] =>
      destruct (doctors_constraints d row); [|left; now split] end;
    right; eexists; cbn; repeat split.
Qed.

Lemma addMedicine_effect (user : Claims) (body : Body) (medicine_id : Z) (w : World) :
  let r := addMedicine user body medicine_id w in
  (fst r = failure 500 "Server error" /\ db (snd r) = db w)
  \/ (exists row,
        fst r = {| status := 201; success := true;
                   message := Some "Medicine added successfully";
                   count := None; data := Some row |}
        /\ db (snd r) = with_medicines (medicines (db w) ++ [row])%list (db w)
        /\ m_medicine_id row = medicine_id
        /\ m_pharmacy_id row = id user
        /\ m_medicine_name row = as_text (get "medicine_name" body)
        /\ m_generic_name row = as_text (get "generic_name" body)
        /\ m_is_available row = medicines_default_is_available).
Proof.
  cbv zeta. unfold addMedicine, insert_medicine, read_numeric, read_column, result_bind.
  run_handler.
  destruct (as_text (get "price" body)) as [f|];
    [destruct (pg_numeric_in f); [|left; now split]|];
    (destruct (as_text (get "stock_quantity" body)) as [e|];
     [destruct (pg_integer_in e); [|left; now split]|]);
    (destruct (as_text (get "requires_prescription" body)) as [b|];
     [destruct (pg_boolean_in b); [|left; now split]|]);
    match goal with |- context [medicines_constraints ?d ?row] =>
      destruct (medicines_constraints d row); [|left; now split] end;
    right; eexists; cbn; repeat split.
Qed.

(** X9. [addDoctor] creates at most one row, and its owner is the caller:
    either it is answered 500 and the database is as before, or it is
    answered 201 with the new row, which carries the caller as
    [hospital_id] whatever the body holds, and the database is the old one
    with this row appended to the doctors.  Likewise for [addMedicine]. *)
Theorem add_creates_a_row_of_the_caller (user : Claims) (body : Body) (key : Z)
    (w : World) :
  (let r := addDoctor user body key w in
   (fst r = failure 500 "Server error" /\ db (snd r) = db w)
   \/ (exists row,
         status (fst r) = 201 /\ data (fst r) = Some row
         /\ d_hospital_id row = id user
         /\ d_doctor_id row = key
         /\ doctors (db (snd r)) = (doctors (db w) ++ [row])%list
         /\ same_but_doctors (db w) (db (snd r))))
  /\
  (let r := addMedicine user body key w in
   (fst r = failure 500 "Server error" /\ db (snd r) = db w)
   \/ (exists row,
         status (fst r) = 201 /\ data (fst r) = Some row
         /\ m_pharmacy_id row = id user
         /\ m_medicine_id row = key
         /\ medicines (db (snd r)) = (medicines (db w) ++ [row])%list
         /\ same_but_medicines (db w) (db (snd r)))).
Proof.
  split; cbv zeta.
  - destruct (addDoctor_effect user body key w)
      as [H|(row & Hres & Hdb & Hid & Howner & _)]; [now left|].
    right. exists row. rewrite Hres, Hdb. unfold same_but_doctors.
    now repeat split.
  - destruct (addMedicine_effect user body key w)
      as [H|(row & Hres & Hdb & Hid & Howner & _)]; [now left|].
    right. exists row. rewrite Hres, Hdb. unfold same_but_medicines.
    now repeat split.
Qed.

(** X10. A doctor just added is in the listing of the hospital that added
    it, and the listing of every other hospital is answered as before;
    likewise for a medicine. *)
Theorem added_row_is_listed_for_its_owner_only (user other : Claims) (body : Body)
    (key : Z) (w : World) :
  (forall row,
     data (fst (addDoctor user body key w)) = Some row ->
     (exists rows,
        fst (getDoctorsByHospital user (snd (addDoctor user body key w))) = found rows
        /\ In row rows)
     /\ (id other <> id user ->
         fst (getDoctorsByHospital other (snd (addDoctor user body key w)))
         = fst (getDoctorsByHospital other w)))
  /\
  (forall row,
     data (fst (addMedicine user body key w)) = Some row ->
     (exists rows,
        fst (getMedicinesByPharmacy user (snd (addMedicine user body key w))) = found rows
        /\ In row rows)
     /\ (id other <> id user ->
         fst (getMedicinesByPharmacy other (snd (addMedicine user body key w)))
         = fst (getMedicinesByPharmacy other w))).
Proof.
  split; intros row Hdata.
  - destruct (addDoctor_effect user body key w)
      as [[Hres _]|(row' & Hres & Hdb & _ & Howner & _)];
      rewrite Hres in Hdata; [discriminate|].
    injection Hdata as ->.
    rewrite !getDoctorsByHospital_run, Hdb. cbn [fst db doctors with_doctors].
    rewrite !filter_app. cbn [filter]. rewrite Howner. split.
    + eexists. split; [reflexivity|].
      apply (Permutation_in _ (Permutation_sym (order_by_perm _ _ _))).
      rewrite Z.eqb_refl. apply in_or_app. right. now left.
    + intros Hne. apply not_eq_sym in Hne. apply Z.eqb_neq in Hne.
      now rewrite Hne, app_nil_r.
  - destruct (addMedicine_effect user body key w)
      as [[Hres _]|(row' & Hres & Hdb & _ & Howner & _)];
      rewrite Hres in Hdata; [discriminate|].
    injection Hdata as ->.
    rewrite !getMedicinesByPharmacy_run, Hdb. cbn [fst db medicines with_medicines].
    rewrite !filter_app. cbn [filter]. rewrite Howner. split.
    + eexists. split; [reflexivity|].
      apply (Permutation_in _ (Permutation_sym (order_by_perm _ _ _))).
      rewrite Z.eqb_refl. apply in_or_app. right. now left.
    + intros Hne. apply not_eq_sym in Hne. apply Z.eqb_neq in Hne.
      now rewrite Hne, app_nil_r.
Qed.

(** X11. A doctor just added is found by every search whose filters hold
    on it, once the schema makes new doctors available and the hospital of
    the caller is active; when the schema does not make new doctors
    available, no search finds it. *)
Theorem added_doctor_is_searchable (user : Claims) (body : Body) (key : Z)
    (w : World) (row : Doctor) (h : Hospital) (query : Params) :
  data (fst (addDoctor user body key w)) = Some row ->
  In h (hospitals (db w)) ->
  h_hospital_id h = id user ->
  (doctors_default_is_available = Some true ->
   h_is_active h = Some true ->
   filter_holds (prop "specialization" query) (as_text (get "specialization" body)) = true ->
   filter_holds (prop "city" query) (h_city h) = true ->
   filter_holds (prop "hospital_name" query) (h_hospital_name h) = true ->
   exists rows,
     fst (searchDoctors query (snd (addDoctor user body key w))) = found rows
     /\ In (doctor_row (row, h)) rows)
  /\ (doctors_default_is_available <> Some true ->
      exists rows,
        fst (searchDoctors query (snd (addDoctor user body key w))) = found rows
        /\ forall found_row, In found_row rows -> dr_doctor found_row <> row).
Proof.
  intros Hdata Hh Hid.
  destruct (addDoctor_effect user body key w)
    as [[Hres _]|(row' & Hres & Hdb & _ & Howner & _ & Hspec & Havail)];
    rewrite Hres in Hdata; [discriminate|].
  injection Hdata as ->.
  split.
  - intros Hdefault Hactive H1 H2 H3.
    exists (doctor_rows query (db (snd (addDoctor user body key w)))).
    split; [apply searchDoctors_run|].
    apply doctor_rows_In. exists row, h. rewrite Hdb.
    cbn [doctors hospitals with_doctors].
    split; [reflexivity|]. split; [apply in_or_app; right; now left|].
    split; [exact Hh|]. split; [congruence|]. split; [congruence|].
    split; [exact Hactive|]. split; [now rewrite Hspec|]. now split.
  - intros Hdefault.
    exists (doctor_rows query (db (snd (addDoctor user body key w)))).
    split; [apply searchDoctors_run|].
    intros found_row Hin Heq. apply doctor_rows_In in Hin.
    destruct Hin as (doc & h' & -> & Hdoc & _ & _ & Hav & _).
    cbn [dr_doctor doctor_row fst] in Heq. subst doc.
    congruence.
Qed.

End InventoryExtras.

(* ================================================================== *)
(** * Further properties: the search statements                        *)
(* ================================================================== *)

Section SearchExtras.

Context {collation : Sql.Collation}.

Lemma present_none_truthy (v : option string) :
  Js.present v = None <-> Js.truthy v = false.
Proof.
  unfold Js.present. destruct (Js.truthy v) eqn:E.
  - destruct v; [split; discriminate | discriminate E].
  - tauto.
Qed.

Lemma and_where_params {R} (filter : option string) (clause : nat -> string)
    (test : string -> R -> Sql.tv) (q : Select R) :
  params (and_where filter clause test q)
  = (params q ++ match Js.present filter with
                 | Some v => [VText (Sql.wrap v)]
                 | None => []
                 end)%list.
Proof.
  unfold and_where. destruct (Js.present filter); [reflexivity|].
  now rewrite app_nil_r.
Qed.

Lemma and_where_count {R} (filter : option string) (clause : nat -> string)
    (test : string -> R -> Sql.tv) (q : Select R) :
  paramCount q = S (List.length (params q)) ->
  paramCount (and_where filter clause test q)
  = S (List.length (params (and_where filter clause test q))).
Proof.
  intros H. unfold and_where. destruct (Js.present filter); [|exact H].
  cbn [paramCount params]. rewrite length_app, H. cbn. lia.
Qed.

Lemma and_where_text {R} (filter filter' : option string) (clause : nat -> string)
    (test test' : string -> R -> Sql.tv) (q q' : Select R) :
  Js.truthy filter' = Js.truthy filter ->
  text q' = text q -> paramCount q' = paramCount q ->
  text (and_where filter' clause test' q') = text (and_where filter clause test q)
  /\ paramCount (and_where filter' clause test' q')
     = paramCount (and_where filter clause test q).
Proof.
  intros Ht Htext Hcount. unfold and_where, Js.present. rewrite Ht.
  destruct (Js.truthy filter) eqn:E.
  - destruct filter as [v|]; [|discriminate E].
    destruct filter' as [v'|]; [|discriminate Ht].
    cbn [text paramCount]. now rewrite Htext, Hcount.
  - now split.
Qed.

(** X12. The statement a search sends binds the values of the present
    filters, each between two percent signs and in the order of the
    handler's tests; the counter that numbers the placeholders ends one
    above the number of bound parameters; and the text is the same for any
    two requests with the same filters present, whatever their values. *)
Theorem search_statement_is_parameterised (query query' : Params) (w : World) :
  (paramCount (searchDoctors_select query)
   = S (List.length (params (searchDoctors_select query)))
   /\ queries (snd (searchDoctors query w))
      = (queries w
         ++ [((text (searchDoctors_select query) ++ " ORDER BY d.full_name")%string,
              map (fun v => VText (Sql.wrap v))
                (present_values ["specialization"; "city"; "hospital_name"] query))])%list
   /\ ((forall key, Js.truthy (prop key query') = Js.truthy (prop key query)) ->
       text (searchDoctors_select query') = text (searchDoctors_select query)))
  /\
  (paramCount (searchMedicines_select query)
   = S (List.length (params (searchMedicines_select query)))
   /\ queries (snd (searchMedicines query w))
      = (queries w
         ++ [((text (searchMedicines_select query) ++ " ORDER BY m.medicine_name")%string,
              map (fun v => VText (Sql.wrap v))
                (present_values ["medicine_name"; "city"; "category"] query))])%list
   /\ ((forall key, Js.truthy (prop key query') = Js.truthy (prop key query)) ->
       text (searchMedicines_select query') = text (searchMedicines_select query))).
Proof.
  split.
  - split; [|split].
    + unfold searchDoctors_select. cbv zeta. now repeat apply and_where_count.
    + unfold searchDoctors. run_handler. cbn [snd queries]. do 3 f_equal.
      unfold searchDoctors_select, present_values. cbv zeta.
      rewrite !and_where_params. cbn [params flat_map app].
      destruct (Js.present (prop "specialization" query)),
        (Js.present (prop "city" query)),
        (Js.present (prop "hospital_name" query)); reflexivity.
    + intros Hsame. unfold searchDoctors_select. cbv zeta.
      apply and_where_text; [apply Hsame | |];
        apply and_where_text; try apply Hsame;
        apply and_where_text; try apply Hsame; reflexivity.
  - split; [|split].
    + unfold searchMedicines_select. cbv zeta. now repeat apply and_where_count.
    + unfold searchMedicines. run_handler. cbn [snd queries]. do 3 f_equal.
      unfold searchMedicines_select, present_values. cbv zeta.
      rewrite !and_where_params. cbn [params flat_map app].
      destruct (Js.present (prop "medicine_name" query)),
        (Js.present (prop "city" query)),
        (Js.present (prop "category" query)); reflexivity.
    + intros Hsame. unfold searchMedicines_select. cbv zeta.
      apply and_where_text; [apply Hsame | |];
        apply and_where_text; try apply Hsame;
        apply and_where_text; try apply Hsame; reflexivity.
Qed.

Lemma lower_empty (v : string) : Sql.lower v = "" <-> v = "".
Proof. destruct v; simpl; split; congruence. Qed.

Lemma present_up_to_case (f f' : option string) :
  option_map Sql.lower f = option_map Sql.lower f' ->
  option_map Sql.lower (Js.present f) = option_map Sql.lower (Js.present f').
Proof.
  intros H. unfold Js.present, Js.truthy.
  destruct f as [v|], f' as [v'|]; try discriminate H; [|reflexivity].
  injection H as H.
  destruct (String.eqb_spec v ""), (String.eqb_spec v' ""); cbn; try reflexivity.
  - subst v. symmetry in H. apply (proj1 (lower_empty v')) in H. contradiction.
  - subst v'. apply (proj1 (lower_empty v)) in H. contradiction.
  - now rewrite H.
Qed.

Lemma filter_holds_up_to_case (f f' col col' : option string) :
  option_map Sql.lower f = option_map Sql.lower f' ->
  option_map Sql.lower col = option_map Sql.lower col' ->
  filter_holds f col = filter_holds f' col'.
Proof.
  intros Hf Hcol. apply present_up_to_case in Hf. unfold filter_holds.
  destruct (Js.present f) as [v|], (Js.present f') as [v'|]; try discriminate Hf;
    [|reflexivity].
  injection Hf as Hv.
  destruct col as [s|], col' as [s'|]; try discriminate Hcol; [|reflexivity].
  injection Hcol as Hs.
  now rewrite !lower_wrap, Hv, Hs.
Qed.

(** X13. The searches do not see the case of ASCII letters: two requests
    whose filter values differ in case only get the same answer, and a
    filter holds alike on two column values that differ in case only. *)
Theorem search_ignores_case (query query' : Params) (w : World) :
  same_up_to_case query query' ->
  fst (searchDoctors query w) = fst (searchDoctors query' w)
  /\ fst (searchMedicines query w) = fst (searchMedicines query' w)
  /\ forall key s s',
       Sql.lower s = Sql.lower s' ->
       filter_holds (prop key query) (Some s) = filter_holds (prop key query') (Some s').
Proof.
  intros Hsame.
  assert (H : forall key col,
             filter_holds (prop key query) col = filter_holds (prop key query') col).
  { intros key col. now apply filter_holds_up_to_case. }
  split; [|split].
  - rewrite (proj1 (searchDoctors_run query w)), (proj1 (searchDoctors_run query' w)).
    unfold doctor_rows. f_equal. f_equal. f_equal.
    apply filter_same. intros r. unfold doctor_selected. now rewrite !H.
  - rewrite (proj1 (searchMedicines_run query w)), (proj1 (searchMedicines_run query' w)).
    unfold medicine_rows. f_equal. f_equal. f_equal.
    apply filter_same. intros r. unfold medicine_selected. now rewrite !H.
  - intros key s s' Hs. apply filter_holds_up_to_case; [apply Hsame|].
    cbn. now rewrite Hs.
Qed.

End SearchExtras.

(* ================================================================== *)
(** * Further properties: the guard and the routes                     *)
(* ================================================================== *)

Section GuardExtras.

Context {jwt : JwtLib} {pg : Postgres} {schema : Schema}.
Variable env : Env.

Lemma authMiddleware_same_token (required a b : option string) (now : Z) :
  bearer_token a = bearer_token b ->
  authMiddleware env required a now = authMiddleware env required b now.
Proof.
  intros H. unfold authMiddleware. now rewrite H.
Qed.

(** X14. The guard reads the second of the pieces the spaces cut the
    Authorization header into and nothing else: what follows a second
    space is ignored, so that [scheme token rest] is treated as
    [Bearer token] is; and a header with two spaces after the scheme word
    is answered 401 as without a token, whatever follows. *)
Theorem guard_reads_the_second_piece (required : option string)
    (scheme token rest : string) (now : Z) :
  Js.lacks " " scheme = true ->
  Js.lacks " " token = true ->
  bearer_token (Some (scheme ++ " " ++ token ++ " " ++ rest)) = Some token
  /\ authMiddleware env required (Some (scheme ++ " " ++ token ++ " " ++ rest)) now
     = authMiddleware env required (Some ("Bearer " ++ token)) now
  /\ authMiddleware env required (Some (scheme ++ " " ++ " " ++ rest)) now
     = Denied 401 "Access denied. No token provided.".
Proof.
  intros Hs Ht.
  assert (E : bearer_token (Some (scheme ++ " " ++ token ++ " " ++ rest)) = Some token).
  { unfold bearer_token.
    change (scheme ++ " " ++ token ++ " " ++ rest)
      with (scheme ++ String " " (token ++ String " " rest)).
    now rewrite !split_append. }
  split; [exact E | split].
  - apply authMiddleware_same_token. rewrite E. symmetry.
    exact (bearer_token_scheme "Bearer" token eq_refl Ht).
  - unfold authMiddleware, bearer_token.
    change (scheme ++ " " ++ " " ++ rest) with (scheme ++ String " " ("" ++ String " " rest)).
    now rewrite !split_append.
Qed.

Lemma guard_role (role : string) (authorization : option string) (now : Z)
    (decoded : Claims) :
  role <> "" ->
  authMiddleware env (Some role) authorization now = Next decoded ->
  userType decoded = role.
Proof.
  intros Hne. unfold authMiddleware. rewrite (present_nonempty role Hne).
  destruct (Js.present (bearer_token authorization)); [|discriminate].
  destruct (jwt_verify _ _ _); [|discriminate].
  destruct (String.eqb_spec (userType a) role); cbn; [|discriminate].
  intros H. injection H as <-. assumption.
Qed.

(** X15. A doctor row disappears through [DELETE /doctors/:doctor_id] only
    when the request carries a token that verifies, whose role is
    [hospital] and whose id is the owner of the row, and the row has the
    key of the path; a doctor row appears through [POST /doctors] only with
    such a token, and its owner is the id of the token.  Likewise for
    medicines and the role [pharmacy].  A request the guard rejects
    changes nothing and sends no statement. *)
Theorem routes_touch_only_the_callers_rows (authorization : option string) (now : Z)
    (entity_id : string) (new_key : Z) (body : Body) (w : World) :
  (forall d, In d (doctors (db w)) ->
             ~ In d (doctors (db (snd (delete_doctor env authorization now entity_id w)))) ->
             exists decoded,
               authMiddleware env (Some "hospital") authorization now = Next decoded
               /\ userType decoded = "hospital"
               /\ d_hospital_id d = id decoded
               /\ pg_key_in entity_id = Some (d_doctor_id d))
  /\ (forall d, In d (doctors (db (snd (post_doctor env authorization now body new_key w)))) ->
                ~ In d (doctors (db w)) ->
                exists decoded,
                  authMiddleware env (Some "hospital") authorization now = Next decoded
                  /\ userType decoded = "hospital"
                  /\ d_hospital_id d = id decoded)
  /\ (forall m, In m (medicines (db w)) ->
                ~ In m (medicines (db (snd (delete_medicine env authorization now entity_id w)))) ->
                exists decoded,
                  authMiddleware env (Some "pharmacy") authorization now = Next decoded
                  /\ userType decoded = "pharmacy"
                  /\ m_pharmacy_id m = id decoded
                  /\ pg_key_in entity_id = Some (m_medicine_id m))
  /\ (forall m, In m (medicines (db (snd (post_medicine env authorization now body new_key w)))) ->
                ~ In m (medicines (db w)) ->
                exists decoded,
                  authMiddleware env (Some "pharmacy") authorization now = Next decoded
                  /\ userType decoded = "pharmacy"
                  /\ m_pharmacy_id m = id decoded)
  /\ (forall code msg,
        authMiddleware env (Some "hospital") authorization now = Denied code msg ->
        delete_doctor env authorization now entity_id w = (failure code msg, w)
        /\ post_doctor env authorization now body new_key w = (failure code msg, w)
        /\ put_doctor env authorization now entity_id body w = (failure code msg, w))
  /\ (forall code msg,
        authMiddleware env (Some "pharmacy") authorization now = Denied code msg ->
        delete_medicine env authorization now entity_id w = (failure code msg, w)
        /\ post_medicine env authorization now body new_key w = (failure code msg, w)
        /\ put_medicine env authorization now entity_id body w = (failure code msg, w)).
Proof.
  assert (Hh := guard_role "hospital" authorization now).
  assert (Hp := guard_role "pharmacy" authorization now).
  unfold delete_doctor, post_doctor, put_doctor, delete_medicine, post_medicine,
    put_medicine, guarded.
  destruct (authMiddleware env (Some "hospital") authorization now) as [c1 m1|u1];
    destruct (authMiddleware env (Some "pharmacy") authorization now) as [c2 m2|u2].
  all: repeat match goal with |- _ /\ _ => split end.
  all: try (intros x Hin Hout; cbn [snd] in *; contradiction).
  all: try (intros code msg E; try discriminate E; injection E as <- <-; now repeat split).
  all: intros x Hin Hout.
  all: try (exists u1; split; [reflexivity|];
            split; [apply Hh; [discriminate | reflexivity]|]).
  all: try (exists u2; split; [reflexivity|];
            split; [apply Hp; [discriminate | reflexivity]|]).
  all: try (destruct (removed_doctor_matched entity_id u1 w x Hin Hout) as [E1 E2];
            split; [exact E2 | exact E1]).
  all: try (destruct (removed_medicine_matched entity_id u2 w x Hin Hout) as [E1 E2];
            split; [exact E2 | exact E1]).
  all: try (destruct (addDoctor_effect u1 body new_key w)
              as [[_ Hdb]|(row & _ & Hdb & _ & Howner & _)];
            rewrite Hdb in Hin; [contradiction|];
            cbn [doctors with_doctors] in Hin; apply in_app_or in Hin;
            destruct Hin as [Hin|[<-|[]]]; [contradiction | exact Howner]).
  all: try (destruct (addMedicine_effect u2 body new_key w)
              as [[_ Hdb]|(row & _ & Hdb & _ & Howner & _)];
            rewrite Hdb in Hin; [contradiction|];
            cbn [medicines with_medicines] in Hin; apply in_app_or in Hin;
            destruct Hin as [Hin|[<-|[]]]; [contradiction | exact Howner]).
Qed.

End GuardExtras.

(* ================================================================== *)
(** * The further properties at concrete inputs                        *)
(* ================================================================== *)

Example login_with_stored_password :
  status (fst (login example_env role_hospital
                 [("email", VText "a@x.com"); ("password", VText "p1")] 50 example_world))
  = 200.
Proof. reflexivity. Qed.

Lemma register_then_login_witness :
  let r1 := register example_env role_hospital new_hospital "salt" 50 example_world in
  let r2 := login example_env role_hospital new_hospital 60 (snd r1) in
  status (fst r1) = 201
  /\ status (fst r2) = 200
  /\ (exists account,
        data (fst r1) = Some (account, generateToken example_env (account_id account)
                                         (role_name role_hospital) 50)
        /\ data (fst r2) = Some (account, generateToken example_env (account_id account)
                                            (role_name role_hospital) 60)
        /\ account_email account = Some "h@x.com")
  /\ db (snd r2) = db (snd r1).
Proof.
  apply (@register_then_login example_jwt example_bcrypt example_pg example_env
           role_hospital new_hospital "salt" 50 60 example_world "h@x.com" "p3").
  - reflexivity.
  - reflexivity.
  - cbn. intros [H|[H|[]]]; discriminate H.
  - reflexivity.
Defined.

Lemma example_keys_fresh (table : Role) : keys_fresh table (db example_world).
Proof.
  destruct table; split; cbn.
  - constructor.
  - intros k [].
  - repeat constructor; cbn; intuition discriminate.
  - intros k [<-|[<-|[]]]; lia.
  - repeat constructor; cbn; intuition discriminate.
  - intros k [<-|[<-|[]]]; lia.
Qed.

Lemma register_keeps_keys_fresh_witness :
  (forall table,
     keys_fresh table
       (db (snd (register example_env role_hospital new_hospital "salt" 50 example_world))))
  /\ forall account token,
       data (fst (register example_env role_hospital new_hospital "salt" 50 example_world))
       = Some (account, token) ->
       ~ In (account_id account) (keys role_hospital (db example_world))
       /\ In (account_id account)
            (keys role_hospital
               (db (snd (register example_env role_hospital new_hospital "salt" 50
                           example_world)))).
Proof.
  apply (@register_keeps_keys_fresh example_jwt example_bcrypt example_pg example_env
           role_hospital new_hospital "salt" 50 example_world).
  exact example_keys_fresh.
Defined.


Lemma added_doctor_is_searchable_witness :
  exists row,
    data (fst (@addDoctor example_schema hospital_7 new_doctor 9 example_world)) = Some row
    /\ d_hospital_id row = 7%Z
    /\ exists rows,
         fst (@searchDoctors bytewise [("specialization", "cardio")]
                (snd (@addDoctor example_schema hospital_7 new_doctor 9 example_world)))
         = found rows
         /\ In (doctor_row (row, city_hospital)) rows.
Proof.
  eexists. split; [reflexivity|]. split; [reflexivity|].
  refine (proj1 (@added_doctor_is_searchable example_schema bytewise hospital_7
                   new_doctor 9 example_world _ city_hospital
                   [("specialization", "cardio")] eq_refl _ eq_refl)
            eq_refl eq_refl eq_refl eq_refl eq_refl).
  left. reflexivity.
Defined.

Lemma search_ignores_case_witness :
  fst (@searchDoctors bytewise [("city", "PUNE")] example_world)
  = fst (@searchDoctors bytewise [("city", "pune")] example_world)
  /\ fst (@searchMedicines bytewise [("city", "PUNE")] example_world)
     = fst (@searchMedicines bytewise [("city", "pune")] example_world)
  /\ forall key s s',
       Sql.lower s = Sql.lower s' ->
       filter_holds (prop key [("city", "PUNE")]) (Some s)
       = filter_holds (prop key [("city", "pune")]) (Some s').
Proof.
  apply (@search_ignores_case bytewise [("city", "PUNE")] [("city", "pune")] example_world).
  intros key. cbn -[String.eqb].
  destruct (String.eqb "city" key); reflexivity.
Defined.

Lemma guard_reads_the_second_piece_witness :
  bearer_token (Some ("Bearer" ++ " " ++ "hospital.7" ++ " " ++ "junk")) = Some "hospital.7"
  /\ authMiddleware example_env (Some "hospital")
       (Some ("Bearer" ++ " " ++ "hospital.7" ++ " " ++ "junk")) 50
     = authMiddleware example_env (Some "hospital") (Some ("Bearer " ++ "hospital.7")) 50
  /\ authMiddleware example_env (Some "hospital")
       (Some ("Bearer" ++ " " ++ " " ++ "junk")) 50
     = Denied 401 "Access denied. No token provided.".
Proof.
  apply (@guard_reads_the_second_piece example_jwt example_env (Some "hospital")
           "Bearer" "hospital.7" "junk" 50); reflexivity.
Defined.

Example owner_from_the_token_not_the_body :
  option_map d_hospital_id
    (data (fst (@addDoctor example_schema hospital_7 new_doctor 9 example_world)))
  = Some 7%Z.
Proof. reflexivity. Qed.

Example double_space_is_no_token :
  authMiddleware example_env (Some "hospital") (Some "Bearer  hospital.7") 50
  = Denied 401 "Access denied. No token provided.".
Proof. reflexivity. Qed.
